(** * Meeting bots: the session lifecycle of the Meet, Teams and Zoom bots

    A shallow embedding of [src/bots/meet/src/bot.ts] (class [MeetsBot]),
    [src/bots/teams/src/bot.ts] (class [TeamsBot]) and the Zoom bot
    (class [ZoomBot]), and the properties of the speaker timeframes, the
    participant tracker, the capture pipeline, the join procedure, the
    termination loop and the cleanup.

    JavaScript numbers that hold millisecond instants ([Date.now()] and
    differences of such) are integers far below 2^53, so they are modelled
    as [Z]; the one non-finite value the code uses, [Infinity], has a
    constructor of its own where a field can hold it. *)

From Stdlib Require Import ZArith List String Bool Lia Permutation Sorted.
Import ListNotations.
Local Open Scope Z_scope.

(* ================================================================== *)
(** * Part I.  Speaker timeframes ([MeetsBot.getSpeakerTimeframes])    *)
(* ================================================================== *)

(** ** [Array.prototype.sort] with a comparator

    ECMAScript specifies [sort] as a stable sort; for a comparator that is a
    total preorder every stable sort returns the same array, here computed by
    insertion. [cmp a b <= 0] keeps [a] in front of [b]. *)

Section Sort.
Context {A : Type}.
Variable cmp : A -> A -> Z.

Fixpoint insertBy (x : A) (l : list A) : list A :=
  match l with
  | [] => [x]
  | y :: l' => if cmp x y <=? 0 then x :: l else y :: insertBy x l'
  end.

Definition sortBy (l : list A) : list A := fold_right insertBy [] l.

Definition cmpLe (a b : A) : Prop := cmp a b <= 0.

End Sort.

Module Timeframes.

(** [SpeakerTimeframe] of [src/types]: [{speakerName, start, end}]. *)
Record SpeakerTimeframe : Type := mkTimeframe
  { speakerName : string; start : Z; end_ : Z }.

(** A stored timestamp array. [registerParticipantSpeaking] creates it as
    [[relativeTimestamp]] and only ever pushes to it (its TypeScript type is
    [[number]]), so it has a first element. *)
Definition Timestamps : Type := (Z * list Z)%type.

(** [registeredActivityTimestamps]: the entries in [Object.entries] order. *)
Definition ActivityMap : Type := list (string * Timestamps).

Definition utteranceThresholdMs : Z := 3000.

(** The inner [for (let i = 1; ...)] loop: [start], [end] and
    [processedTimeframes] are the loop's variables. *)
Fixpoint innerLoop (name : string) (start0 end0 : Z) (rest : list Z)
    (processed : list SpeakerTimeframe) : Z * Z * list SpeakerTimeframe :=
  match rest with
  | [] => (start0, end0, processed)
  | currentTimeframe :: rest' =>
      if currentTimeframe - end0 <? utteranceThresholdMs
      then innerLoop name start0 currentTimeframe rest' processed
      else innerLoop name currentTimeframe currentTimeframe rest'
             (if end0 - start0 >? 500
              then processed ++ [mkTimeframe name start0 end0]
              else processed)
  end.

(** One iteration of the outer [for ... of Object.entries(...)] loop. *)
Definition processSpeaker (processed : list SpeakerTimeframe)
    (entry : string * Timestamps) : list SpeakerTimeframe :=
  let '(name, (t0, rest)) := entry in
  let '(start1, end1, processed') := innerLoop name t0 t0 rest processed in
  processed' ++ [mkTimeframe name start1 end1].

(** [(a, b) => a.start - b.start || a.end - b.end]: [||] yields its right
    operand when the left one is [0]. *)
Definition compareTimeframes (a b : SpeakerTimeframe) : Z :=
  let d := start a - start b in
  if d =? 0 then end_ a - end_ b else d.

Definition getSpeakerTimeframes (m : ActivityMap) : list SpeakerTimeframe :=
  sortBy compareTimeframes (fold_left processSpeaker m []).

(** ** The derivation in the specification's words *)

(** A chunk of consecutive timestamps, first element apart. *)
Definition Chunk : Type := (Z * list Z)%type.

Definition chunkItems (c : Chunk) : list Z := fst c :: snd c.
Definition chunkFirst (c : Chunk) : Z := fst c.
Definition chunkLast (c : Chunk) : Z := last (snd c) (fst c).

(** Two instants are [apart] by the absolute value of their difference. *)
Definition apart (a b : Z) : Z := Z.abs (b - a).

(** Maximal runs of timestamps under a closeness test: a timestamp joins the
    run of its successor when the two are close. *)
Fixpoint utterancesBy (close : Z -> Z -> bool) (t : Z) (rest : list Z) : list Chunk :=
  match rest with
  | [] => [(t, [])]
  | t' :: rest' =>
      match utterancesBy close t' rest' with
      | c :: cs => if close t t' then (t, chunkItems c) :: cs else (t, []) :: c :: cs
      | [] => [(t, [])]
      end
  end.

Definition closeApart (a b : Z) : bool := apart a b <? 3000.
Definition closeElapsed (a b : Z) : bool := b - a <? 3000.

Definition utterances (ts : Timestamps) : list Chunk :=
  utterancesBy closeApart (fst ts) (snd ts).

Definition frameOf (name : string) (c : Chunk) : SpeakerTimeframe :=
  mkTimeframe name (chunkFirst c) (chunkLast c).

Definition duration (f : SpeakerTimeframe) : Z := end_ f - start f.

(** The frames of the segments before the final one that are longer than the
    minimum utterance, and the frame of the final segment. *)
Definition nonFinalFrames (name : string) (cs : list Chunk) : list SpeakerTimeframe :=
  filter (fun f => duration f >? 500) (map (frameOf name) (removelast cs)).

Definition finalFrame (name : string) (cs : list Chunk) : SpeakerTimeframe :=
  frameOf name (last cs (0, [])).

Definition emitted (name : string) (cs : list Chunk) : list SpeakerTimeframe :=
  nonFinalFrames name cs ++ [finalFrame name cs].

(** [emitted] with the start of the running segment given apart, as the
    loop of the source keeps it. *)
Fixpoint emittedFrom (name : string) (start0 : Z) (c : Chunk) (cs : list Chunk)
    : list SpeakerTimeframe :=
  match cs with
  | [] => [mkTimeframe name start0 (chunkLast c)]
  | c' :: cs' =>
      (if chunkLast c - start0 >? 500 then [mkTimeframe name start0 (chunkLast c)] else [])
      ++ emittedFrom name (chunkFirst c') c' cs'
  end.

(** [consecutive R a l]: [R] relates every two neighbours of [a :: l]. *)
Fixpoint consecutive (R : Z -> Z -> Prop) (a : Z) (l : list Z) : Prop :=
  match l with
  | [] => True
  | b :: l' => R a b /\ consecutive R b l'
  end.

(** Neighbouring chunks are separated by a gap of the threshold or more. *)
Fixpoint splitAtGaps (cs : list Chunk) : Prop :=
  match cs with
  | c1 :: (c2 :: _) as tl => 3000 <= apart (chunkLast c1) (chunkFirst c2) /\ splitAtGaps tl
  | _ => True
  end.

(** [cs] is the segmentation of [ts] into utterances: the chunks are the
    sequence cut into pieces, neighbours inside a piece are less than 3000 ms
    apart, and every cut is at a gap of 3000 ms or more. *)
Definition Segmentation (ts : Timestamps) (cs : list Chunk) : Prop :=
  flat_map chunkItems cs = chunkItems ts /\
  Forall (fun c => consecutive (fun a b => apart a b < 3000) (fst c) (snd c)) cs /\
  splitAtGaps cs.

(** The sequences of the data model: recorded in order. *)
Definition nondecreasing (ts : Timestamps) : Prop :=
  consecutive Z.le (fst ts) (snd ts).

Definition recorded (m : ActivityMap) : Prop :=
  Forall (fun e => nondecreasing (snd e)) m.

(** Ascending by [(start, end)]. *)
Definition startEndLe (a b : SpeakerTimeframe) : Prop :=
  start a < start b \/ (start a = start b /\ end_ a <= end_ b).

End Timeframes.

(* ================================================================== *)
(** * Part II.  Effects: the page, the encoder and the clock           *)
(* ================================================================== *)

Module Effects.

(** The selectors of the three bots (their text holds quotation marks, so
    they are named as in the sources rather than spelled out). *)
Inductive Selector : Type :=
  | enterNameField | askToJoinButton | joinNowButton | gotKickedDetector
  | leaveButton | peopleButton | muteButton | cameraOffButton | infoPopupClick
  | participantsPanel | removedFromMeetingText
  | leaveButtonSelector | displayNameSelector | muteButtonSelector
  | prejoinJoinButton.

(** [Participant] of the Meet bot; its [observer] lives in the page only. *)
Record Participant : Type := mkParticipant { id : string; name : string }.

(** [EventCode] of [src/types], the members the bots emit. *)
Inductive EventCode : Type := JOINING_CALL | PARTICIPANT_JOIN | PARTICIPANT_LEAVE.

(** What a library call (Playwright, Puppeteer, child_process, the backend
    callback) rejects with. *)
Inductive LibError : Type := TimeoutError | OtherError (msg : string).

(** What an async method of a bot rejects with. [WaitingRoomTimeoutError] is
    a class of this repository: no library call produces it. *)
Inductive Error : Type :=
  | Lib (e : LibError)
  | WaitingRoomTimeoutError
  | JsError (msg : string).

(** Calls that leave the bot: each is recorded, in order, in the history. *)
Inductive Call : Type :=
  | ChromiumLaunch | NewContext | NewPage
  | PuppeteerLaunch | OverridePermissions
  | WaitForTimeout (ms : Z)
  | AddInitScript
  | MouseMove (x y : Z) | MouseClick (x y : Z)
  | Goto | BringToFront
  | WaitForSelector (s : Selector) (timeout : option Z)
  | Fill (s : Selector)
  | Click (s : Selector) (timeout : option Z)
  | RaceEntryButtons
  | LocatorCount (s : Selector)
  | LocatorIsHidden (s : Selector)
  | LocatorIsVisible (s : Selector)
  | EvaluatePeopleIcon | EvaluateObservers
  | ExposeFunction (name : string)
  | OnEvent (code : EventCode)
  | DateNow
  | Sleep (ms : Z)
  | ExistsRecordingDir | MkdirRecordingDir | ExistsX11
  | Spawn
  | Kill
  | GetStream
  | CreateWriteStream
  | Pipe
  | StreamDestroy
  | FileClose
  | ClearInterval
  | BrowserClose
  | WssClose
  | QueryInput | Keyboard | TypeDisplayName | EvalInputValue | EvaluateSetValue
  | EvaluateParticipants
  | Log (msg : string).

Definition History : Type := list Call.

(** Events of the encoder subprocess after it was signalled. *)
Inductive ProcEvent : Type :=
  | StderrData
  | ExitEvent (code : option Z) (signal : option string)
  | ErrorEvent.

(** What the observers injected into the page report through the exposed
    functions [onParticipantJoin], [onParticipantLeave] and
    [registerParticipantSpeaking]. *)
Inductive PageEvent : Type :=
  | Joined (p : Participant)
  | Left (p : Participant)
  | Speaking (p : Participant).

(** A turn of the event loop while the bot waits. The page calls an exposed
    function, which then runs up to its first [await]; or the report of a
    leave that [onParticipantLeave] is awaiting comes back resolved, and
    the rest of that callback runs. Calls made back to back are all started
    before the first of their reports comes back. *)
Inductive Turn : Type :=
  | Called (ev : PageEvent)
  | LeaveReported (participant : Participant).

(** The environment: how each call answers, given everything done so far. *)
Record Env : Type := mkEnv
  { rejects : History -> Call -> option LibError;
    number : History -> Call -> Z;
    flag : History -> Call -> bool;
    names : History -> Call -> list string;
    encoderEvents : History -> list ProcEvent;
    pageEvents : History -> list Turn }.

(** How an awaited promise ends. [Pending]: it is not settled within the
    modelled run (it never settles, or the run ends before it does). *)
Inductive Outcome (A : Type) : Type :=
  | Resolved (a : A)
  | Rejected (e : Error)
  | Pending.
Arguments Resolved {A} a.
Arguments Rejected {A} e.
Arguments Pending {A}.

(** An async method over the fields [S] of [this]. Writes to [this] made
    before a rejection stay. *)
Definition M (S A : Type) : Type := Env -> S -> History -> Outcome A * S * History.

Section Monad.
Context {S : Type}.

Definition ret {A} (a : A) : M S A := fun _ s h => (Resolved a, s, h).

Definition bind {A B} (m : M S A) (k : A -> M S B) : M S B :=
  fun env s h =>
    match m env s h with
    | (Resolved a, s', h') => k a env s' h'
    | (Rejected e, s', h') => (Rejected e, s', h')
    | (Pending, s', h') => (Pending, s', h')
    end.

Definition throw {A} (e : Error) : M S A := fun _ s h => (Rejected e, s, h).

(** [try { m } catch (e) { handler e }] *)
Definition tryCatch {A} (m : M S A) (handler : Error -> M S A) : M S A :=
  fun env s h =>
    match m env s h with
    | (Rejected e, s', h') => handler e env s' h'
    | r => r
    end.

(** A promise that is started and not awaited: its outcome is dropped. *)
Definition detached {A} (m : M S A) : M S unit :=
  fun env s h => let '(_, s', h') := m env s h in (Resolved tt, s', h').

Definition gets {A} (f : S -> A) : M S A := fun _ s h => (Resolved (f s), s, h).
Definition modify (f : S -> S) : M S unit := fun _ s h => (Resolved tt, f s, h).

(** A library call that resolves with nothing of interest, or rejects. *)
Definition perform (c : Call) : M S unit :=
  fun env s h =>
    (match rejects env h c with
     | None => Resolved tt
     | Some e => Rejected (Lib e)
     end, s, h ++ [c]).

Definition askBool (c : Call) : M S bool :=
  fun env s h =>
    (match rejects env h c with
     | None => Resolved (flag env h c)
     | Some e => Rejected (Lib e)
     end, s, h ++ [c]).

Definition askNumber (c : Call) : M S Z :=
  fun env s h =>
    (match rejects env h c with
     | None => Resolved (number env h c)
     | Some e => Rejected (Lib e)
     end, s, h ++ [c]).

Definition askNames (c : Call) : M S (list string) :=
  fun env s h =>
    (match rejects env h c with
     | None => Resolved (names env h c)
     | Some e => Rejected (Lib e)
     end, s, h ++ [c]).

(** Calls that do not throw: [console.log], [kill('SIGINT')],
    [clearInterval], [stream.destroy()], [Date.now()]. *)
Definition note (c : Call) : M S unit := fun _ s h => (Resolved tt, s, h ++ [c]).
Definition log (msg : string) : M S unit := note (Log msg).
Definition dateNow : M S Z := fun env s h => (Resolved (number env h DateNow), s, h ++ [DateNow]).

(** [await new Promise(...)] whose resolution is never requested. *)
Definition never {A} : M S A := fun _ s h => (Pending, s, h).
End Monad.

(** The three components of a run. *)
Definition outcomeOf {S A : Type} (r : Outcome A * S * History) : Outcome A := fst (fst r).
Definition stateOf {S A : Type} (r : Outcome A * S * History) : S := snd (fst r).
Definition historyOf {S A : Type} (r : Outcome A * S * History) : History := snd r.

(** An environment in which every call resolves, the clock reads [clock],
    every probe answers [false] or [0], and nothing is emitted. *)
Definition quietEnv (clock : Z) : Env :=
  {| rejects := fun _ _ => None;
     number := fun _ c => match c with DateNow => clock | _ => 0%Z end;
     flag := fun _ _ => false;
     names := fun _ _ => [];
     encoderEvents := fun _ => [];
     pageEvents := fun _ => [] |}.

Declare Scope bot_scope.
Delimit Scope bot_scope with bot.
Notation "x <- m ;; k" := (bind m (fun x => k))
  (at level 61, m at next level, right associativity) : bot_scope.
Notation "m ;; k" := (bind m (fun _ => k))
  (at level 61, right associativity) : bot_scope.

(** The automatic-leave policy and the settings of [BotConfig] the bots
    read. [everyoneLeftTimeout] is read with [?? 30000]. *)
Record AutomaticLeave : Type := mkAutomaticLeave
  { waitingRoomTimeout : Z;
    everyoneLeftTimeout : option Z;
    inactivityTimeout : Z }.

Record BotConfig : Type := mkBotConfig
  { automaticLeave : AutomaticLeave;
    heartbeatInterval : Z }.

(** A field that holds a number or [Infinity] ([timeAloneStarted]). *)
Inductive Instant : Type := At (t : Z) | Infinity.

(** [Date.now() - timeAloneStarted > leaveMs]; [now - Infinity] is
    [-Infinity], which exceeds nothing. *)
Definition elapsedExceeds (now : Z) (since : Instant) (limit : Z) : bool :=
  match since with
  | At t => now - t >? limit
  | Infinity => false
  end.

(** Handles: only their being set is observed. *)
Inductive Handle : Type := handle.

End Effects.

(* ================================================================== *)
(** * Part III.  The Meet bot ([src/bots/meet/src/bot.ts])             *)
(* ================================================================== *)

Module Meet.
Import Effects Timeframes.
Local Open Scope bot_scope.
Local Open Scope string_scope.

(** The fields of [MeetsBot] that its methods read or write. *)
Record MeetsBot : Type := mkMeetsBot
  { settings : BotConfig;
    browser : option Handle;
    page : option Handle;
    kicked : bool;
    participants : list Participant;
    registeredActivityTimestamps : ActivityMap;
    startedRecording : bool;
    timeAloneStarted : Instant;
    lastActivity : option Z;
    recordingStartedAt : Z;
    ffmpegProcess : option Handle }.

(** The field initialisers and the constructor. *)
Definition newMeetsBot (botSettings : BotConfig) : MeetsBot :=
  {| settings := botSettings; browser := None; page := None; kicked := false;
     participants := []; registeredActivityTimestamps := [];
     startedRecording := false; timeAloneStarted := Infinity;
     lastActivity := None; recordingStartedAt := 0; ffmpegProcess := None |}.

Definition set_browser (v : option Handle) (b : MeetsBot) : MeetsBot :=
  mkMeetsBot (settings b) v (page b) (kicked b) (participants b)
    (registeredActivityTimestamps b) (startedRecording b) (timeAloneStarted b)
    (lastActivity b) (recordingStartedAt b) (ffmpegProcess b).
Definition set_page (v : option Handle) (b : MeetsBot) : MeetsBot :=
  mkMeetsBot (settings b) (browser b) v (kicked b) (participants b)
    (registeredActivityTimestamps b) (startedRecording b) (timeAloneStarted b)
    (lastActivity b) (recordingStartedAt b) (ffmpegProcess b).
Definition set_kicked (v : bool) (b : MeetsBot) : MeetsBot :=
  mkMeetsBot (settings b) (browser b) (page b) v (participants b)
    (registeredActivityTimestamps b) (startedRecording b) (timeAloneStarted b)
    (lastActivity b) (recordingStartedAt b) (ffmpegProcess b).
Definition set_participants (v : list Participant) (b : MeetsBot) : MeetsBot :=
  mkMeetsBot (settings b) (browser b) (page b) (kicked b) v
    (registeredActivityTimestamps b) (startedRecording b) (timeAloneStarted b)
    (lastActivity b) (recordingStartedAt b) (ffmpegProcess b).
Definition set_registeredActivityTimestamps (v : ActivityMap) (b : MeetsBot) : MeetsBot :=
  mkMeetsBot (settings b) (browser b) (page b) (kicked b) (participants b)
    v (startedRecording b) (timeAloneStarted b)
    (lastActivity b) (recordingStartedAt b) (ffmpegProcess b).
Definition set_startedRecording (v : bool) (b : MeetsBot) : MeetsBot :=
  mkMeetsBot (settings b) (browser b) (page b) (kicked b) (participants b)
    (registeredActivityTimestamps b) v (timeAloneStarted b)
    (lastActivity b) (recordingStartedAt b) (ffmpegProcess b).
Definition set_timeAloneStarted (v : Instant) (b : MeetsBot) : MeetsBot :=
  mkMeetsBot (settings b) (browser b) (page b) (kicked b) (participants b)
    (registeredActivityTimestamps b) (startedRecording b) v
    (lastActivity b) (recordingStartedAt b) (ffmpegProcess b).
Definition set_lastActivity (v : option Z) (b : MeetsBot) : MeetsBot :=
  mkMeetsBot (settings b) (browser b) (page b) (kicked b) (participants b)
    (registeredActivityTimestamps b) (startedRecording b) (timeAloneStarted b)
    v (recordingStartedAt b) (ffmpegProcess b).
Definition set_ffmpegProcess (v : option Handle) (b : MeetsBot) : MeetsBot :=
  mkMeetsBot (settings b) (browser b) (page b) (kicked b) (participants b)
    (registeredActivityTimestamps b) (startedRecording b) (timeAloneStarted b)
    (lastActivity b) (recordingStartedAt b) v.

Definition Bot (A : Type) : Type := M MeetsBot A.

(** [this.page.f(...)]: a [TypeError] while [page] is not set. *)
Definition requirePage : Bot unit :=
  p <- gets page ;;
  match p with
  | Some _ => ret tt
  | None => throw (JsError "TypeError: page is undefined")
  end.

Definition onPage (c : Call) : Bot unit := requirePage ;; perform c.

(** ** The tracker: the functions exposed to the page (lines 648-687) *)

Definition onParticipantJoin (participant : Participant) : Bot unit :=
  modify (fun b => set_participants (participants b ++ [participant]) b) ;;
  perform (OnEvent PARTICIPANT_JOIN).

Definition withoutId (participant : Participant) (ps : list Participant) : list Participant :=
  filter (fun p => negb (String.eqb (id p) (id participant))) ps.

(** Lines 664-668: the rest of [onParticipantLeave], run once the report of
    the leave has resolved. *)
Definition afterLeaveReport (participant : Participant) : Bot unit :=
  modify (fun b => set_participants (withoutId participant (participants b)) b) ;;
  ps <- gets participants ;;
  if (Z.of_nat (List.length ps) =? 1)%Z
  then now <- dateNow ;; modify (set_timeAloneStarted (At now))
  else modify (set_timeAloneStarted Infinity).

(** The callback as a whole, when nothing else runs while it awaits. *)
Definition onParticipantLeave (participant : Participant) : Bot unit :=
  perform (OnEvent PARTICIPANT_LEAVE) ;;
  afterLeaveReport participant.

(** [registeredActivityTimestamps] is an object literal, so a lookup by a
    name that is not a key of its own answers with what [Object.prototype]
    defines under that name. These are the names it defines; what it holds
    under each of them is truthy and has no [push]. *)
Definition inheritedNames : list string :=
  [ "constructor"; "__defineGetter__"; "__defineSetter__"; "hasOwnProperty";
    "__lookupGetter__"; "__lookupSetter__"; "isPrototypeOf"; "propertyIsEnumerable";
    "toString"; "valueOf"; "__proto__"; "toLocaleString" ].

Definition inherited (speaker : string) : bool :=
  existsb (String.eqb speaker) inheritedNames.

(** [speaker] is a key of the object's own. *)
Definition hasOwn (speaker : string) (m : ActivityMap) : bool :=
  existsb (fun e => String.eqb (fst e) speaker) m.

(** [!this.registeredActivityTimestamps[name]] is false and the value found
    is no array: line 684 calls a [push] that is not there. *)
Definition pushMissing (speaker : string) (m : ActivityMap) : bool :=
  inherited speaker && negb (hasOwn speaker m).

(** Lines 681-685 for a name whose lookup finds nothing or an array of the
    object's own: created with one element on the first speech, pushed to
    afterwards. (The order of integer-like keys is outside this model: the
    results on timeframes below hold for the entries in any order.) *)
Fixpoint pushTimestamp (speaker : string) (t : Z) (m : ActivityMap) : ActivityMap :=
  match m with
  | [] => [(speaker, (t, []))]
  | (k, (t0, ts)) :: m' =>
      if String.eqb k speaker then (k, (t0, (ts ++ [t])%list)) :: m'
      else (k, (t0, ts)) :: pushTimestamp speaker t m'
  end.

Definition registerParticipantSpeaking (participant : Participant) : Bot unit :=
  now <- dateNow ;;
  modify (set_lastActivity (Some now)) ;;
  now' <- dateNow ;;
  startedAt <- gets recordingStartedAt ;;
  let relativeTimestamp := (now' - startedAt)%Z in
  log "Participant is speaking" ;;
  stored <- gets registeredActivityTimestamps ;;
  if pushMissing (name participant) stored
  then throw (JsError "TypeError: registeredActivityTimestamps[name].push is not a function")
  else modify (fun b => set_registeredActivityTimestamps
                          (pushTimestamp (name participant) relativeTimestamp
                             (registeredActivityTimestamps b)) b).

(** A call of an exposed function run to its end, with nothing else running
    while it awaits. *)
Definition pageCallback (ev : PageEvent) : Bot unit :=
  match ev with
  | Joined p => onParticipantJoin p
  | Left p => onParticipantLeave p
  | Speaking p => registerParticipantSpeaking p
  end.

(** A call of an exposed function up to its first [await] and, for the join,
    to its end, since nothing follows its [await]: [onParticipantJoin] has
    pushed and sent its report, [onParticipantLeave] has only sent its
    report, [registerParticipantSpeaking], which awaits nothing, is done. *)
Definition callbackStart (ev : PageEvent) : Bot unit :=
  match ev with
  | Joined p => onParticipantJoin p
  | Left p => perform (OnEvent PARTICIPANT_LEAVE)
  | Speaking p => registerParticipantSpeaking p
  end.

Definition turn (t : Turn) : Bot unit :=
  match t with
  | Called ev => callbackStart ev
  | LeaveReported p => afterLeaveReport p
  end.

(** The exposed functions run when the page calls them, interleaved at
    their [await]s; a rejection goes back to the page, not to the bot's own
    control flow. *)
Fixpoint runCallbacks (turns : list Turn) : Bot unit :=
  match turns with
  | [] => ret tt
  | t :: turns' => detached (turn t) ;; runCallbacks turns'
  end.

(** The turns that the calls of the page take while the bot waits. They are
    delivered where the bot waits longest: after the observers are installed
    and during the sleep of the loop. The environment decides their order;
    in a run of the program a [LeaveReported] answers an earlier call of
    [onParticipantLeave] whose report resolved. *)
Definition deliverPageEvents : Bot unit :=
  fun env b h => runCallbacks (pageEvents env h) env b h.

(** ** The capture pipeline (lines 191-201, 389-535) *)

Definition getRecordingPath : Bot unit :=
  dirExists <- askBool ExistsRecordingDir ;;
  if dirExists then ret tt else perform MkdirRecordingDir.

(** Only the effects of [getFFmpegParams] matter here: it probes the X11
    socket, logs, and asks for the recording path. *)
Definition getFFmpegParams : Bot unit :=
  x11 <- askBool ExistsX11 ;;
  (if x11 then log "Loading Dockerized FFMPEG Params ..."
   else log "Using test ffmpeg params") ;;
  getRecordingPath.

(** The listeners [startRecording] registers on the subprocess are the
    first two branches of [awaitEncoder] below: they run when the encoder
    emits. *)
Definition startRecording : Bot unit :=
  getRecordingPath ;;
  log "Attempting to start the recording ..." ;;
  p <- gets ffmpegProcess ;;
  match p with
  | Some _ => log "Recording already started."
  | None =>
      getFFmpegParams ;;
      perform Spawn ;;
      modify (set_ffmpegProcess (Some handle)) ;;
      log "Spawned a subprocess to record" ;;
      log "Started FFMPEG Process."
  end.

(** The listener on [stderr] registered by [startRecording]. *)
Definition onStderrData : Bot unit :=
  started <- gets startedRecording ;;
  if started then ret tt
  else log "Recording Started." ;; modify (set_startedRecording true).

(** The promise of [stopRecording] once the interrupt is sent: the events
    of the encoder run the listeners in the order they were registered, and
    the first [resolve] settles the promise. *)
Fixpoint awaitEncoder (evs : list ProcEvent) : Bot Z :=
  match evs with
  | [] => never
  | StderrData :: evs' => onStderrData ;; awaitEncoder evs'
  | ExitEvent code signal :: _ =>
      log "ffmpeg exited" ;;
      modify (set_ffmpegProcess None) ;;
      match code with
      | Some 0%Z => log "Recording stopped and file finalized." ;; ret 0%Z
      | _ => log "FFmpeg exited with code" ;; ret 1%Z
      end
  | ErrorEvent :: _ => log "Error while stopping ffmpeg" ;; ret 1%Z
  end.

Definition stopRecording : Bot Z :=
  log "Attempting to stop the recording ..." ;;
  p <- gets ffmpegProcess ;;
  match p with
  | None => log "No recording in progress, cannot end recording." ;; ret 1%Z
  | Some _ =>
      log "Killing ffmpeg process gracefully ..." ;;
      note Kill ;;
      log "Waiting for ffmpeg to finish encoding ..." ;;
      (fun env b h => awaitEncoder (encoderEvents env h) env b h)
  end.

(** ** Joining (lines 252-384) *)

Definition launchBrowser : Bot unit :=
  perform ChromiumLaunch ;;
  modify (set_browser (Some handle)) ;;
  perform NewContext ;;
  perform NewPage ;;
  modify (set_page (Some handle)).

(** Lines 279-362: everything up to and including the click on the entry
    button. The delays of [randomDelay] are recorded by their mean. *)
Definition joinUntilEntryClick : Bot unit :=
  launchBrowser ;;
  onPage (WaitForTimeout 1000) ;;
  onPage AddInitScript ;;
  onPage (MouseMove 10 672) ;;
  onPage (MouseMove 102 872) ;;
  onPage (MouseMove 114 1472) ;;
  onPage (WaitForTimeout 300) ;;
  onPage (MouseMove 114 100) ;;
  onPage (MouseClick 100 100) ;;
  onPage Goto ;;
  onPage BringToFront ;;
  log "Waiting for the input field to be visible..." ;;
  onPage (WaitForSelector enterNameField (Some 15000%Z)) ;;
  log "Found it. Waiting for 1 second..." ;;
  onPage (WaitForTimeout 1000) ;;
  log "Filling the input field with the name..." ;;
  onPage (Fill enterNameField) ;;
  log "Turning Off Camera and Microphone ..." ;;
  tryCatch
    (onPage (WaitForTimeout 500) ;;
     onPage (Click muteButton (Some 200%Z)) ;;
     onPage (WaitForTimeout 200))
    (fun _ => log "Could not turn off Microphone, probably already off.") ;;
  tryCatch
    (onPage (Click cameraOffButton (Some 200%Z)) ;;
     onPage (WaitForTimeout 200))
    (fun _ => log "Could not turn off Camera -- probably already off.") ;;
  log "Waiting for either the Join now or Ask to join button to appear..." ;;
  requirePage ;;
  joinNow <- askBool RaceEntryButtons ;;
  onPage (Click (if joinNow then joinNowButton else askToJoinButton) None).

(** Lines 364-384: the wait for the leave button, which is the joined
    signal, and the report of the join. *)
Definition awaitEntry : Bot Z :=
  log "Awaiting Entry ...." ;;
  timeout <- gets (fun b => waitingRoomTimeout (automaticLeave (settings b))) ;;
  tryCatch
    (onPage (WaitForSelector leaveButton (Some timeout)))
    (fun _ => throw WaitingRoomTimeoutError) ;;
  log "Joined Call." ;;
  perform (OnEvent JOINING_CALL) ;;
  ret 0%Z.

Definition joinMeeting : Bot Z := joinUntilEntryClick ;; awaitEntry.

(** ** Cleanup and leaving (lines 933-968) *)

Definition endLife : Bot unit :=
  log "Stopping Recording ..." ;;
  stopRecording ;;
  log "Done." ;;
  b <- gets browser ;;
  match b with
  | Some _ => perform BrowserClose ;; log "Closed Browser."
  | None => ret tt
  end.

Definition leaveMeeting : Bot Z :=
  log "Trying to leave the call ..." ;;
  tryCatch
    (onPage (Click leaveButton (Some 1000%Z)) ;; log "Left Call.")
    (fun _ => log "Attempted to Leave Call - could not (probably already left).") ;;
  log "Ending Life ..." ;;
  endLife ;;
  ret 0%Z.

(** ** The termination detector (lines 559-593, 873-915) *)

(** Each probe has its own [.catch] with a default; [this.page.locator] is
    outside of it. *)
Definition checkKicked : Bot bool :=
  requirePage ;;
  count <- tryCatch (askNumber (LocatorCount gotKickedDetector)) (fun _ => ret 0%Z) ;;
  if (count >? 0)%Z then ret true
  else
    requirePage ;;
    hidden <- tryCatch (askBool (LocatorIsHidden leaveButton)) (fun _ => ret true) ;;
    if hidden then ret true
    else
      requirePage ;;
      visible <- tryCatch (askBool (LocatorIsVisible removedFromMeetingText))
                   (fun _ => ret false) ;;
      if visible then ret true else ret false.

Definition handleInfoPopup (timeout : Z) : Bot unit :=
  found <- tryCatch
             (onPage (WaitForSelector infoPopupClick (Some timeout)) ;; ret true)
             (fun _ => ret false) ;;
  if found
  then log "Clicking the popup..." ;; onPage (Click infoPopupClick None)
  else ret tt.

(** Why the loop was left. The source keeps no such value: it [break]s, and
    only the kick is stored, in [kicked]. *)
Inductive LeaveCondition : Type := OnlyMeLeft | GotKicked | NoActivity.

(** The check of lines 877-888. *)
Definition aloneTimedOut : Bot bool :=
  ps <- gets participants ;;
  if (Z.of_nat (List.length ps) =? 1)%Z
  then
    leaveMs <- gets (fun b => match everyoneLeftTimeout (automaticLeave (settings b)) with
                              | Some ms => ms
                              | None => 30000%Z
                              end) ;;
    now <- dateNow ;;
    since <- gets timeAloneStarted ;;
    log "Only me left in the meeting. Waiting for timeout time to have allocated ..." ;;
    if elapsedExceeds now since leaveMs
    then log "Only one participant remaining for more than alocated time, leaving the meeting." ;;
         ret true
    else ret false
  else ret false.

(** The condition of lines 901-905, with the short circuit of [&&]; a
    [lastActivity] of [undefined] or [0] is falsy. *)
Definition noActivity : Bot bool :=
  ps <- gets participants ;;
  if (Z.of_nat (List.length ps) >? 1)%Z
  then
    lastSeen <- gets lastActivity ;;
    match lastSeen with
    | None => ret false
    | Some t =>
        if (t =? 0)%Z then ret false
        else
          now <- dateNow ;;
          limit <- gets (fun b => inactivityTimeout (automaticLeave (settings b))) ;;
          ret (now - t >? limit)%Z
    end
  else ret false.

(** One pass through the body of [while (true)]: [Some c] when it [break]s. *)
Definition loopIteration : Bot (option LeaveCondition) :=
  alone <- aloneTimedOut ;;
  if alone then ret (Some OnlyMeLeft)
  else
    wasKicked <- checkKicked ;;
    if wasKicked
    then log "Detected that we were kicked from the meeting." ;;
         modify (set_kicked true) ;;
         ret (Some GotKicked)
    else
      inactive <- noActivity ;;
      if inactive then log "No Activity for 5 minutes" ;; ret (Some NoActivity)
      else
        handleInfoPopup 1000 ;;
        log "Waiting 5 seconds." ;;
        note (Sleep 5000) ;;
        deliverPageEvents ;;
        ret None.

(** The loop, for at most [ticks] passes; [None] when it is still running. *)
Fixpoint meetingLoop (ticks : nat) : Bot (option LeaveCondition) :=
  match ticks with
  | O => ret None
  | S ticks' =>
      r <- loopIteration ;;
      match r with
      | Some c => ret (Some c)
      | None => meetingLoop ticks'
      end
  end.

(** ** [meetingActions] (lines 608-928) *)

(** Lines 610-871. [startRecording()] is not awaited. *)
Definition meetingSetup : Bot unit :=
  log "Starting Recording" ;;
  detached startRecording ;;
  log "Waiting for the popup..." ;;
  handleInfoPopup 5000 ;;
  tryCatch
    (requirePage ;;
     hasPeopleIcon <- askBool EvaluatePeopleIcon ;;
     (if hasPeopleIcon then log "Using new People button selector."
      else log "People button not found, using fallback selector." ;;
           onPage (Click peopleButton None)) ;;
     onPage (WaitForSelector participantsPanel None))
    (fun _ => log "Could not click People button. Continuing anyways.") ;;
  onPage (ExposeFunction "getParticipants") ;;
  onPage (ExposeFunction "onParticipantJoin") ;;
  onPage (ExposeFunction "onParticipantLeave") ;;
  onPage (ExposeFunction "registerParticipantSpeaking") ;;
  onPage EvaluateObservers ;;
  deliverPageEvents ;;
  log "Waiting until a leave condition is fulfilled..".

(** Lines 917-928. *)
Definition meetingExit : Bot Z :=
  log "Starting End Life Actions ..." ;;
  tryCatch (leaveMeeting ;; ret 0%Z) (fun _ => endLife ;; ret 1%Z).

Definition meetingActions (ticks : nat) : Bot Z :=
  meetingSetup ;;
  r <- meetingLoop ticks ;;
  match r with
  | Some _ => meetingExit
  | None => never
  end.

(** [run] *)
Definition run (ticks : nat) : Bot Z := joinMeeting ;; meetingActions ticks.

End Meet.

(* ================================================================== *)
(** * Part IV.  The Teams bot ([src/bots/teams/src/bot.ts])            *)
(* ================================================================== *)

Module Teams.
Import Effects.
Local Open Scope bot_scope.
Local Open Scope string_scope.

(** The fields of [TeamsBot]; [canceled] is a field of the base class. Both
    interval ids are set by the constructor. *)
Record TeamsBot : Type := mkTeamsBot
  { settings : BotConfig;
    browser : option Handle;
    page : option Handle;
    file : option Handle;
    stream : option Handle;
    participants : list string;
    timeAloneStarted : Instant;
    lastActivity : option Z;
    ended : bool;
    canceled : bool }.

Definition newTeamsBot (botSettings : BotConfig) : TeamsBot :=
  {| settings := botSettings; browser := None; page := None; file := None;
     stream := None; participants := []; timeAloneStarted := Infinity;
     lastActivity := None; ended := false; canceled := false |}.

Definition set_browser (v : option Handle) (b : TeamsBot) : TeamsBot :=
  mkTeamsBot (settings b) v (page b) (file b) (stream b) (participants b)
    (timeAloneStarted b) (lastActivity b) (ended b) (canceled b).
Definition set_page (v : option Handle) (b : TeamsBot) : TeamsBot :=
  mkTeamsBot (settings b) (browser b) v (file b) (stream b) (participants b)
    (timeAloneStarted b) (lastActivity b) (ended b) (canceled b).
Definition set_file (v : option Handle) (b : TeamsBot) : TeamsBot :=
  mkTeamsBot (settings b) (browser b) (page b) v (stream b) (participants b)
    (timeAloneStarted b) (lastActivity b) (ended b) (canceled b).
Definition set_stream (v : option Handle) (b : TeamsBot) : TeamsBot :=
  mkTeamsBot (settings b) (browser b) (page b) (file b) v (participants b)
    (timeAloneStarted b) (lastActivity b) (ended b) (canceled b).
Definition set_participants (v : list string) (b : TeamsBot) : TeamsBot :=
  mkTeamsBot (settings b) (browser b) (page b) (file b) (stream b) v
    (timeAloneStarted b) (lastActivity b) (ended b) (canceled b).
Definition set_timeAloneStarted (v : Instant) (b : TeamsBot) : TeamsBot :=
  mkTeamsBot (settings b) (browser b) (page b) (file b) (stream b) (participants b)
    v (lastActivity b) (ended b) (canceled b).
Definition set_ended (v : bool) (b : TeamsBot) : TeamsBot :=
  mkTeamsBot (settings b) (browser b) (page b) (file b) (stream b) (participants b)
    (timeAloneStarted b) (lastActivity b) v (canceled b).
Definition set_canceled (v : bool) (b : TeamsBot) : TeamsBot :=
  mkTeamsBot (settings b) (browser b) (page b) (file b) (stream b) (participants b)
    (timeAloneStarted b) (lastActivity b) (ended b) v.

Definition Bot (A : Type) : Type := M TeamsBot A.

Definition requirePage : Bot unit :=
  p <- gets page ;;
  match p with
  | Some _ => ret tt
  | None => throw (JsError "TypeError: page is undefined")
  end.

Definition onPage (c : Call) : Bot unit := requirePage ;; perform c.

(** ** Capture (lines 195-220) *)

Definition startRecording : Bot unit :=
  p <- gets page ;;
  match p with
  | None => throw (JsError "Page not initialized")
  | Some _ =>
      perform GetStream ;;
      modify (set_stream (Some handle)) ;;
      perform CreateWriteStream ;;
      modify (set_file (Some handle)) ;;
      note Pipe ;;
      log "Recording..."
  end.

Definition stopRecording : Bot unit :=
  s <- gets stream ;;
  match s with
  | Some _ => log "Stopping recording..." ;; note StreamDestroy
  | None => ret tt
  end.

(** ** Cleanup (lines 338-376) *)

Definition endLife : Bot unit :=
  isEnded <- gets ended ;;
  if isEnded then ret tt
  else
    modify (set_ended true) ;;
    tryCatch (onPage (Click leaveButtonSelector None)) (fun _ => ret tt) ;;
    f <- gets file ;;
    match f with
    | Some _ => note FileClose ;; modify (set_file None)
    | None => ret tt
    end ;;
    note ClearInterval ;;
    note ClearInterval ;;
    log "Stopping Recording ..." ;;
    stopRecording ;;
    log "Done." ;;
    b <- gets browser ;;
    match b with
    | Some _ => perform BrowserClose ;; log "Closed Browser."
    | None => ret tt
    end.

(** ** The roster poll (lines 240-278, 378-390, 514-520) *)

Definition leave : Bot unit :=
  tryCatch (onPage (Click leaveButtonSelector None)) (fun _ => endLife).

Definition aloneCheck : Bot unit :=
  leaveMs <- gets (fun b => match everyoneLeftTimeout (automaticLeave (settings b)) with
                            | Some ms => ms
                            | None => 30000%Z
                            end) ;;
  now <- dateNow ;;
  since <- gets timeAloneStarted ;;
  match since with
  | At _ => log "Only me left in the meeting. Waiting for timeout time to have allocated ..."
  | Infinity => ret tt
  end ;;
  if elapsedExceeds now since leaveMs
  then log "Only one participant remaining for more than alocated time, leaving the meeting." ;;
       leave
  else ret tt.

(** [this.aloneCheck()] is started inside the [try] and not awaited. *)
Definition updateParticipants : Bot unit :=
  tryCatch
    (requirePage ;;
     currentParticipants <- askNames EvaluateParticipants ;;
     modify (set_participants currentParticipants) ;;
     ps <- gets participants ;;
     since <- gets timeAloneStarted ;;
     (if (Z.of_nat (List.length ps) >? 1)%Z
      then modify (set_timeAloneStarted Infinity)
      else match since with
           | Infinity => now <- dateNow ;; modify (set_timeAloneStarted (At now))
           | At _ => ret tt
           end) ;;
     detached aloneCheck)
    (fun _ => log "Error getting participants:").

(** ** Joining (lines 81-178, 426-512) *)

Definition launchBrowser : Bot unit :=
  perform PuppeteerLaunch ;;
  modify (set_browser (Some handle)) ;;
  log "Parsing URL:" ;;
  detached (perform OverridePermissions) ;;
  perform NewPage ;;
  modify (set_page (Some handle)) ;;
  log "Opened Page".

(** One pass through the [try] of the display-name loop: [true] when it
    [break]s. Every throw inside is caught by the loop's own [catch]. *)
Definition fillDisplayName : Bot bool :=
  tryCatch
    (requirePage ;;
     found <- askBool QueryInput ;;
     if negb found then throw (JsError "Display name input not found")
     else
       perform (Click displayNameSelector None) ;;
       perform Keyboard ;; perform Keyboard ;; perform Keyboard ;; perform Keyboard ;;
       perform TypeDisplayName ;;
       actual <- askBool EvalInputValue ;;
       if actual then log "Entered Display Name" ;; ret true
       else
         perform EvaluateSetValue ;;
         actualAfterFallback <- askBool EvalInputValue ;;
         if actualAfterFallback then log "Entered Display Name" ;; ret true
         else ret false)
    (fun _ => ret false).

(** [for (let attempt = 1; attempt <= 4; attempt++)], with [remaining]
    passes to go. *)
Fixpoint fillLoop (attempt : Z) (remaining : nat) : Bot unit :=
  match remaining with
  | O => ret tt
  | S remaining' =>
      done <- fillDisplayName ;;
      if done then ret tt
      else
        (if (attempt <? 4)%Z then note (Sleep 250)
         else log "Display name fill did not fully stick; continuing anyway.") ;;
        fillLoop (attempt + 1)%Z remaining'
  end.

(** [this.checkForRejoining()] at its end is started and not awaited: it
    polls in the background and is left out. *)
Definition joinProcedure : Bot unit :=
  onPage (WaitForSelector displayNameSelector (Some 15000%Z)) ;;
  fillLoop 1 4 ;;
  tryCatch
    (onPage (WaitForSelector muteButtonSelector (Some 500%Z)) ;;
     onPage (Click muteButtonSelector None) ;;
     log "Muted Microphone")
    (fun _ => log "Mute button not found") ;;
  onPage (Click prejoinJoinButton None) ;;
  log "Found & Clicked the Join Button".

(** Lines 132-141. *)
Definition joinUntilWaitingRoom : Bot unit :=
  launchBrowser ;;
  log "Navigating to URL:" ;;
  onPage Goto ;;
  joinProcedure.

(** Lines 143-178; [isWaitingRoom] is the constant [true]. *)
Definition awaitEntry : Bot unit :=
  log "Joined waiting room, will wait" ;;
  timeout <- gets (fun b => waitingRoomTimeout (automaticLeave (settings b))) ;;
  tryCatch
    (onPage (WaitForSelector leaveButtonSelector (Some timeout)))
    (fun _ => modify (set_canceled true) ;; throw WaitingRoomTimeoutError) ;;
  log "Successfully joined meeting".

Definition joinMeeting : Bot unit := joinUntilWaitingRoom ;; awaitEntry.

End Teams.

(* ================================================================== *)
(** * Part V.  The Zoom bot (class [ZoomBot])                          *)
(* ================================================================== *)

Module Zoom.
Import Effects.
Local Open Scope bot_scope.
Local Open Scope string_scope.

Record ZoomBot : Type := mkZoomBot
  { browser : option Handle;
    page : option Handle;
    file : option Handle;
    stream : option Handle }.

Definition newZoomBot : ZoomBot :=
  {| browser := None; page := None; file := None; stream := None |}.

Definition set_file (v : option Handle) (b : ZoomBot) : ZoomBot :=
  mkZoomBot (browser b) (page b) v (stream b).
Definition set_stream (v : option Handle) (b : ZoomBot) : ZoomBot :=
  mkZoomBot (browser b) (page b) (file b) v.

Definition Bot (A : Type) : Type := M ZoomBot A.

(** Lines 209-220. *)
Definition startRecording : Bot unit :=
  p <- gets page ;;
  match p with
  | None => throw (JsError "Page not initialized")
  | Some _ =>
      perform GetStream ;;
      modify (set_stream (Some handle)) ;;
      perform CreateWriteStream ;;
      modify (set_file (Some handle)) ;;
      note Pipe
  end.

(** Lines 225-231. *)
Definition stopRecording : Bot unit :=
  s <- gets stream ;;
  match s with
  | Some _ => note StreamDestroy
  | None => ret tt
  end.

(** Lines 361-379; [this.stopRecording()] is not awaited. *)
Definition endLife : Bot unit :=
  detached stopRecording ;;
  f <- gets file ;;
  match f with
  | Some _ => note FileClose ;; modify (set_file None)
  | None => ret tt
  end ;;
  b <- gets browser ;;
  match b with
  | Some _ => perform BrowserClose ;; perform WssClose
  | None => ret tt
  end.

End Zoom.

(* ================================================================== *)
(** * Part V-a.  The observers of the Meet bot inside the page         *)
(* ================================================================== *)

(** The script that [meetingActions] evaluates in the page
    ([src/bots/meet/src/bot.ts], lines 691-871): the scan of the participants
    list, [handleMergedAudio] and the callback of the mutation observer. It
    runs in the page, on the page's own two arrays, and calls the functions
    the bot exposes; here it is a function from the state of the page to the
    new state and the calls it makes, in order. *)

Module MeetPage.
Import Effects.

(** A node as the script reads it: an element with its
    [data-participant-id] (absent, or a string) and its [aria-label], or a
    node without [getAttribute] (text, comment). *)
Inductive DomNode : Type :=
  | OtherNode
  | Element (participantId : option string) (ariaLabel : string).

(** What [document.querySelector] answers while a callback runs:
    [mergedAudio] holds the child nodes of the parent of the node labelled
    Merged audio, when there is one; [videoRectangle i] tells whether an
    element with [data-requested-participant-id = i] exists. *)
Record Dom : Type := mkDom
  { mergedAudio : option (list DomNode);
    videoRectangle : string -> bool }.

(** [window.participantArray] and [window.mergedAudioParticipantArray]. *)
Record PageState : Type := mkPageState
  { participantArray : list Participant;
    mergedAudioParticipantArray : list Participant }.

(** A run of the script so far: the arrays, the calls made to the exposed
    functions, and whether an exception has ended it. *)
Record Run : Type := mkRun
  { arrays : PageState;
    emitted : list PageEvent;
    threw : bool }.

(** An attribute value used as a condition: [null] and the empty string are
    falsy. *)
Definition truthy (attribute : option string) : option string :=
  match attribute with
  | Some s => if String.eqb s EmptyString then None else Some s
  | None => None
  end.

(** [array.find((p) => p.id === i)], used as a condition. *)
Definition tracked (i : string) (array : list Participant) : bool :=
  existsb (fun p => String.eqb (id p) i) array.

(** [array.filter((p) => p.id !== i)] *)
Definition dropId (i : string) (array : list Participant) : list Participant :=
  filter (fun p => negb (String.eqb (id p) i)) array.

(** Statements after an exception are not run. *)
Definition unlessThrown (step : Run -> Run) (r : Run) : Run :=
  if threw r then r else step r.

Definition emit (ev : PageEvent) (r : Run) : Run :=
  mkRun (arrays r) (emitted r ++ [ev]) (threw r).

Definition setParticipantArray (array : list Participant) (r : Run) : Run :=
  mkRun (mkPageState array (mergedAudioParticipantArray (arrays r))) (emitted r) (threw r).

Definition setMergedArray (array : list Participant) (r : Run) : Run :=
  mkRun (mkPageState (participantArray (arrays r)) array) (emitted r) (threw r).

Definition throwNow (r : Run) : Run := mkRun (arrays r) (emitted r) true.

(** The loop over the children of the merged-audio group (lines 728-737):
    [None] when a child has no [getAttribute], which throws. *)
Fixpoint detectParticipants (children : list DomNode) : option (list Participant) :=
  match children with
  | [] => Some []
  | OtherNode :: _ => None
  | Element participantId label :: rest =>
      match detectParticipants rest with
      | None => None
      | Some detected =>
          match truthy participantId with
          | Some i => Some (mkParticipant i label :: detected)
          | None => Some detected
          end
      end
  end.

(** Lines 751-759, for one new participant of the merged group.
    [observeSpeech] throws when the video block is not found: [observe] does
    not take [null]. *)
Definition joinMerged (dom : Dom) (participant : Participant) (r : Run) : Run :=
  let r1 := setMergedArray (mergedAudioParticipantArray (arrays r) ++ [participant]) r in
  let r2 := emit (Joined participant) r1 in
  if videoRectangle dom (id participant)
  then setParticipantArray (participantArray (arrays r2) ++ [participant]) r2
  else throwNow r2.

(** Lines 772-789, for one participant that left the merged group. *)
Definition leaveMerged (dom : Dom) (participant : Participant) (r : Run) : Run :=
  let r1 :=
    if videoRectangle dom (id participant) then r
    else setParticipantArray (dropId (id participant) (participantArray (arrays r)))
           (emit (Left participant) r) in
  setMergedArray (dropId (id participant) (mergedAudioParticipantArray (arrays r1))) r1.

(** [forEach]: the callback runs for every element until one throws. *)
Definition forEach {X : Type} (step : X -> Run -> Run) (xs : list X) (r : Run) : Run :=
  fold_left (fun acc x => unlessThrown (step x) acc) xs r.

(** [window.handleMergedAudio] (lines 720-792). *)
Definition handleMergedAudio (dom : Dom) (r : Run) : Run :=
  match mergedAudio dom with
  | None => r
  | Some children =>
      match detectParticipants children with
      | None => throwNow r
      | Some detected =>
          let merged := mergedAudioParticipantArray (arrays r) in
          if (List.length merged <? List.length detected)%nat
          then forEach (joinMerged dom)
                 (filter (fun p => negb (tracked (id p) merged)) detected) r
          else if (List.length detected <? List.length merged)%nat
          then forEach (leaveMerged dom)
                 (filter (fun p => negb (tracked (id p) detected)) merged) r
          else r
      end
  end.

(** The callback of [initialParticipants.forEach] (lines 794-806); the
    nodes are element nodes. *)
Definition scanNode (dom : Dom) (node : DomNode) (r : Run) : Run :=
  match node with
  | Element participantId label =>
      match truthy participantId with
      | None => handleMergedAudio dom r
      | Some i =>
          let participant := mkParticipant i label in
          setParticipantArray (participantArray (arrays r) ++ [participant])
            (emit (Joined participant) r)
      end
  | OtherNode => r
  end.

Definition isElement (node : DomNode) : bool :=
  match node with Element _ _ => true | OtherNode => false end.

(** The script up to the installation of the observer: both arrays are
    reset, then the nodes of the list are scanned. *)
Definition initialScan (dom : Dom) (childNodes : list DomNode) : Run :=
  forEach (scanNode dom) (filter isElement childNodes)
    (mkRun (mkPageState [] []) [] false).

(** The callback of [mutation.removedNodes.forEach] (lines 812-840). *)
Definition removedNode (dom : Dom) (node : DomNode) (r : Run) : Run :=
  match node with
  | Element participantId label =>
      match truthy participantId with
      | Some i =>
          if tracked i (participantArray (arrays r))
          then setParticipantArray (dropId i (participantArray (arrays r)))
                 (emit (Left (mkParticipant i label)) r)
          else handleMergedAudio dom r
      | None => handleMergedAudio dom r
      end
  | OtherNode => handleMergedAudio dom r
  end.

(** The callback of [mutation.addedNodes.forEach] (lines 842-866). *)
Definition addedNode (dom : Dom) (node : DomNode) (r : Run) : Run :=
  match node with
  | Element participantId label =>
      match truthy participantId with
      | Some i =>
          if tracked i (participantArray (arrays r))
          then handleMergedAudio dom r
          else
            let participant := mkParticipant i label in
            setParticipantArray (participantArray (arrays r) ++ [participant])
              (emit (Joined participant) r)
      | None => handleMergedAudio dom r
      end
  | OtherNode => handleMergedAudio dom r
  end.

(** A mutation record. *)
Record Mutation : Type := mkMutation
  { isChildList : bool;
    removedNodes : list DomNode;
    addedNodes : list DomNode }.

(** The callback of [mutations.forEach] (lines 810-867): the removed nodes
    are looked at for records of type [childList] only, the added nodes for
    every record. *)
Definition onMutation (dom : Dom) (mutation : Mutation) (r : Run) : Run :=
  let r1 := if isChildList mutation
            then forEach (removedNode dom) (removedNodes mutation) r
            else r in
  unlessThrown (forEach (addedNode dom) (addedNodes mutation)) r1.

(** One call of the callback of [peopleObserver]. *)
Definition peopleObserver (dom : Dom) (mutations : list Mutation) (st : PageState) : Run :=
  forEach (onMutation dom) mutations (mkRun st [] false).

End MeetPage.

(* ================================================================== *)
(** * Part V-b.  The end-of-meeting watcher of the Teams bot           *)
(* ================================================================== *)

Module TeamsWatch.
Import Effects Teams.
Local Open Scope bot_scope.

(** [checkForMeetingEnded] (lines 392-408): [check] waits for the leave
    button for two seconds and calls itself again when it is there; the
    promise is resolved by the first [catch]. [polls] bounds the calls of
    [check] that are followed. *)
Fixpoint checkForMeetingEnded (polls : nat) : Bot unit :=
  match polls with
  | O => never
  | S polls' =>
      tryCatch
        (onPage (WaitForSelector leaveButtonSelector (Some 2000%Z)) ;;
         checkForMeetingEnded polls')
        (fun _ => ret tt)
  end.

End TeamsWatch.

(* ================================================================== *)
(** * Part VI.  Notions used in the statements                         *)
(* ================================================================== *)

Module Notions.
Import Effects Timeframes Meet.
Local Open Scope bot_scope.

(** ** Relations between the state and history before and after a run *)

(** [m] maintains [R]: every run of [m] relates where it starts to where it
    ends. *)
Definition preserves {S : Type} (R : S * History -> S * History -> Prop)
    {A : Type} (m : M S A) : Prop :=
  forall env s h, R (s, h) (stateOf (m env s h), historyOf (m env s h)).

(** The history only grows. *)
Definition grown {S : Type} (x y : S * History) : Prop :=
  exists h', snd y = snd x ++ h'.

(** A field of the state is left as it is. *)
Definition kept {S X : Type} (f : S -> X) (x y : S * History) : Prop :=
  f (fst y) = f (fst x).


(** [m] resolves with values that satisfy [P] only. *)
Definition yields {S A : Type} (P : A -> Prop) (m : M S A) : Prop :=
  forall env s h a, outcomeOf (m env s h) = Resolved a -> P a.

(** ** Sample bots, participants and environments *)

Definition sampleSettings : BotConfig :=
  mkBotConfig (mkAutomaticLeave 5000 (Some 2000%Z) 300000) 5000.

Definition bot : Participant := mkParticipant "id-bot" "MeetingBot".
Definition ada : Participant := mkParticipant "id-ada" "Ada".
Definition bob : Participant := mkParticipant "id-bob" "Bob".

Definition rosterSize (b : MeetsBot) : Z := Z.of_nat (List.length (participants b)).

(** The Meet bot alone in the meeting since instant 100. *)
Definition aloneSince100 : MeetsBot :=
  set_timeAloneStarted (At 100) (set_participants [bot] (newMeetsBot sampleSettings)).

(** The Meet bot once its browser is launched, with no encoder started. *)
Definition meetLaunched : Meet.MeetsBot :=
  Meet.set_page (Some handle)
    (Meet.set_browser (Some handle) (Meet.newMeetsBot sampleSettings)).

(** The bot in the meeting, alone since instant 100, with
    [everyoneLeftTimeout = 2000]. *)
Definition aloneInMeeting : MeetsBot :=
  set_page (Some handle) (set_browser (Some handle) aloneSince100).

(** The bot in the meeting with Ada, who last spoke at instant 1, with
    [inactivityTimeout = 300000]. *)
Definition silentWithAda : MeetsBot :=
  set_lastActivity (Some 1%Z)
    (set_participants [bot; ada]
       (set_page (Some handle)
          (set_browser (Some handle) (newMeetsBot sampleSettings)))).

Definition withAda : MeetsBot :=
  set_participants [bot; ada] meetLaunched.

(** The Zoom bot once its page is open. *)
Definition zoomJoined : Zoom.ZoomBot :=
  Zoom.mkZoomBot (Some handle) (Some handle) None None.

(** A sample of stored activity: Ada speaks three times in a row, then twice
    briefly, then once more; Bob speaks twice 2999 ms apart, then once. *)
Definition sampleActivity : ActivityMap :=
  [ ("Ada"%string, (0, [1000; 2500; 6000; 6100; 20000]));
    ("Bob"%string, (500, [3499; 9000])) ].

(** An environment in which closing the browser fails. *)
Definition closeFails : Env :=
  {| rejects := fun _ c => match c with
                           | BrowserClose => Some (OtherError "Target closed")
                           | _ => None
                           end;
     number := fun _ _ => 0%Z;
     flag := fun _ _ => false;
     names := fun _ _ => [];
     encoderEvents := fun _ => [];
     pageEvents := fun _ => [] |}.


(** An environment in which the page is gone when the bot waits for the
    joined signal: the wait rejects at once, with an error that is no
    timeout. *)
Definition pageCrashes : Env :=
  {| rejects := fun _ c => match c with
                           | WaitForSelector leaveButton _ => Some (OtherError "Target closed")
                           | _ => None
                           end;
     number := fun _ _ => 0%Z;
     flag := fun _ _ => true;
     names := fun _ _ => [];
     encoderEvents := fun _ => [];
     pageEvents := fun _ => [] |}.

(** The page shows the forced-return button, and the clock reads 1000000. *)
Definition kickedLate : Env :=
  {| rejects := fun _ _ => None;
     number := fun _ c => match c with
                          | DateNow => 1000000
                          | LocatorCount gotKickedDetector => 1
                          | _ => 0
                          end%Z;
     flag := fun _ _ => false;
     names := fun _ _ => [];
     encoderEvents := fun _ => [];
     pageEvents := fun _ => [] |}.

Fixpoint sleeps (h : History) : Z :=
  match h with
  | [] => 0
  | Sleep _ :: h' => 1 + sleeps h'
  | _ :: h' => sleeps h'
  end.

(** The clock starts at 1000 and advances by the sleeps of the loop; no
    popup shows; Ada leaves during the first sleep, and the report of her
    leave comes back during that sleep. *)
Definition adaLeaves : Env :=
  {| rejects := fun _ c => match c with
                           | WaitForSelector infoPopupClick _ => Some TimeoutError
                           | _ => None
                           end;
     number := fun h c => match c with
                          | DateNow => 1000 + 5000 * sleeps h
                          | _ => 0
                          end;
     flag := fun _ _ => false;
     names := fun _ _ => [];
     encoderEvents := fun _ => [];
     pageEvents := fun h => if sleeps h =? 1
                            then [Called (Left ada); LeaveReported ada]
                            else [] |}.

(** The Meet bot while its encoder runs. *)
Definition recording : MeetsBot := set_ffmpegProcess (Some handle) meetLaunched.

(** The encoder writes to its error stream and then exits with [code]. *)
Definition encoderExits (code : option Z) (signal : option string) : Env :=
  {| rejects := fun _ _ => None;
     number := fun _ _ => 0%Z;
     flag := fun _ _ => false;
     names := fun _ _ => [];
     encoderEvents := fun _ => [StderrData; ExitEvent code signal];
     pageEvents := fun _ => [] |}.

(** ** The tracker *)


(** The claim as stated, for the functions the Meet bot exposes to the page:
    the instant is set when the roster goes from more than one entry to
    exactly one, cleared when it goes from one entry to more than one, and
    left as it is by every other call. *)
Definition aloneStartFollowsTransitions : Prop :=
  forall (env : Env) (ev : PageEvent) (b : MeetsBot) (h : History),
    let b' := stateOf (pageCallback ev env b h) in
    (1 < rosterSize b /\ rosterSize b' = 1 -> exists t, timeAloneStarted b' = At t) /\
    (rosterSize b = 1 /\ 1 < rosterSize b' -> timeAloneStarted b' = Infinity) /\
    (~ (1 < rosterSize b /\ rosterSize b' = 1) ->
     ~ (rosterSize b = 1 /\ 1 < rosterSize b') ->
     timeAloneStarted b' = timeAloneStarted b).

(** ** The capture pipeline and the cleanup *)

(** The first event of the encoder that a listener of [stopRecording]
    reacts to: an exit or an error. *)
Fixpoint firstSettling (evs : list ProcEvent) : option ProcEvent :=
  match evs with
  | [] => None
  | StderrData :: evs' => firstSettling evs'
  | ev :: _ => Some ev
  end.

(** The status [stopRecording] resolves with once the interrupt is sent. *)
Definition statusAfterInterrupt (evs : list ProcEvent) : Outcome Z :=
  match firstSettling evs with
  | Some (ExitEvent (Some 0) _) => Resolved 0
  | Some _ => Resolved 1
  | None => Pending
  end.

(** The history at which the encoder is asked for its events. *)
Definition interrupted (h : History) : History :=
  (((h ++ [Log "Attempting to stop the recording ..."])
      ++ [Log "Killing ffmpeg process gracefully ..."])
     ++ [Kill]) ++ [Log "Waiting for ffmpeg to finish encoding ..."].

(** Calls that start no encoder and open no stream: console output and the
    check of the recording directory in [getRecordingPath]. *)
Definition harmless (c : Call) : Prop :=
  match c with
  | Log _ | ExistsRecordingDir | MkdirRecordingDir => True
  | _ => False
  end.

Definition cleanupLog (h : History) : History :=
  (((h ++ [Log "Stopping Recording ..."])
      ++ [Log "Attempting to stop the recording ..."])
     ++ [Log "No recording in progress, cannot end recording."])
    ++ [Log "Done."].

(** ** The join procedure *)

(** The wait for the joined signal, with the page set. *)
Definition meetWait (b : Meet.MeetsBot) : Call :=
  WaitForSelector leaveButton (Some (waitingRoomTimeout (automaticLeave (Meet.settings b)))).



(** ** The termination loop *)

(** The claim as stated: in a pass in which the probes report the kick and a
    timeout condition holds as well, the pass ends the loop as kicked. *)
Definition kickedTakesPrecedence : Prop :=
  forall (env : Env) (b : MeetsBot) (h : History),
    (forall h', outcomeOf (checkKicked env b h') = Resolved true) ->
    (outcomeOf (aloneTimedOut env b h) = Resolved true \/
     (forall h', outcomeOf (noActivity env b h') = Resolved true)) ->
    outcomeOf (loopIteration env b h) = Resolved (Some GotKicked).

End Notions.

(* ================================================================== *)
(** * Part VI-a.  Notions used in the further properties               *)
(* ================================================================== *)

Module MoreNotions.
Import Effects Timeframes Meet Notions.
Local Open Scope bot_scope.

(** ** The tracker *)

(** [registeredActivityTimestamps[speaker]] *)
Fixpoint storedFor (speaker : string) (m : ActivityMap) : option Timestamps :=
  match m with
  | [] => None
  | (k, ts) :: m' => if String.eqb k speaker then Some ts else storedFor speaker m'
  end.

(** The roster after the calls of the page, when each call has run to its
    end before the next one is made: the array that the page itself keeps is
    rewritten in this way. *)
Fixpoint rosterAfter (evs : list PageEvent) (roster : list Participant) : list Participant :=
  match evs with
  | [] => roster
  | Joined p :: evs' => rosterAfter evs' (roster ++ [p])
  | Left p :: evs' => rosterAfter evs' (withoutId p roster)
  | Speaking _ :: evs' => rosterAfter evs' roster
  end.

(** The roster after the turns of the callbacks: a join pushes when it is
    called, a leave filters when its report has come back. *)
Fixpoint rosterAfterTurns (turns : list Turn) (roster : list Participant)
    : list Participant :=
  match turns with
  | [] => roster
  | Called (Joined p) :: turns' => rosterAfterTurns turns' (roster ++ [p])
  | LeaveReported p :: turns' => rosterAfterTurns turns' (withoutId p roster)
  | Called _ :: turns' => rosterAfterTurns turns' roster
  end.

(** The calls of the page among the turns, in their order. *)
Fixpoint callsOf (turns : list Turn) : list PageEvent :=
  match turns with
  | [] => []
  | Called ev :: turns' => ev :: callsOf turns'
  | LeaveReported _ :: turns' => callsOf turns'
  end.

(** [pending] without its first occurrence of [i]. *)
Fixpoint withoutFirst (i : string) (pending : list string) : list string :=
  match pending with
  | [] => []
  | j :: pending' => if String.eqb j i then pending' else j :: withoutFirst i pending'
  end.

(** The turns settle, [pending] being the ids of the leaves whose report is
    awaited: a report that comes back answers a leave that awaits it, a join
    is called while no leave with its id awaits its report, and at the end no
    report is awaited. *)
Fixpoint settles (pending : list string) (turns : list Turn) : bool :=
  match turns with
  | [] => match pending with [] => true | _ :: _ => false end
  | Called (Joined p) :: turns' =>
      negb (existsb (String.eqb (id p)) pending) && settles pending turns'
  | Called (Left p) :: turns' => settles (id p :: pending) turns'
  | Called (Speaking _) :: turns' => settles pending turns'
  | LeaveReported p :: turns' =>
      existsb (String.eqb (id p)) pending && settles (withoutFirst (id p) pending) turns'
  end.

(** The entries of the roster whose id awaits no report of a leave. *)
Definition notLeaving (pending : list string) (roster : list Participant)
    : list Participant :=
  filter (fun q => negb (existsb (String.eqb (id q)) pending)) roster.

(** The backend takes every report. *)
Definition reportsResolve (env : Env) : Prop :=
  forall h code, rejects env h (OnEvent code) = None.

(** The Meet bot with Ada's activity stored at instants 100 and 900. *)
Definition adaSpoke : MeetsBot :=
  set_registeredActivityTimestamps [("Ada"%string, (100, [900]))] withAda.

(** ** The termination loop *)

(** [this.settings?.automaticLeave?.everyoneLeftTimeout ?? 30000] *)
Definition aloneLimit (b : MeetsBot) : Z :=
  match everyoneLeftTimeout (automaticLeave (settings b)) with
  | Some ms => ms
  | None => 30000
  end.

(** No report of a leave comes back, whatever the bot has done so far: so
    it is while the page calls [onParticipantLeave] for nobody. *)
Definition noLeaveReported (env : Env) : Prop :=
  forall h p, ~ In (LeaveReported p) (pageEvents env h).

(** The bot in the meeting from the start with nobody else: the roster
    holds the bot only and no leave was ever reported. *)
Definition aloneFromTheStart : MeetsBot := set_participants [bot] meetLaunched.

(** ** What a method does to the outside *)

(** [m] makes calls that satisfy [P] only. *)
Definition within {S A : Type} (P : Call -> Prop) (m : M S A) : Prop :=
  forall env s h, exists added, historyOf (m env s h) = h ++ added /\ Forall P added.

(** The calls of a bot that waits and watches: the clock, the console, the
    sleep, the probes of the kick, the info popup, and the reports of joins
    and leaves that the page asks for. *)
Definition watching (c : Call) : Prop :=
  match c with
  | DateNow | Log _ | Sleep _ => True
  | LocatorCount gotKickedDetector => True
  | LocatorIsHidden leaveButton => True
  | LocatorIsVisible removedFromMeetingText => True
  | WaitForSelector infoPopupClick _ | Click infoPopupClick _ => True
  | OnEvent PARTICIPANT_JOIN | OnEvent PARTICIPANT_LEAVE => True
  | _ => False
  end.

(** ** The capture pipeline *)

(** The calls to [spawn] among the calls made. *)
Definition spawns (calls : History) : nat :=
  List.length (filter (fun c => match c with Spawn => true | _ => false end) calls).

(** ** The Teams bot *)

(** The Teams bot once its page is open. *)
Definition teamsJoined : Teams.TeamsBot :=
  Teams.set_page (Some handle)
    (Teams.set_browser (Some handle) (Teams.newTeamsBot sampleSettings)).

(** ** The join procedure *)

(** Of all calls only the clicks on the microphone and camera buttons
    fail. *)
Definition onlyMuteAndCameraFail (env : Env) : Prop :=
  forall h c, rejects env h c <> None ->
              exists timeout, c = Click muteButton timeout \/ c = Click cameraOffButton timeout.

(** The microphone and the camera are off already: the clicks on their
    buttons time out, every other call resolves, and the Join now button
    shows. *)
Definition alreadyMuted : Env :=
  {| rejects := fun _ c => match c with
                           | Click muteButton _ => Some TimeoutError
                           | Click cameraOffButton _ => Some TimeoutError
                           | _ => None
                           end;
     number := fun _ _ => 0%Z;
     flag := fun _ _ => true;
     names := fun _ _ => [];
     encoderEvents := fun _ => [];
     pageEvents := fun _ => [] |}.

(** ** The polls of the Teams bot *)

(** The wait of [checkForMeetingEnded] for the leave button. *)
Definition endedWait : Call := WaitForSelector leaveButtonSelector (Some 2000).

(** [everyoneLeftTimeout ?? 30000] of the Teams bot. *)
Definition teamsAloneLimit (b : Teams.TeamsBot) : Z :=
  match everyoneLeftTimeout (automaticLeave (Teams.settings b)) with
  | Some ms => ms
  | None => 30000
  end.

(** The leave button is there for the first two waits and gone at the
    third. *)
Definition goneAtThirdWait : Env :=
  {| rejects := fun h c => match c with
                           | WaitForSelector leaveButtonSelector _ =>
                               if (List.length h <? 2)%nat then None else Some TimeoutError
                           | _ => None
                           end;
     number := fun _ _ => 0%Z;
     flag := fun _ _ => false;
     names := fun _ _ => [];
     encoderEvents := fun _ => [];
     pageEvents := fun _ => [] |}.

(** The Teams bot in the meeting, alone since instant 100, with
    [everyoneLeftTimeout = 2000]. *)
Definition teamsAlone : Teams.TeamsBot :=
  Teams.set_timeAloneStarted (At 100) teamsJoined.

(** ** The probes of the kick *)

(** The probe of the leave button fails: the page is gone. *)
Definition probeFails : Env :=
  {| rejects := fun _ c => match c with
                           | LocatorIsHidden _ => Some (OtherError "Target closed")
                           | _ => None
                           end;
     number := fun _ _ => 0%Z;
     flag := fun _ _ => false;
     names := fun _ _ => [];
     encoderEvents := fun _ => [];
     pageEvents := fun _ => [] |}.

(** ** The observers in the page *)

(** What a step of the script has done, as long as nothing has thrown: the
    calls it has made to the bot, replayed on the array it started from,
    give the array it ends with. *)
Definition inStep (before after : MeetPage.Run) : Prop :=
  MeetPage.threw after = false ->
  exists calls,
    MeetPage.emitted after = (MeetPage.emitted before ++ calls)%list /\
    MeetPage.participantArray (MeetPage.arrays after)
    = rosterAfter calls (MeetPage.participantArray (MeetPage.arrays before)).

(** A page without a merged-audio group in which every participant has a
    video rectangle. *)
Definition plainDom : MeetPage.Dom :=
  MeetPage.mkDom None (fun _ => true).

(** Ada's and Bob's entries of the participants list. *)
Definition adaNode : MeetPage.DomNode := MeetPage.Element (Some "id-ada"%string) "Ada".
Definition bobNode : MeetPage.DomNode := MeetPage.Element (Some "id-bob"%string) "Bob".

(** ** A whole session *)

(** Every call resolves, the page shows the forced-return button at the
    first pass of the loop, and the encoder exits with code 0 once it is
    interrupted. *)
Definition shortSession : Env :=
  {| rejects := fun _ _ => None;
     number := fun _ c => match c with
                          | LocatorCount gotKickedDetector => 1
                          | _ => 0
                          end%Z;
     flag := fun _ _ => false;
     names := fun _ _ => [];
     encoderEvents := fun _ => [StderrData; ExitEvent (Some 0%Z) None];
     pageEvents := fun _ => [] |}.

End MoreNotions.

(* ================================================================== *)
(** * Part VII.  Properties of the speaker timeframes                  *)
(* ================================================================== *)

Section SortFacts.
Context {A : Type}.
Variable cmp : A -> A -> Z.
Hypothesis cmp_total : forall a b, cmpLe cmp a b \/ cmpLe cmp b a.
Hypothesis cmp_trans : forall a b c, cmpLe cmp a b -> cmpLe cmp b c -> cmpLe cmp a c.

Lemma insertBy_perm (x : A) (l : list A) : Permutation (x :: l) (insertBy cmp x l).
Proof.
  induction l as [|y l IH]; simpl; [reflexivity|].
  destruct (cmp x y <=? 0); [reflexivity|].
  rewrite perm_swap. now apply perm_skip.
Qed.

Lemma sortBy_perm (l : list A) : Permutation l (sortBy cmp l).
Proof.
  induction l as [|x l IH]; simpl; [constructor|].
  rewrite <- insertBy_perm. now apply perm_skip.
Qed.

Lemma insertBy_sorted (x : A) (l : list A) :
  StronglySorted (cmpLe cmp) l -> StronglySorted (cmpLe cmp) (insertBy cmp x l).
Proof.
  induction 1 as [|y l Hs IH Hall]; simpl.
  - repeat constructor.
  - destruct (cmp x y <=? 0) eqn:E.
    + apply Z.leb_le in E. constructor; [now constructor|].
      constructor; [exact E|].
      eapply Forall_impl; [|exact Hall]. intros z Hz. now apply cmp_trans with y.
    + apply Z.leb_gt in E. constructor; [exact IH|].
      assert (Hyx : cmpLe cmp y x).
      { destruct (cmp_total x y) as [H|H]; [unfold cmpLe in H; lia|exact H]. }
      eapply Permutation_Forall; [apply insertBy_perm|]. now constructor.
Qed.

Lemma sortBy_sorted (l : list A) : StronglySorted (cmpLe cmp) (sortBy cmp l).
Proof.
  induction l as [|x l IH]; simpl; [constructor|now apply insertBy_sorted].
Qed.
End SortFacts.

Module TimeframeFacts.
Import Timeframes Notions.

Lemma compareTimeframes_le (a b : SpeakerTimeframe) :
  cmpLe compareTimeframes a b <-> startEndLe a b.
Proof.
  unfold cmpLe, compareTimeframes, startEndLe.
  destruct (Z.eqb_spec (start a - start b) 0); lia.
Qed.

Lemma compareTimeframes_total (a b : SpeakerTimeframe) :
  cmpLe compareTimeframes a b \/ cmpLe compareTimeframes b a.
Proof. rewrite !compareTimeframes_le. unfold startEndLe. lia. Qed.

Lemma compareTimeframes_trans (a b c : SpeakerTimeframe) :
  cmpLe compareTimeframes a b -> cmpLe compareTimeframes b c ->
  cmpLe compareTimeframes a c.
Proof. rewrite !compareTimeframes_le. unfold startEndLe. lia. Qed.

Lemma sorted_startEnd (l : list SpeakerTimeframe) :
  StronglySorted startEndLe (sortBy compareTimeframes l).
Proof.
  pose proof (sortBy_sorted compareTimeframes compareTimeframes_total
                compareTimeframes_trans l) as H.
  induction H as [|x l' Hs IH Hall]; constructor; [exact IH|].
  eapply Forall_impl; [|exact Hall]. intros y Hy. now apply compareTimeframes_le.
Qed.

(** The first chunk of a segmentation starts at the first timestamp. *)
Lemma utterancesBy_head (close : Z -> Z -> bool) (rest : list Z) (t : Z) :
  exists tl cs, utterancesBy close t rest = (t, tl) :: cs.
Proof.
  destruct rest as [|t' rest]; simpl; [now exists [], []|].
  destruct (utterancesBy close t' rest) as [|c cs]; [now exists [], []|].
  destruct (close t t'); eauto.
Qed.

(** On a sequence recorded in order, the elapsed time is the distance. *)
Lemma utterancesBy_recorded (rest : list Z) (t : Z) :
  consecutive Z.le t rest ->
  utterancesBy closeElapsed t rest = utterancesBy closeApart t rest.
Proof.
  revert t. induction rest as [|t' rest IH]; intros t H; simpl; [reflexivity|].
  destruct H as [Hle H]. rewrite (IH _ H).
  replace (closeElapsed t t') with (closeApart t t'); [reflexivity|].
  unfold closeElapsed, closeApart, apart. now rewrite Z.abs_eq by lia.
Qed.

Lemma utterancesBy_items (close : Z -> Z -> bool) (rest : list Z) (t : Z) :
  flat_map chunkItems (utterancesBy close t rest) = t :: rest.
Proof.
  revert t. induction rest as [|t' rest IH]; intros t; simpl; [reflexivity|].
  specialize (IH t'). destruct (utterancesBy_head close rest t') as (tl & cs & E).
  rewrite E in *. destruct (close t t'); simpl in *; unfold chunkItems in *; simpl in *;
    now rewrite IH.
Qed.

Lemma utterances_folded (rest : list Z) (t : Z) :
  Forall (fun c => consecutive (fun a b => apart a b < 3000) (fst c) (snd c))
    (utterancesBy closeApart t rest).
Proof.
  revert t. induction rest as [|t' rest IH]; intros t; simpl; [repeat constructor|].
  specialize (IH t'). destruct (utterancesBy_head closeApart rest t') as (tl & cs & E).
  rewrite E in *. inversion IH as [|c l Hc Hl]; subst.
  destruct (closeApart t t') eqn:C.
  - constructor; [|exact Hl]. simpl in *. split; [|exact Hc].
    unfold closeApart in C. now apply Z.ltb_lt in C.
  - constructor; [exact I|]. now constructor.
Qed.

Lemma chunkLast_cons (t t' : Z) (tl : list Z) : chunkLast (t, t' :: tl) = chunkLast (t', tl).
Proof.
  unfold chunkLast; simpl. destruct tl as [|x tl]; [reflexivity|].
  revert x. induction tl as [|y tl IH]; intros x; [reflexivity|].
  simpl in *. now rewrite <- IH.
Qed.

Lemma utterances_split (rest : list Z) (t : Z) :
  splitAtGaps (utterancesBy closeApart t rest).
Proof.
  revert t. induction rest as [|t' rest IH]; intros t; simpl; [exact I|].
  specialize (IH t'). destruct (utterancesBy_head closeApart rest t') as (tl & cs & E).
  rewrite E in *. destruct (closeApart t t') eqn:C.
  - destruct cs as [|c2 cs]; [exact I|]. simpl in *.
    destruct IH as [Hgap Hrest]. split; [|exact Hrest].
    unfold chunkItems; simpl. now rewrite chunkLast_cons.
  - simpl. split; [|exact IH].
    unfold closeApart in C. apply Z.ltb_ge in C. exact C.
Qed.

Lemma utterances_segmentation (ts : Timestamps) : Segmentation ts (utterances ts).
Proof.
  destruct ts as [t rest]. unfold Segmentation, utterances; simpl. split; [|split].
  - apply utterancesBy_items.
  - apply utterances_folded.
  - apply utterances_split.
Qed.

Lemma emittedFrom_last (name : string) (s : Z) (c c' : Chunk) (cs : list Chunk) :
  chunkLast c = chunkLast c' -> emittedFrom name s c cs = emittedFrom name s c' cs.
Proof. intros E. destruct cs; simpl; now rewrite E. Qed.

Lemma emitted_from (name : string) (cs : list Chunk) (c : Chunk) :
  emitted name (c :: cs) = emittedFrom name (chunkFirst c) c cs.
Proof.
  revert c. induction cs as [|c' cs IH]; intros c; [reflexivity|].
  cbn [emittedFrom]. rewrite <- (IH c'). unfold emitted, nonFinalFrames, finalFrame.
  change (removelast (c :: c' :: cs)) with (c :: removelast (c' :: cs)).
  change (last (c :: c' :: cs) (0, [])) with (last (c' :: cs) (0, [])).
  cbn [map filter]. unfold duration at 1. cbn [frameOf start end_].
  now destruct (chunkLast c - chunkFirst c >? 500).
Qed.

(** The loop of the source computes the segmentation under the elapsed-time
    test, whatever the order of the timestamps. *)
Lemma innerLoop_emitted (name : string) (rest : list Z) (s e : Z)
    (processed : list SpeakerTimeframe) :
  let '(s', e', processed') := innerLoop name s e rest processed in
  processed' ++ [mkTimeframe name s' e'] =
  processed ++ match utterancesBy closeElapsed e rest with
               | c :: cs => emittedFrom name s c cs
               | [] => []
               end.
Proof.
  revert s e processed. induction rest as [|t rest IH]; intros s e processed.
  - reflexivity.
  - cbn [innerLoop utterancesBy].
    destruct (utterancesBy_head closeElapsed rest t) as (tl & cs & E).
    change (t - e <? utteranceThresholdMs) with (closeElapsed e t).
    destruct (closeElapsed e t).
    + specialize (IH s t processed). rewrite E in *.
      destruct (innerLoop name s t rest processed) as [[s' e'] p'].
      rewrite IH. f_equal. apply emittedFrom_last.
      unfold chunkItems; cbn [fst snd]. symmetry. apply chunkLast_cons.
    + specialize (IH t t (if e - s >? 500
                          then processed ++ [mkTimeframe name s e] else processed)).
      rewrite E in *.
      destruct (innerLoop name t t rest _) as [[s' e'] p'].
      rewrite IH. cbn [emittedFrom chunkFirst fst]. unfold chunkLast at 1 2; cbn [last snd fst].
      destruct (e - s >? 500); [now rewrite <- app_assoc|reflexivity].
Qed.

Lemma processSpeaker_emitted (processed : list SpeakerTimeframe) (name : string)
    (ts : Timestamps) :
  processSpeaker processed (name, ts) =
  processed ++ emitted name (utterancesBy closeElapsed (fst ts) (snd ts)).
Proof.
  destruct ts as [t rest]. unfold processSpeaker. cbn [fst snd].
  pose proof (innerLoop_emitted name rest t t processed) as H.
  destruct (innerLoop name t t rest processed) as [[s' e'] p'].
  rewrite H. destruct (utterancesBy_head closeElapsed rest t) as (tl & cs & E).
  rewrite E. now rewrite emitted_from.
Qed.

Lemma fold_processSpeaker (m : ActivityMap) (processed : list SpeakerTimeframe) :
  fold_left processSpeaker m processed =
  processed ++ flat_map (fun e => emitted (fst e)
                                   (utterancesBy closeElapsed (fst (snd e)) (snd (snd e)))) m.
Proof.
  revert processed. induction m as [|[name ts] m IH]; intros processed;
    cbn [fold_left flat_map fst snd].
  - now rewrite app_nil_r.
  - rewrite IH, processSpeaker_emitted. now rewrite <- app_assoc.
Qed.

(** On recorded sequences the output holds the emitted frames of the
    segmentations in the words of the specification. *)
Lemma processed_recorded (m : ActivityMap) :
  recorded m ->
  fold_left processSpeaker m [] =
  flat_map (fun e => emitted (fst e) (utterances (snd e))) m.
Proof.
  intros Hrec. rewrite fold_processSpeaker. simpl.
  induction Hrec as [|[name [t rest]] m Hts Hm IH]; [reflexivity|].
  simpl. rewrite IH. unfold utterances at 1; cbn [fst snd].
  now rewrite (utterancesBy_recorded rest t Hts).
Qed.

Lemma output_perm (m : ActivityMap) :
  recorded m ->
  Permutation (getSpeakerTimeframes m)
    (flat_map (fun e => emitted (fst e) (utterances (snd e))) m).
Proof.
  intros Hrec. unfold getSpeakerTimeframes. rewrite (processed_recorded m Hrec).
  symmetry. apply sortBy_perm.
Qed.

Lemma finalFrame_name (name : string) (cs : list Chunk) :
  speakerName (finalFrame name cs) = name.
Proof. reflexivity. Qed.

Lemma nonFinalFrames_long (name : string) (cs : list Chunk) (f : SpeakerTimeframe) :
  In f (nonFinalFrames name cs) -> 500 < duration f /\ speakerName f = name.
Proof.
  unfold nonFinalFrames. rewrite filter_In, in_map_iff.
  intros [(c & <- & _) Hlong]. split; [lia|reflexivity].
Qed.

Example sampleActivity_timeframes :
  getSpeakerTimeframes sampleActivity =
  [ mkTimeframe "Ada" 0 2500; mkTimeframe "Bob" 500 3499;
    mkTimeframe "Bob" 9000 9000; mkTimeframe "Ada" 20000 20000 ].
Proof. reflexivity. Qed.

Lemma sampleActivity_recorded : recorded sampleActivity.
Proof. unfold recorded, sampleActivity, nondecreasing. repeat constructor; simpl; lia. Defined.

(** C2. For every stored activity map (sequences recorded in order), the
    output of [getSpeakerTimeframes] is made of the utterances of each
    speaker: the sequence is cut exactly at the gaps of 3000 ms or more, so
    that neighbours less than 3000 ms apart lie in one timeframe; it holds the
    emitted frames of all speakers, and it is ascending by (start, end). *)
Theorem getSpeakerTimeframes_folds_splits_sorts (m : ActivityMap) :
  recorded m ->
  Forall (fun e => Segmentation (snd e) (utterances (snd e))) m /\
  Permutation (getSpeakerTimeframes m)
    (flat_map (fun e => emitted (fst e) (utterances (snd e))) m) /\
  StronglySorted startEndLe (getSpeakerTimeframes m).
Proof.
  intros Hrec. split; [|split].
  - apply Forall_forall. intros e _. apply utterances_segmentation.
  - now apply output_perm.
  - apply sorted_startEnd.
Qed.

Lemma getSpeakerTimeframes_folds_splits_sorts_witness :
  recorded sampleActivity /\
  (Forall (fun e => Segmentation (snd e) (utterances (snd e))) sampleActivity /\
   Permutation (getSpeakerTimeframes sampleActivity)
     (flat_map (fun e => emitted (fst e) (utterances (snd e))) sampleActivity) /\
   StronglySorted startEndLe (getSpeakerTimeframes sampleActivity)).
Proof.
  split; [exact sampleActivity_recorded|].
  apply (getSpeakerTimeframes_folds_splits_sorts sampleActivity).
  exact sampleActivity_recorded.
Defined.

(** C9. In the output of [getSpeakerTimeframes] a timeframe of at most
    500 ms is the final segment of its speaker; a timeframe in the output that
    is not the final segment of its speaker is longer than 500 ms; and the
    final segment of every speaker is in the output, however short. *)
Theorem short_timeframes_are_final (m : ActivityMap) :
  recorded m ->
  (forall f, In f (getSpeakerTimeframes m) -> duration f <= 500 ->
     exists ts, In (speakerName f, ts) m /\
                f = finalFrame (speakerName f) (utterances ts)) /\
  (forall f, In f (getSpeakerTimeframes m) ->
     (forall ts, In (speakerName f, ts) m ->
                 f <> finalFrame (speakerName f) (utterances ts)) ->
     500 < duration f) /\
  (forall name ts, In (name, ts) m ->
     In (finalFrame name (utterances ts)) (getSpeakerTimeframes m)).
Proof.
  intros Hrec. pose proof (output_perm m Hrec) as P.
  assert (origin : forall f, In f (getSpeakerTimeframes m) ->
            500 < duration f \/
            exists ts, In (speakerName f, ts) m /\
                       f = finalFrame (speakerName f) (utterances ts)).
  { intros f Hin. apply (Permutation_in _ P) in Hin.
    apply in_flat_map in Hin. destruct Hin as ([name ts] & Hm & Hf).
    cbn [fst snd] in Hf. unfold emitted in Hf. apply in_app_or in Hf.
    destruct Hf as [Hf|[<-|[]]].
    - left. now apply nonFinalFrames_long in Hf.
    - right. exists ts. now rewrite finalFrame_name. }
  split; [|split].
  - intros f Hin Hshort. destruct (origin f Hin) as [Hlong|H]; [lia|exact H].
  - intros f Hin Hnot. destruct (origin f Hin) as [Hlong|(ts & Hm & E)]; [exact Hlong|].
    now elim (Hnot ts Hm).
  - intros name ts Hm. apply (Permutation_in _ (Permutation_sym P)).
    apply in_flat_map. exists (name, ts). split; [exact Hm|].
    cbn [fst snd]. unfold emitted. apply in_or_app. right. now left.
Qed.

Lemma short_timeframes_are_final_witness :
  recorded sampleActivity /\
  In (mkTimeframe "Bob" 9000 9000) (getSpeakerTimeframes sampleActivity) /\
  exists ts, In ("Bob"%string, ts) sampleActivity /\
             mkTimeframe "Bob" 9000 9000 = finalFrame "Bob" (utterances ts).
Proof.
  split; [exact sampleActivity_recorded|].
  assert (Hin : In (mkTimeframe "Bob" 9000 9000) (getSpeakerTimeframes sampleActivity)).
  { simpl. tauto. }
  split; [exact Hin|].
  apply (proj1 (short_timeframes_are_final sampleActivity sampleActivity_recorded)
           (mkTimeframe "Bob" 9000 9000) Hin).
  unfold duration; simpl. lia.
Defined.

End TimeframeFacts.

(* ================================================================== *)
(** * Part VIII.  Reasoning about runs                                 *)
(* ================================================================== *)

Module EffectFacts.
Import Effects Notions.
Local Open Scope bot_scope.

(** ** Relations that every step of a method maintains *)

Section Preserves.
Context {S : Type}.
Variable R : S * History -> S * History -> Prop.
Hypothesis R_refl : forall x, R x x.
Hypothesis R_trans : forall x y z, R x y -> R y z -> R x z.
Hypothesis R_call : forall s h c, R (s, h) (s, h ++ [c]).

Lemma preserves_ret {A} (a : A) : preserves R (ret a).
Proof. intros env s h. apply R_refl. Qed.

Lemma preserves_throw {A} (e : Error) : preserves R (@throw S A e).
Proof. intros env s h. apply R_refl. Qed.

Lemma preserves_never {A} : preserves R (@never S A).
Proof. intros env s h. apply R_refl. Qed.

Lemma preserves_gets {A} (f : S -> A) : preserves R (gets f).
Proof. intros env s h. apply R_refl. Qed.

Lemma preserves_modify (f : S -> S) :
  (forall s h, R (s, h) (f s, h)) -> preserves R (modify f).
Proof. intros H env s h. apply H. Qed.

Lemma preserves_note (c : Call) : preserves R (@note S c).
Proof. intros env s h. apply R_call. Qed.

Lemma preserves_log (msg : string) : preserves R (@log S msg).
Proof. apply preserves_note. Qed.

Lemma preserves_dateNow : preserves R (@dateNow S).
Proof. intros env s h. apply R_call. Qed.

Lemma preserves_perform (c : Call) : preserves R (@perform S c).
Proof. intros env s h. apply R_call. Qed.

Lemma preserves_askBool (c : Call) : preserves R (@askBool S c).
Proof. intros env s h. apply R_call. Qed.

Lemma preserves_askNumber (c : Call) : preserves R (@askNumber S c).
Proof. intros env s h. apply R_call. Qed.

Lemma preserves_askNames (c : Call) : preserves R (@askNames S c).
Proof. intros env s h. apply R_call. Qed.

Lemma preserves_bind {A B} (m : M S A) (k : A -> M S B) :
  preserves R m -> (forall a, preserves R (k a)) -> preserves R (bind m k).
Proof.
  intros Hm Hk env s h. specialize (Hm env s h). unfold bind, stateOf, historyOf in *.
  destruct (m env s h) as [[[a|e|] s'] h']; cbn in *; try exact Hm.
  eapply R_trans; [exact Hm|]. apply (Hk a env s' h').
Qed.

Lemma preserves_tryCatch {A} (m : M S A) (handler : Error -> M S A) :
  preserves R m -> (forall e, preserves R (handler e)) -> preserves R (tryCatch m handler).
Proof.
  intros Hm Hk env s h. specialize (Hm env s h). unfold tryCatch, stateOf, historyOf in *.
  destruct (m env s h) as [[[a|e|] s'] h']; cbn in *; try exact Hm.
  eapply R_trans; [exact Hm|]. apply (Hk e env s' h').
Qed.

Lemma preserves_detached {A} (m : M S A) : preserves R m -> preserves R (detached m).
Proof.
  intros Hm env s h. specialize (Hm env s h). unfold detached, stateOf, historyOf in *.
  now destruct (m env s h) as [[o s'] h'].
Qed.

Lemma preserves_env {A} (f : Env -> History -> M S A) :
  (forall env' h', preserves R (f env' h')) -> preserves R (fun env s h => f env h env s h).
Proof. intros H env s h. apply (H env h env s h). Qed.
End Preserves.

Lemma grown_refl {S} (x : S * History) : grown x x.
Proof. exists []. now rewrite app_nil_r. Qed.

Lemma grown_trans {S} (x y z : S * History) : grown x y -> grown y z -> grown x z.
Proof. intros [h1 E1] [h2 E2]. exists (h1 ++ h2). now rewrite E2, E1, app_assoc. Qed.

Lemma grown_call {S} (s : S) (h : History) (c : Call) : grown (s, h) (s, h ++ [c]).
Proof. now exists [c]. Qed.

Lemma grown_write {S} (s s' : S) (h : History) : grown (s, h) (s', h).
Proof. exists []. cbn. now rewrite app_nil_r. Qed.

Lemma kept_refl {S X} (f : S -> X) (x : S * History) : kept f x x.
Proof. reflexivity. Qed.

Lemma kept_trans {S X} (f : S -> X) (x y z : S * History) :
  kept f x y -> kept f y z -> kept f x z.
Proof. unfold kept. congruence. Qed.

Lemma kept_call {S X} (f : S -> X) (s : S) (h : History) (c : Call) :
  kept f (s, h) (s, h ++ [c]).
Proof. reflexivity. Qed.

(** Running a method as far as the answers of the environment are known. *)
Ltac run :=
  cbv beta iota zeta delta
    [bind tryCatch ret throw gets modify perform askBool askNumber askNames
     note log dateNow never detached stateOf outcomeOf historyOf fst snd].

(** Going through a method step by step: [refl], [trans] and [call] are the
    three facts about the relation, [on_modify] settles a write to a field. *)
Ltac preserves_steps refl trans call on_modify :=
  repeat first
    [ apply (preserves_ret _ refl)
    | apply (preserves_throw _ refl)
    | apply (preserves_never _ refl)
    | apply (preserves_gets _ refl)
    | apply (preserves_log _ call)
    | apply (preserves_note _ call)
    | apply (preserves_dateNow _ call)
    | apply (preserves_perform _ call)
    | apply (preserves_askBool _ call)
    | apply (preserves_askNumber _ call)
    | apply (preserves_askNames _ call)
    | apply (preserves_bind _ trans); [|intros ?]
    | apply (preserves_tryCatch _ trans); [|intros ?]
    | apply preserves_detached
    | apply preserves_modify; intros; on_modify
    | match goal with
      | |- preserves _ (match ?x with _ => _ end) => destruct x
      end ].

Ltac grows S :=
  preserves_steps (@grown_refl S) (@grown_trans S) (@grown_call S)
    ltac:(apply grown_write).

End EffectFacts.

(* ================================================================== *)
(** * Part IX.  Properties of the participant tracker                  *)
(* ================================================================== *)

Module TrackerFacts.
Import Effects Meet Notions.
Local Open Scope bot_scope.

(** What the join callback does, whatever the backend answers. *)
Lemma onParticipantJoin_run (env : Env) (p : Participant) (b : MeetsBot) (h : History) :
  onParticipantJoin p env b h =
  (match rejects env h (OnEvent PARTICIPANT_JOIN) with
   | None => Resolved tt
   | Some e => Rejected (Lib e)
   end,
   set_participants (participants b ++ [p]) b,
   h ++ [OnEvent PARTICIPANT_JOIN]).
Proof. reflexivity. Qed.

(** What the leave callback does: nothing when the report of the leave
    is rejected; otherwise the roster is filtered and the alone-start instant
    recomputed from the size that remains. *)
Lemma onParticipantLeave_run (env : Env) (p : Participant) (b : MeetsBot) (h : History) :
  onParticipantLeave p env b h =
  match rejects env h (OnEvent PARTICIPANT_LEAVE) with
  | Some e => (Rejected (Lib e), b, h ++ [OnEvent PARTICIPANT_LEAVE])
  | None =>
      let b' := set_participants (withoutId p (participants b)) b in
      if (rosterSize b' =? 1)%Z
      then (Resolved tt,
            set_timeAloneStarted
              (At (number env (h ++ [OnEvent PARTICIPANT_LEAVE]) DateNow)) b',
            (h ++ [OnEvent PARTICIPANT_LEAVE]) ++ [DateNow])
      else (Resolved tt, set_timeAloneStarted Infinity b',
            h ++ [OnEvent PARTICIPANT_LEAVE])
  end.
Proof.
  unfold onParticipantLeave, afterLeaveReport, bind, perform, modify, gets, dateNow,
    rosterSize.
  destruct (rejects env h (OnEvent PARTICIPANT_LEAVE)); [reflexivity|].
  cbn [participants set_participants].
  now destruct (Z.of_nat (List.length (withoutId p (participants b))) =? 1)%Z.
Qed.

Lemma withoutId_absent (p : Participant) (ps : list Participant) :
  ~ In (id p) (map id ps) -> withoutId p ps = ps.
Proof.
  induction ps as [|q ps IH]; intros H; [reflexivity|].
  simpl in *. destruct (String.eqb_spec (id q) (id p)) as [E|E].
  - elim H. now left.
  - simpl. rewrite IH; [reflexivity|]. intros Hin. apply H. now right.
Qed.

(** The turns are taken one by one. *)
Lemma runCallbacks_cons (env : Env) (t : Turn) (turns : list Turn)
    (b : MeetsBot) (h : History) :
  runCallbacks (t :: turns) env b h =
  runCallbacks turns env (stateOf (turn t env b h)) (historyOf (turn t env b h)).
Proof.
  cbn [runCallbacks]. unfold bind, detached, stateOf, historyOf.
  now destruct (turn t env b h) as [[o b'] h'].
Qed.

(** What the rest of the leave callback does once the report is back. *)
Lemma afterLeaveReport_run (env : Env) (p : Participant) (b : MeetsBot) (h : History) :
  afterLeaveReport p env b h =
  let b' := set_participants (withoutId p (participants b)) b in
  if (rosterSize b' =? 1)%Z
  then (Resolved tt, set_timeAloneStarted (At (number env h DateNow)) b', h ++ [DateNow])
  else (Resolved tt, set_timeAloneStarted Infinity b', h).
Proof.
  unfold afterLeaveReport, bind, modify, gets, dateNow, rosterSize.
  cbn [participants set_participants].
  now destruct (Z.of_nat (List.length (withoutId p (participants b))) =? 1)%Z.
Qed.

(** What a speaking call does: the clock is read twice; the push fails for a
    name that only [Object.prototype] defines. *)
Lemma registerParticipantSpeaking_run (env : Env) (p : Participant) (b : MeetsBot)
    (h : History) :
  registerParticipantSpeaking p env b h =
  let b1 := set_lastActivity (Some (number env h DateNow)) b in
  let stamp := number env (h ++ [DateNow]) DateNow - recordingStartedAt b in
  let h' := ((h ++ [DateNow]) ++ [DateNow]) ++ [Log "Participant is speaking"] in
  if pushMissing (name p) (registeredActivityTimestamps b)
  then (Rejected (JsError "TypeError: registeredActivityTimestamps[name].push is not a function"),
        b1, h')
  else (Resolved tt,
        set_registeredActivityTimestamps
          (pushTimestamp (name p) stamp (registeredActivityTimestamps b)) b1,
        h').
Proof.
  unfold registerParticipantSpeaking, bind, dateNow, modify, gets, log, note, throw.
  cbn [registeredActivityTimestamps set_lastActivity recordingStartedAt].
  now destruct (pushMissing (name p) (registeredActivityTimestamps b)).
Qed.

(** ** C4: joining twice, leaving when absent *)

Example duplicate_join_grows :
  map id (participants (stateOf (runCallbacks [Called (Joined ada); Called (Joined ada)]
                                    (quietEnv 0) aloneSince100 []))) =
  ["id-bot"; "id-ada"; "id-ada"]%string.
Proof. reflexivity. Qed.

Example absent_leave_restamps :
  timeAloneStarted (stateOf (onParticipantLeave bob (quietEnv 777) aloneSince100 [])) = At 777.
Proof. reflexivity. Qed.




(** ** C3: when the alone-start instant is written *)

Example join_while_alone_keeps_instant :
  let b' := stateOf (onParticipantJoin ada (quietEnv 5000) aloneSince100 []) in
  rosterSize aloneSince100 = 1 /\ rosterSize b' = 2 /\ timeAloneStarted b' = At 100.
Proof. repeat split. Qed.

(** C3, refuted as stated: Ada joins while the bot is alone since instant
    100; the roster goes from one entry to two and the instant stays set. *)
Lemma aloneStartFollowsTransitions_counterexample : ~ aloneStartFollowsTransitions.
Proof.
  intros H.
  destruct (H (quietEnv 5000) (Joined ada) aloneSince100 []) as (_ & Hclear & _).
  assert (E : timeAloneStarted
                (stateOf (pageCallback (Joined ada) (quietEnv 5000) aloneSince100 []))
              = Infinity).
  { apply Hclear. split; [reflexivity|]. vm_compute. reflexivity. }
  vm_compute in E. discriminate E.
Qed.

Lemma registerParticipantSpeaking_instant (env : Env) (p : Participant) (b : MeetsBot)
    (h : History) :
  timeAloneStarted (stateOf (registerParticipantSpeaking p env b h)) = timeAloneStarted b /\
  participants (stateOf (registerParticipantSpeaking p env b h)) = participants b.
Proof.
  rewrite registerParticipantSpeaking_run. cbv zeta.
  destruct (pushMissing _ _); split; reflexivity.
Qed.

End TrackerFacts.

(* ================================================================== *)
(** * Part X.  Properties of the Teams bot                             *)
(* ================================================================== *)

Module TeamsFacts.
Import Effects EffectFacts Teams Notions.
Local Open Scope bot_scope.

Ltac keeps f :=
  preserves_steps (@kept_refl TeamsBot _ f) (@kept_trans TeamsBot _ f)
    (@kept_call TeamsBot _ f) ltac:(reflexivity).

Lemma stopRecording_keeps_instant : preserves (kept timeAloneStarted) stopRecording.
Proof. unfold stopRecording. keeps timeAloneStarted. Qed.

Lemma endLife_keeps_instant : preserves (kept timeAloneStarted) endLife.
Proof.
  unfold endLife, onPage, requirePage. keeps timeAloneStarted.
  all: try apply stopRecording_keeps_instant.
Qed.

Lemma aloneCheck_keeps_instant : preserves (kept timeAloneStarted) aloneCheck.
Proof.
  unfold aloneCheck, leave, onPage, requirePage. keeps timeAloneStarted.
  all: try apply endLife_keeps_instant.
Qed.

Lemma aloneCheck_keeps_roster : preserves (kept participants) aloneCheck.
Proof.
  unfold aloneCheck, leave, endLife, stopRecording, onPage, requirePage.
  keeps participants.
Qed.

(** What a roster poll does to the alone-start instant: cleared when the
    page shows more than one participant, set when it is clear and the page
    shows at most one, left as it is when the page cannot be read. *)
Lemma updateParticipants_instant (env : Env) (b : TeamsBot) (h : History) :
  let b' := stateOf (updateParticipants env b h) in
  match page b, rejects env h EvaluateParticipants with
  | Some _, None =>
      participants b' = names env h EvaluateParticipants /\
      timeAloneStarted b' =
      (if (Z.of_nat (List.length (names env h EvaluateParticipants)) >? 1)%Z
       then Infinity
       else match timeAloneStarted b with
            | Infinity => At (number env (h ++ [EvaluateParticipants]) DateNow)
            | At t => At t
            end)
  | _, _ => timeAloneStarted b' = timeAloneStarted b
  end.
Proof.
  unfold updateParticipants, requirePage. run.
  destruct (page b) eqn:Hpage; run; [|reflexivity].
  destruct (rejects env h EvaluateParticipants); [reflexivity|].
  cbn [participants set_participants timeAloneStarted].
  set (ns := names env h EvaluateParticipants).
  destruct (Z.of_nat (List.length ns) >? 1)%Z.
  - match goal with |- context [aloneCheck env ?s ?hh] =>
      pose proof (aloneCheck_keeps_instant env s hh) as Ki;
      pose proof (aloneCheck_keeps_roster env s hh) as Kr;
      unfold kept, stateOf in Ki, Kr;
      destruct (aloneCheck env s hh) as [[o s'] h'] end.
    cbn in *. now rewrite Ki, Kr.
  - destruct (timeAloneStarted b) eqn:Hsince.
    + match goal with |- context [aloneCheck env ?s ?hh] =>
        pose proof (aloneCheck_keeps_instant env s hh) as Ki;
        pose proof (aloneCheck_keeps_roster env s hh) as Kr;
        unfold kept, stateOf in Ki, Kr;
        destruct (aloneCheck env s hh) as [[o s'] h'] end.
      cbn in *. now rewrite Ki, Kr.
    + match goal with |- context [aloneCheck env ?s ?hh] =>
        pose proof (aloneCheck_keeps_instant env s hh) as Ki;
        pose proof (aloneCheck_keeps_roster env s hh) as Kr;
        unfold kept, stateOf in Ki, Kr;
        destruct (aloneCheck env s hh) as [[o s'] h'] end.
      cbn in *. now rewrite Ki, Kr.
Qed.

End TeamsFacts.

Module AloneStartFacts.
Import Effects Notions.

(** C3, amended. On Meet the alone-start instant is written by the leave
    callback only: once the leave is reported it removes the id and sets the
    instant to the current time when exactly one entry remains (so at every
    transition from more than one entry to exactly one) and clears it
    otherwise; the join callback and the speaking callback never write it, so
    a join while alone leaves it set until the next leave. On Teams every
    roster poll clears the instant when the page shows more than one
    participant and sets it, when it is clear, to the current time when the
    page shows at most one. *)
Theorem alone_start_written_by_leave_and_poll (env : Env) (p : Participant)
    (b : Meet.MeetsBot) (tb : Teams.TeamsBot) (h : History) :
  Meet.timeAloneStarted (stateOf (Meet.onParticipantJoin p env b h))
  = Meet.timeAloneStarted b /\
  Meet.timeAloneStarted (stateOf (Meet.registerParticipantSpeaking p env b h))
  = Meet.timeAloneStarted b /\
  (let b' := stateOf (Meet.onParticipantLeave p env b h) in
   match rejects env h (OnEvent PARTICIPANT_LEAVE) with
   | Some _ => b' = b
   | None =>
       Meet.participants b' = Meet.withoutId p (Meet.participants b) /\
       Meet.timeAloneStarted b' =
       (if Notions.rosterSize b' =? 1
        then At (number env (h ++ [OnEvent PARTICIPANT_LEAVE]) DateNow)
        else Infinity)
   end) /\
  (let tb' := stateOf (Teams.updateParticipants env tb h) in
   match Teams.page tb, rejects env h EvaluateParticipants with
   | Some _, None =>
       Teams.participants tb' = names env h EvaluateParticipants /\
       Teams.timeAloneStarted tb' =
       (if Z.of_nat (List.length (names env h EvaluateParticipants)) >? 1
        then Infinity
        else match Teams.timeAloneStarted tb with
             | Infinity => At (number env (h ++ [EvaluateParticipants]) DateNow)
             | At t => At t
             end)
   | _, _ => Teams.timeAloneStarted tb' = Teams.timeAloneStarted tb
   end).
Proof.
  split; [reflexivity|].
  split; [apply (proj1 (TrackerFacts.registerParticipantSpeaking_instant env p b h))|].
  split.
  - cbv zeta. rewrite TrackerFacts.onParticipantLeave_run.
    destruct (rejects env h (OnEvent PARTICIPANT_LEAVE)); [reflexivity|].
    cbv zeta.
    destruct (Notions.rosterSize
                (Meet.set_participants (Meet.withoutId p (Meet.participants b)) b) =? 1)
      eqn:E; unfold stateOf; cbn [fst snd]; (split; [reflexivity|]).
    + unfold Notions.rosterSize in *. cbn in *. now rewrite E.
    + unfold Notions.rosterSize in *. cbn in *. now rewrite E.
  - apply TeamsFacts.updateParticipants_instant.
Qed.

End AloneStartFacts.

(* ================================================================== *)
(** * Part XI.  Properties of the capture pipeline                     *)
(* ================================================================== *)

Module RecorderFacts.
Import Effects EffectFacts Meet Notions.
Local Open Scope bot_scope.

Lemma awaitEncoder_outcome (evs : list ProcEvent) (env : Env) (b : MeetsBot) (h : History) :
  outcomeOf (awaitEncoder evs env b h) = statusAfterInterrupt evs.
Proof.
  revert b h. induction evs as [|ev evs IH]; intros b h; [reflexivity|].
  destruct ev as [|code signal|].
  - cbn [awaitEncoder]. unfold statusAfterInterrupt; cbn [firstSettling].
    fold (statusAfterInterrupt evs). unfold onStderrData. run.
    destruct (startedRecording b); run; apply IH.
  - cbn [awaitEncoder]. unfold statusAfterInterrupt; cbn [firstSettling]. run.
    destruct code as [[|c|c]|]; reflexivity.
  - reflexivity.
Qed.

(** The encoder handle after the wait: cleared by the exit listener of
    [startRecording], kept when the encoder only reports an error. *)
Lemma awaitEncoder_handle (evs : list ProcEvent) (env : Env) (b : MeetsBot) (h : History) :
  ffmpegProcess (stateOf (awaitEncoder evs env b h)) =
  match firstSettling evs with
  | Some (ExitEvent _ _) => None
  | _ => ffmpegProcess b
  end.
Proof.
  revert b h. induction evs as [|ev evs IH]; intros b h; [reflexivity|].
  destruct ev as [|code signal|].
  - cbn [awaitEncoder firstSettling]. unfold onStderrData. run.
    destruct (startedRecording b); run;
      match goal with |- context [awaitEncoder evs env ?b' ?h'] =>
        exact (IH b' h') end.
  - cbn [awaitEncoder firstSettling]. run. destruct code as [[|c|c]|]; reflexivity.
  - reflexivity.
Qed.

(** C6. [stopRecording] never rejects. With no encoder it resolves with 1
    at once: nothing is signalled and nothing is waited for. With an encoder
    it sends the interrupt and resolves with 0 when the encoder exits with
    code 0, with 1 when it exits otherwise or reports an error; it stays
    pending only as long as the encoder has done neither. *)
Theorem stopRecording_resolves_with_status (env : Env) (b : MeetsBot) (h : History) :
  (forall e, outcomeOf (stopRecording env b h) <> Rejected e) /\
  match ffmpegProcess b with
  | None =>
      stopRecording env b h =
      (Resolved 1, b,
       (h ++ [Log "Attempting to stop the recording ..."])
         ++ [Log "No recording in progress, cannot end recording."])
  | Some _ =>
      outcomeOf (stopRecording env b h)
      = statusAfterInterrupt (encoderEvents env (interrupted h)) /\
      exists rest, historyOf (stopRecording env b h) = interrupted h ++ rest
  end.
Proof.
  assert (Hrun : match ffmpegProcess b with
                 | None =>
                     stopRecording env b h =
                     (Resolved 1, b,
                      (h ++ [Log "Attempting to stop the recording ..."])
                        ++ [Log "No recording in progress, cannot end recording."])
                 | Some _ =>
                     stopRecording env b h =
                     awaitEncoder (encoderEvents env (interrupted h)) env b (interrupted h)
                 end).
  { unfold stopRecording. run. now destruct (ffmpegProcess b). }
  destruct (ffmpegProcess b) as [p|].
  - rewrite Hrun. split; [|split].
    + intros e. rewrite awaitEncoder_outcome. unfold statusAfterInterrupt.
      destruct (firstSettling _) as [[|[[|c|c]|] sg|]|]; discriminate.
    + apply awaitEncoder_outcome.
    + assert (G : preserves grown (awaitEncoder (encoderEvents env (interrupted h)))).
      { generalize (encoderEvents env (interrupted h)). intros evs.
        induction evs as [|[|code sg|] evs IH]; cbn [awaitEncoder]; unfold onStderrData;
          grows MeetsBot; exact IH. }
      destruct (G env b (interrupted h)) as [rest E]. now exists rest.
  - rewrite Hrun. split; [intros e; discriminate|reflexivity].
Qed.

(** ** C7: starting twice *)

(** Meet: with an encoder running, [startRecording] writes no field and
    spawns nothing. *)
Lemma Meet_startRecording_running (env : Env) (b : MeetsBot) (h : History) (p : Handle) :
  ffmpegProcess b = Some p ->
  stateOf (startRecording env b h) = b /\
  exists added, historyOf (startRecording env b h) = h ++ added /\
                Forall harmless added /\ ~ In Spawn added.
Proof.
  intros Hrunning. unfold startRecording, getRecordingPath. run.
  destruct (rejects env h ExistsRecordingDir).
  { split; [reflexivity|]. exists [ExistsRecordingDir].
    repeat split; [repeat constructor|]. intros [H|[]]; discriminate H. }
  destruct (flag env h ExistsRecordingDir); run.
  - rewrite Hrunning. split; [reflexivity|]. eexists. split.
    + rewrite <- !app_assoc. reflexivity.
    + split; [repeat constructor|]. cbn. intuition discriminate.
  - destruct (rejects env (h ++ [ExistsRecordingDir]) MkdirRecordingDir).
    + split; [reflexivity|]. eexists. split.
      * rewrite <- !app_assoc. reflexivity.
      * split; [repeat constructor|]. cbn. intuition discriminate.
    + rewrite Hrunning. split; [reflexivity|]. eexists. split.
      * rewrite <- !app_assoc. reflexivity.
      * split; [repeat constructor|]. cbn. intuition discriminate.
Qed.

(** Zoom and Teams: [startRecording] has no such guard; with the page open
    it asks for a capture stream first thing, whatever [stream] holds. *)
Lemma Zoom_startRecording_asks_stream (env : Env) (b : Zoom.ZoomBot) (h : History)
    (p : Handle) :
  Zoom.page b = Some p ->
  exists rest, historyOf (Zoom.startRecording env b h) = h ++ GetStream :: rest.
Proof.
  intros Hpage. unfold Zoom.startRecording. run. rewrite Hpage.
  destruct (rejects env h GetStream); [now exists []|].
  destruct (rejects env (h ++ [GetStream]) CreateWriteStream); eexists;
    rewrite <- !app_assoc; reflexivity.
Qed.

Lemma Teams_startRecording_asks_stream (env : Env) (b : Teams.TeamsBot) (h : History)
    (p : Handle) :
  Teams.page b = Some p ->
  exists rest, historyOf (Teams.startRecording env b h) = h ++ GetStream :: rest.
Proof.
  intros Hpage. unfold Teams.startRecording. run. rewrite Hpage.
  destruct (rejects env h GetStream); [now exists []|].
  destruct (rejects env (h ++ [GetStream]) CreateWriteStream); eexists;
    rewrite <- !app_assoc; reflexivity.
Qed.

(** C7, on the Zoom bot: a second [startRecording] while the first capture
    runs asks for a second capture stream and opens the recording file a
    second time. *)
Theorem Zoom_startRecording_twice_opens_two_streams :
  historyOf ((Zoom.startRecording ;; Zoom.startRecording) (quietEnv 0) zoomJoined [])
  = [GetStream; CreateWriteStream; Pipe; GetStream; CreateWriteStream; Pipe].
Proof. reflexivity. Qed.

End RecorderFacts.

(* ================================================================== *)
(** * Part XII.  Properties of the cleanup                             *)
(* ================================================================== *)

Module CleanupFacts.
Import Effects EffectFacts Notions.
Local Open Scope bot_scope.

(** Meet, nothing launched and nothing started: [endLife] resolves and
    touches nothing. *)
Lemma Meet_endLife_uninitialised (env : Env) (b : Meet.MeetsBot) (h : History) :
  Meet.browser b = None -> Meet.ffmpegProcess b = None ->
  Meet.endLife env b h = (Resolved tt, b, cleanupLog h).
Proof.
  intros Hb Hf. unfold Meet.endLife, Meet.stopRecording. run. now rewrite Hf, Hb.
Qed.

(** Meet, browser launched and no encoder: every [endLife] closes the
    browser, keeps the handle, and rejects when closing does. *)
Lemma Meet_endLife_closes (env : Env) (b : Meet.MeetsBot) (h : History) (p : Handle) :
  Meet.browser b = Some p -> Meet.ffmpegProcess b = None ->
  Meet.endLife env b h =
  match rejects env (cleanupLog h) BrowserClose with
  | None => (Resolved tt, b, (cleanupLog h ++ [BrowserClose]) ++ [Log "Closed Browser."])
  | Some e => (Rejected (Lib e), b, cleanupLog h ++ [BrowserClose])
  end.
Proof.
  intros Hb Hf. unfold Meet.endLife, Meet.stopRecording, cleanupLog. run.
  rewrite Hf, Hb.
  match goal with |- context [rejects env ?hh BrowserClose] =>
    now destruct (rejects env hh BrowserClose) end.
Qed.

(** Meet: a second [endLife] after a completed first one closes the browser
    a second time. *)
Lemma Meet_endLife_again (env : Env) (b : Meet.MeetsBot) (h : History) (p : Handle) :
  Meet.browser b = Some p -> Meet.ffmpegProcess b = None ->
  outcomeOf (Meet.endLife env b h) = Resolved tt ->
  exists h1 rest,
    historyOf (Meet.endLife env b h) = h1 /\
    In BrowserClose (skipn (List.length h) h1) /\
    historyOf ((Meet.endLife ;; Meet.endLife) env b h)
    = cleanupLog h1 ++ BrowserClose :: rest.
Proof.
  intros Hb Hf Hok. pose proof (Meet_endLife_closes env b h p Hb Hf) as R1.
  destruct (rejects env (cleanupLog h) BrowserClose) eqn:E.
  { rewrite R1 in Hok. discriminate Hok. }
  unfold bind. rewrite R1.
  pose proof (Meet_endLife_closes env b
                ((cleanupLog h ++ [BrowserClose]) ++ [Log "Closed Browser."]) p Hb Hf) as R2.
  rewrite R2. unfold historyOf.
  exists ((cleanupLog h ++ [BrowserClose]) ++ [Log "Closed Browser."]).
  assert (Hin : In BrowserClose
                  (skipn (List.length h)
                     ((cleanupLog h ++ [BrowserClose]) ++ [Log "Closed Browser."]))).
  { unfold cleanupLog. rewrite <- !app_assoc. rewrite skipn_app, skipn_all.
    rewrite Nat.sub_diag. cbn. tauto. }
  clear E R1 R2.
  destruct (rejects env _ BrowserClose).
  - exists []. cbn [snd]. now repeat split.
  - exists [Log "Closed Browser."]. cbn [snd]. split; [reflexivity|].
    split; [exact Hin|now rewrite <- app_assoc].
Qed.

(** C8, on the Meet bot: [endLife] invoked twice with the browser launched
    closes the browser twice. *)
Theorem Meet_endLife_twice_closes_browser_twice :
  historyOf ((Meet.endLife ;; Meet.endLife) (quietEnv 0) meetLaunched [])
  = [ Log "Stopping Recording ..."; Log "Attempting to stop the recording ...";
      Log "No recording in progress, cannot end recording."; Log "Done.";
      BrowserClose; Log "Closed Browser.";
      Log "Stopping Recording ..."; Log "Attempting to stop the recording ...";
      Log "No recording in progress, cannot end recording."; Log "Done.";
      BrowserClose; Log "Closed Browser." ].
Proof. reflexivity. Qed.

Example Meet_endLife_rejects_when_close_fails :
  outcomeOf (Meet.endLife closeFails meetLaunched [])
  = Rejected (Lib (OtherError "Target closed")).
Proof. reflexivity. Qed.

(** Teams: the [ended] flag makes the second [endLife] do nothing. *)
Lemma Teams_endLife_sets_ended (env : Env) (b : Teams.TeamsBot) (h : History) :
  Teams.ended (stateOf (Teams.endLife env b h)) = true.
Proof.
  unfold Teams.endLife at 1. run. destruct (Teams.ended b) eqn:E; [exact E|].
  assert (K : preserves (kept Teams.ended)
                (tryCatch (Teams.onPage (Click leaveButtonSelector None)) (fun _ => ret tt) ;;
                 f <- gets Teams.file ;;
                 match f with
                 | Some _ => note FileClose ;; modify (Teams.set_file None)
                 | None => ret tt
                 end ;;
                 note ClearInterval ;; note ClearInterval ;;
                 log "Stopping Recording ..." ;; Teams.stopRecording ;; log "Done." ;;
                 b0 <- gets Teams.browser ;;
                 match b0 with
                 | Some _ => perform BrowserClose ;; log "Closed Browser."
                 | None => ret tt
                 end)).
  { unfold Teams.onPage, Teams.requirePage, Teams.stopRecording.
    preserves_steps (@kept_refl Teams.TeamsBot _ Teams.ended)
      (@kept_trans Teams.TeamsBot _ Teams.ended)
      (@kept_call Teams.TeamsBot _ Teams.ended) ltac:(reflexivity). }
  exact (K env (Teams.set_ended true b) h).
Qed.

Lemma Teams_endLife_ended (env : Env) (b : Teams.TeamsBot) (h : History) :
  Teams.ended b = true -> Teams.endLife env b h = (Resolved tt, b, h).
Proof. intros E. unfold Teams.endLife. run. now rewrite E. Qed.

Lemma Teams_endLife_twice (env : Env) (b : Teams.TeamsBot) (h : History) :
  outcomeOf (Teams.endLife env b h) = Resolved tt ->
  (Teams.endLife ;; Teams.endLife) env b h = Teams.endLife env b h.
Proof.
  intros Hok. unfold bind. pose proof (Teams_endLife_sets_ended env b h) as E.
  destruct (Teams.endLife env b h) as [[o b'] h'] eqn:R. cbn in *. subst o.
  now apply Teams_endLife_ended.
Qed.

End CleanupFacts.

(* ================================================================== *)
(** * Part XIII.  Properties of the join procedure                    *)
(* ================================================================== *)

Module JoinFacts.
Import Effects EffectFacts Notions.
Local Open Scope bot_scope.

(** ** Methods that never reject with [WaitingRoomTimeoutError] *)

Section Generic.
Context {S : Type}.














End Generic.


(** The run of [m ;; k] in terms of the run of [m]. *)
Lemma bind_run {S A B} (m : M S A) (k : A -> M S B) (env : Env) (s : S) (h : History) :
  bind m k env s h =
  match outcomeOf (m env s h) with
  | Resolved a => k a env (stateOf (m env s h)) (historyOf (m env s h))
  | Rejected e => (Rejected e, stateOf (m env s h), historyOf (m env s h))
  | Pending => (Pending, stateOf (m env s h), historyOf (m env s h))
  end.
Proof.
  unfold bind, outcomeOf, stateOf, historyOf.
  now destruct (m env s h) as [[[a|e|] s'] h'].
Qed.

(** ** Meet *)


Lemma Meet_launchBrowser_page (env : Env) (b : Meet.MeetsBot) (h : History) :
  outcomeOf (Meet.launchBrowser env b h) = Resolved tt ->
  Meet.page (stateOf (Meet.launchBrowser env b h)) = Some handle /\
  Meet.settings (stateOf (Meet.launchBrowser env b h)) = Meet.settings b.
Proof.
  unfold Meet.launchBrowser. run.
  destruct (rejects env h ChromiumLaunch); [discriminate|].
  destruct (rejects env _ NewContext); [discriminate|].
  destruct (rejects env _ NewPage); [discriminate|]. now split.
Qed.

(** After the prelude the page is set and the settings are as they were. *)
Lemma Meet_prelude_page (env : Env) (b : Meet.MeetsBot) (h : History) :
  outcomeOf (Meet.joinUntilEntryClick env b h) = Resolved tt ->
  Meet.page (stateOf (Meet.joinUntilEntryClick env b h)) = Some handle /\
  Meet.settings (stateOf (Meet.joinUntilEntryClick env b h)) = Meet.settings b.
Proof.
  unfold Meet.joinUntilEntryClick. rewrite bind_run.
  pose proof (Meet_launchBrowser_page env b h) as L.
  destruct (outcomeOf (Meet.launchBrowser env b h)) as [[]|e|]; try discriminate.
  destruct (L eq_refl) as [Lp Ls]. intros _.
  match goal with |- context [stateOf (?rest env ?s ?hh)] =>
    assert (Kp : preserves (kept Meet.page) rest);
    [|assert (Ks : preserves (kept Meet.settings) rest)] end.
  - unfold Meet.onPage, Meet.requirePage.
    preserves_steps (@kept_refl Meet.MeetsBot _ Meet.page)
      (@kept_trans Meet.MeetsBot _ Meet.page)
      (@kept_call Meet.MeetsBot _ Meet.page) ltac:(reflexivity).
  - unfold Meet.onPage, Meet.requirePage.
    preserves_steps (@kept_refl Meet.MeetsBot _ Meet.settings)
      (@kept_trans Meet.MeetsBot _ Meet.settings)
      (@kept_call Meet.MeetsBot _ Meet.settings) ltac:(reflexivity).
  - split.
    + rewrite <- Lp. apply (Kp env _ _).
    + rewrite <- Ls. apply (Ks env _ _).
Qed.

Lemma Meet_awaitEntry_run (env : Env) (b : Meet.MeetsBot) (h : History) (p : Handle) :
  Meet.page b = Some p ->
  let hw := h ++ [Log "Awaiting Entry ...."] in
  Meet.awaitEntry env b h =
  match rejects env hw (meetWait b) with
  | Some _ => (Rejected WaitingRoomTimeoutError, b, hw ++ [meetWait b])
  | None =>
      let hj := (hw ++ [meetWait b]) ++ [Log "Joined Call."] in
      (match rejects env hj (OnEvent JOINING_CALL) with
       | None => Resolved 0
       | Some e => Rejected (Lib e)
       end, b, hj ++ [OnEvent JOINING_CALL])
  end.
Proof.
  intros Hp. unfold Meet.awaitEntry, Meet.onPage, Meet.requirePage, meetWait. run.
  rewrite Hp. destruct (rejects env _ (WaitForSelector _ _)); [reflexivity|].
  now destruct (rejects env _ (OnEvent JOINING_CALL)).
Qed.

(** ** Teams *)







Example Meet_join_page_crash :
  outcomeOf (Meet.joinMeeting pageCrashes (Meet.newMeetsBot Notions.sampleSettings) [])
  = Rejected WaitingRoomTimeoutError.
Proof. reflexivity. Qed.




End JoinFacts.

(* ================================================================== *)
(** * Part XIV.  Properties of the termination loop and of the exit    *)
(* ================================================================== *)

Module LoopFacts.
Import Effects EffectFacts Meet Notions.
Local Open Scope bot_scope.

(** The probes and the checks only read the bot. *)
Lemma checkKicked_reads (env : Env) (b : MeetsBot) (h : History) :
  stateOf (checkKicked env b h) = b.
Proof.
  assert (K : preserves (kept (fun s : MeetsBot => s)) checkKicked).
  { unfold checkKicked, requirePage.
    preserves_steps (@kept_refl MeetsBot _ (fun s : MeetsBot => s))
      (@kept_trans MeetsBot _ (fun s : MeetsBot => s))
      (@kept_call MeetsBot _ (fun s : MeetsBot => s)) ltac:(reflexivity). }
  exact (K env b h).
Qed.

Lemma aloneTimedOut_reads (env : Env) (b : MeetsBot) (h : History) :
  stateOf (aloneTimedOut env b h) = b.
Proof.
  assert (K : preserves (kept (fun s : MeetsBot => s)) aloneTimedOut).
  { unfold aloneTimedOut.
    preserves_steps (@kept_refl MeetsBot _ (fun s : MeetsBot => s))
      (@kept_trans MeetsBot _ (fun s : MeetsBot => s))
      (@kept_call MeetsBot _ (fun s : MeetsBot => s)) ltac:(reflexivity). }
  exact (K env b h).
Qed.

(** What one pass of the loop does, by the answer of its first two checks. *)
Lemma loopIteration_alone (env : Env) (b : MeetsBot) (h : History) :
  outcomeOf (aloneTimedOut env b h) = Resolved true ->
  loopIteration env b h =
  (Resolved (Some OnlyMeLeft), b, historyOf (aloneTimedOut env b h)).
Proof.
  intros Ha. unfold loopIteration. rewrite JoinFacts.bind_run, Ha.
  now rewrite aloneTimedOut_reads.
Qed.

Lemma loopIteration_kicked (env : Env) (b : MeetsBot) (h : History) :
  outcomeOf (aloneTimedOut env b h) = Resolved false ->
  outcomeOf (checkKicked env b (historyOf (aloneTimedOut env b h))) = Resolved true ->
  loopIteration env b h =
  (Resolved (Some GotKicked), set_kicked true b,
   historyOf (checkKicked env b (historyOf (aloneTimedOut env b h)))
     ++ [Log "Detected that we were kicked from the meeting."]).
Proof.
  intros Ha Hk. unfold loopIteration. rewrite JoinFacts.bind_run, Ha.
  rewrite aloneTimedOut_reads. rewrite JoinFacts.bind_run, Hk.
  now rewrite checkKicked_reads.
Qed.

(** ** C5: the order of the checks in one pass *)

Example kicked_and_alone_pass :
  loopIteration kickedLate aloneInMeeting [] =
  (Resolved (Some OnlyMeLeft), aloneInMeeting,
   [ DateNow;
     Log "Only me left in the meeting. Waiting for timeout time to have allocated ...";
     Log "Only one participant remaining for more than alocated time, leaving the meeting." ]).
Proof. reflexivity. Qed.

(** C5, refuted as stated: the bot is alone for longer than the timeout and
    the page shows the forced-return button; the pass leaves the loop for the
    alone timeout, before any probe, and [kicked] stays [false]. *)
Lemma kickedTakesPrecedence_counterexample : ~ kickedTakesPrecedence.
Proof.
  intros H. specialize (H kickedLate aloneInMeeting []).
  assert (Hk : forall h', outcomeOf (checkKicked kickedLate aloneInMeeting h')
                          = Resolved true) by reflexivity.
  specialize (H Hk (or_introl eq_refl)). vm_compute in H. discriminate H.
Qed.

(** C5, amended. In a pass in which the alone timeout holds, the loop is
    left for the alone timeout, whatever the probes of the kick would report:
    they are not run and [kicked] is not written. In a pass in which the
    alone timeout does not hold and the probes report the kick, the loop is
    left as kicked and [kicked] is set, whatever the inactivity check would
    answer: it is not run. *)
Theorem alone_timeout_then_kicked_then_inactivity (env : Env) (b : MeetsBot) (h : History) :
  (outcomeOf (aloneTimedOut env b h) = Resolved true ->
   (forall h', outcomeOf (checkKicked env b h') = Resolved true) ->
   outcomeOf (loopIteration env b h) = Resolved (Some OnlyMeLeft) /\
   stateOf (loopIteration env b h) = b /\
   historyOf (loopIteration env b h) = historyOf (aloneTimedOut env b h)) /\
  (outcomeOf (aloneTimedOut env b h) = Resolved false ->
   outcomeOf (checkKicked env b (historyOf (aloneTimedOut env b h))) = Resolved true ->
   (forall h', outcomeOf (noActivity env b h') = Resolved true) ->
   outcomeOf (loopIteration env b h) = Resolved (Some GotKicked) /\
   stateOf (loopIteration env b h) = set_kicked true b /\
   historyOf (loopIteration env b h) =
   historyOf (checkKicked env b (historyOf (aloneTimedOut env b h)))
     ++ [Log "Detected that we were kicked from the meeting."]).
Proof.
  split.
  - intros Ha _. now rewrite (loopIteration_alone env b h Ha).
  - intros Ha Hk _. now rewrite (loopIteration_kicked env b h Ha Hk).
Qed.

Lemma alone_timeout_then_kicked_then_inactivity_witness :
  outcomeOf (loopIteration kickedLate aloneInMeeting []) = Resolved (Some OnlyMeLeft) /\
  kicked (stateOf (loopIteration kickedLate aloneInMeeting [])) = false /\
  outcomeOf (loopIteration kickedLate silentWithAda []) = Resolved (Some GotKicked) /\
  kicked (stateOf (loopIteration kickedLate silentWithAda [])) = true.
Proof.
  destruct (alone_timeout_then_kicked_then_inactivity kickedLate aloneInMeeting [])
    as [Halone _].
  destruct (alone_timeout_then_kicked_then_inactivity kickedLate silentWithAda [])
    as [_ Hkicked].
  destruct (Halone eq_refl (fun _ => eq_refl)) as (A1 & A2 & _).
  destruct (Hkicked eq_refl eq_refl (fun _ => eq_refl)) as (K1 & K2 & _).
  split; [exact A1|]. split; [now rewrite A2|].
  split; [exact K1|now rewrite K2].
Defined.

(** ** C1: leaving after a kick *)

Lemma awaitEncoder_grows (evs : list ProcEvent) : preserves grown (awaitEncoder evs).
Proof.
  induction evs as [|[|code sg|] evs IH]; cbn [awaitEncoder]; unfold onStderrData;
    grows MeetsBot; exact IH.
Qed.

Lemma endLife_grows : preserves grown endLife.
Proof.
  unfold endLife, stopRecording. grows MeetsBot.
  intros env0 s0 h0. exact (awaitEncoder_grows (encoderEvents env0 h0) env0 s0 h0).
Qed.

(** Whatever ended the loop, the exit clicks the leave button; [kicked] is
    not read. *)
Lemma meetingExit_clicks_leave (env : Env) (b : MeetsBot) (h : History) (p : Handle) :
  page b = Some p ->
  exists post,
    historyOf (meetingExit env b h) =
    (h ++ [Log "Starting End Life Actions ..."; Log "Trying to leave the call ..."])
      ++ Click leaveButton (Some 1000%Z) :: post.
Proof.
  intros Hp. unfold meetingExit, leaveMeeting, onPage, requirePage. run. rewrite Hp.
  destruct (rejects env _ (Click leaveButton (Some 1000%Z))); run.
  - match goal with |- context [endLife env ?s ?hh] =>
      destruct (endLife_grows env s hh) as [added E]; unfold historyOf in E;
      destruct (endLife env s hh) as [[[u|e|] s1] h1]; cbn [snd] in E; subst h1 end.
    + eexists. rewrite <- !app_assoc. cbn [app]. reflexivity.
    + match goal with |- context [endLife env ?s ?hh] =>
        destruct (endLife_grows env s hh) as [added' E]; unfold historyOf in E;
        destruct (endLife env s hh) as [[[u|e'|] s2] h2]; cbn [snd] in E; subst h2 end;
        eexists; rewrite <- !app_assoc; cbn [app]; reflexivity.
    + eexists. rewrite <- !app_assoc. cbn [app]. reflexivity.
  - match goal with |- context [endLife env ?s ?hh] =>
      destruct (endLife_grows env s hh) as [added E]; unfold historyOf in E;
      destruct (endLife env s hh) as [[[u|e|] s1] h1]; cbn [snd] in E; subst h1 end.
    + eexists. rewrite <- !app_assoc. cbn [app]. reflexivity.
    + match goal with |- context [endLife env ?s ?hh] =>
        destruct (endLife_grows env s hh) as [added' E]; unfold historyOf in E;
        destruct (endLife env s hh) as [[[u|e'|] s2] h2]; cbn [snd] in E; subst h2 end;
        eexists; rewrite <- !app_assoc; cbn [app]; reflexivity.
    + eexists. rewrite <- !app_assoc. cbn [app]. reflexivity.
Qed.

Ltac keeps_page :=
  preserves_steps (@kept_refl MeetsBot _ page) (@kept_trans MeetsBot _ page)
    (@kept_call MeetsBot _ page) ltac:(reflexivity).

Lemma runCallbacks_keeps_page (evs : list Turn) : preserves (kept page) (runCallbacks evs).
Proof.
  induction evs as [|ev evs IH]; cbn [runCallbacks]; [keeps_page|].
  destruct ev as [[p|p|p]|p]; cbn [turn callbackStart];
    unfold onParticipantJoin, afterLeaveReport, registerParticipantSpeaking;
    keeps_page; exact IH.
Qed.

Lemma loopIteration_keeps_page : preserves (kept page) loopIteration.
Proof.
  unfold loopIteration, aloneTimedOut, checkKicked, noActivity, handleInfoPopup,
    onPage, requirePage, deliverPageEvents.
  keeps_page.
  all: intros env0 s0 h0; exact (runCallbacks_keeps_page (pageEvents env0 h0) env0 s0 h0).
Qed.

Lemma meetingLoop_keeps_page (ticks : nat) : preserves (kept page) (meetingLoop ticks).
Proof.
  induction ticks as [|ticks IH]; cbn [meetingLoop]; [keeps_page|].
  apply (preserves_bind _ (@kept_trans MeetsBot _ page)).
  - apply loopIteration_keeps_page.
  - intros [c|]; [keeps_page|exact IH].
Qed.

(** ** What a method can resolve with *)

Lemma yields_ret {S A} (P : A -> Prop) (a : A) : P a -> yields P (@ret S A a).
Proof. intros H env s h a' E. injection E as <-. exact H. Qed.

Lemma yields_bind {S A B} (P : B -> Prop) (m : M S A) (k : A -> M S B) :
  (forall a, yields P (k a)) -> yields P (bind m k).
Proof.
  intros Hk env s h b. rewrite JoinFacts.bind_run.
  destruct (outcomeOf (m env s h)); [apply Hk|discriminate|discriminate].
Qed.

(** The flag [kicked] is set when a pass leaves the loop as kicked. *)
Lemma loopIteration_sets_kicked (env : Env) (b : MeetsBot) (h : History) :
  outcomeOf (loopIteration env b h) = Resolved (Some GotKicked) ->
  kicked (stateOf (loopIteration env b h)) = true.
Proof.
  unfold loopIteration. rewrite JoinFacts.bind_run.
  destruct (outcomeOf (aloneTimedOut env b h)) as [[|]|e|]; try discriminate.
  rewrite JoinFacts.bind_run.
  destruct (outcomeOf (checkKicked env _ _)) as [[|]|e|]; try discriminate.
  - intros _. reflexivity.
  - intros E. exfalso. revert E.
    match goal with |- outcomeOf (?m env ?s ?hh) = _ -> _ =>
      assert (Y : yields (fun r => r <> Some GotKicked) m) end.
    { apply yields_bind. intros [|].
      - apply yields_bind. intros _. apply yields_ret. discriminate.
      - repeat (apply yields_bind; intros ?). apply yields_ret. discriminate. }
    intros E. now apply (Y _ _ _ _ E).
Qed.

Lemma meetingLoop_sets_kicked (ticks : nat) (env : Env) (b : MeetsBot) (h : History) :
  outcomeOf (meetingLoop ticks env b h) = Resolved (Some GotKicked) ->
  kicked (stateOf (meetingLoop ticks env b h)) = true.
Proof.
  revert b h. induction ticks as [|ticks IH]; intros b h; cbn [meetingLoop].
  - discriminate.
  - rewrite JoinFacts.bind_run.
    pose proof (loopIteration_sets_kicked env b h) as L.
    destruct (outcomeOf (loopIteration env b h)) as [[c|]|e|]; try discriminate.
    + unfold ret, outcomeOf, stateOf at 1; cbn [fst snd]. intros E.
      injection E as ->. now apply L.
    + apply IH.
Qed.

(** C1, on the Meet bot: in every session in which the loop is left because
    the probes report the kick, [kicked] is set and the exit still clicks the
    leave button, with its bound of 1000 ms, before the cleanup. *)
Theorem kicked_session_still_clicks_leave (ticks : nat) (env : Env) (b : MeetsBot)
    (h : History) (p : Handle) :
  page b = Some p ->
  outcomeOf (meetingLoop ticks env b h) = Resolved (Some GotKicked) ->
  kicked (stateOf (meetingLoop ticks env b h)) = true /\
  exists post,
    historyOf (meetingExit env (stateOf (meetingLoop ticks env b h))
                 (historyOf (meetingLoop ticks env b h))) =
    (historyOf (meetingLoop ticks env b h)
       ++ [Log "Starting End Life Actions ..."; Log "Trying to leave the call ..."])
      ++ Click leaveButton (Some 1000%Z) :: post.
Proof.
  intros Hp Hk. split; [now apply meetingLoop_sets_kicked|].
  apply (meetingExit_clicks_leave env _ _ p).
  rewrite <- Hp. apply (meetingLoop_keeps_page ticks env b h).
Qed.

(** Scenario C: the forced-return button shows while Ada is still in the
    roster. *)
Example kicked_session_trace :
  let r := (r <- meetingLoop 3 ;;
            match r with Some _ => meetingExit | None => never end)
             kickedLate silentWithAda [] in
  outcomeOf r = Resolved 0%Z /\ kicked (stateOf r) = true /\
  historyOf r =
  [ LocatorCount gotKickedDetector;
    Log "Detected that we were kicked from the meeting.";
    Log "Starting End Life Actions ..."; Log "Trying to leave the call ...";
    Click leaveButton (Some 1000%Z); Log "Left Call."; Log "Ending Life ...";
    Log "Stopping Recording ..."; Log "Attempting to stop the recording ...";
    Log "No recording in progress, cannot end recording."; Log "Done.";
    BrowserClose; Log "Closed Browser." ].
Proof. repeat split. Qed.

Lemma kicked_session_still_clicks_leave_witness :
  page silentWithAda = Some handle /\
  outcomeOf (meetingLoop 3 kickedLate silentWithAda []) = Resolved (Some GotKicked) /\
  kicked (stateOf (meetingLoop 3 kickedLate silentWithAda [])) = true /\
  exists post,
    historyOf (meetingExit kickedLate (stateOf (meetingLoop 3 kickedLate silentWithAda []))
                 (historyOf (meetingLoop 3 kickedLate silentWithAda []))) =
    (historyOf (meetingLoop 3 kickedLate silentWithAda [])
       ++ [Log "Starting End Life Actions ..."; Log "Trying to leave the call ..."])
      ++ Click leaveButton (Some 1000%Z) :: post.
Proof.
  split; [reflexivity|]. split; [reflexivity|].
  apply (kicked_session_still_clicks_leave 3 kickedLate silentWithAda [] handle);
    reflexivity.
Defined.

End LoopFacts.

(* ================================================================== *)
(** * Part XV.  The model at work                                     *)
(* ================================================================== *)

Module Scenarios.
Import Effects Timeframes Meet Notions.
Local Open Scope bot_scope.

(** ** The recorded sequences stay in order under a clock that does not
    run backwards *)

Lemma consecutive_snoc (t0 t : Z) (ts : list Z) :
  consecutive Z.le t0 ts -> chunkLast (t0, ts) <= t -> consecutive Z.le t0 (ts ++ [t]).
Proof.
  revert t0. induction ts as [|x ts IH]; intros t0 Hc Hl.
  - unfold chunkLast in Hl; cbn in *. tauto.
  - destruct Hc as [Hx Hc]. cbn [app consecutive]. split; [exact Hx|].
    apply IH; [exact Hc|]. now rewrite TimeframeFacts.chunkLast_cons in Hl.
Qed.

Lemma pushTimestamp_recorded (speaker : string) (t : Z) (m : ActivityMap) :
  recorded m ->
  (forall k ts, In (k, ts) m -> chunkLast ts <= t) ->
  recorded (pushTimestamp speaker t m).
Proof.
  unfold recorded. induction m as [|[k [t0 ts]] m IH]; intros Hrec Hle; cbn [pushTimestamp].
  - repeat constructor.
  - inversion Hrec as [|e l He Hl]; subst. destruct (String.eqb k speaker).
    + constructor; [|exact Hl]. unfold nondecreasing in *; cbn [fst snd] in *.
      apply consecutive_snoc; [exact He|]. apply (Hle k). now left.
    + constructor; [exact He|]. apply IH; [exact Hl|].
      intros k' ts' Hin. apply (Hle k'). now right.
Qed.

(** Outside the data model: when the clock runs backwards by 5 seconds, the
    loop compares the signed difference and folds the two timestamps. *)
Example backwards_clock_folds :
  getSpeakerTimeframes [("Ada"%string, (5000, [0]))] = [mkTimeframe "Ada" 5000 0].
Proof. reflexivity. Qed.

(** ** Scenario B: left alone *)

Example left_alone_times_out :
  outcomeOf (meetingLoop 2 adaLeaves withAda []) = Resolved None /\
  timeAloneStarted (stateOf (meetingLoop 2 adaLeaves withAda [])) = At 6000 /\
  outcomeOf (meetingLoop 3 adaLeaves withAda []) = Resolved (Some OnlyMeLeft) /\
  kicked (stateOf (meetingLoop 3 adaLeaves withAda [])) = false.
Proof. repeat split. Qed.

(** ** Stopping the capture *)

Example stop_without_start :
  stopRecording (quietEnv 0) meetLaunched [] =
  (Resolved 1, meetLaunched,
   [ Log "Attempting to stop the recording ...";
     Log "No recording in progress, cannot end recording." ]).
Proof. reflexivity. Qed.

Example stop_clean_exit :
  outcomeOf (stopRecording (encoderExits (Some 0) None) recording []) = Resolved 0 /\
  ffmpegProcess (stateOf (stopRecording (encoderExits (Some 0) None) recording [])) = None /\
  In Kill (historyOf (stopRecording (encoderExits (Some 0) None) recording [])).
Proof. repeat split. cbn. tauto. Qed.

Example stop_abnormal_exit :
  outcomeOf (stopRecording (encoderExits (Some 255) None) recording []) = Resolved 1 /\
  outcomeOf (stopRecording (encoderExits None (Some "SIGKILL"%string)) recording [])
  = Resolved 1.
Proof. split; reflexivity. Qed.

Example stop_waits_for_the_exit :
  outcomeOf (stopRecording (quietEnv 0) recording []) = Pending.
Proof. reflexivity. Qed.

End Scenarios.

(* ================================================================== *)
(** * Part XVI.  More on the speaker timeframes                        *)
(* ================================================================== *)

Module TimeframeMore.
Import Timeframes TimeframeFacts Notions.

(** Whatever the order of the timestamps, the output holds the frames the
    loop emits for the segmentation under the elapsed-time test. *)
Lemma output_perm_elapsed (m : ActivityMap) :
  Permutation (getSpeakerTimeframes m)
    (flat_map (fun e => emitted (fst e)
                          (utterancesBy closeElapsed (fst (snd e)) (snd (snd e)))) m).
Proof.
  unfold getSpeakerTimeframes. rewrite fold_processSpeaker. cbn [app].
  symmetry. apply sortBy_perm.
Qed.

Lemma emitted_in (name : string) (cs : list Chunk) (f : SpeakerTimeframe) :
  cs <> [] -> In f (emitted name cs) -> exists c, In c cs /\ f = frameOf name c.
Proof.
  intros Hne Hin. unfold emitted in Hin. apply in_app_or in Hin.
  destruct Hin as [Hin|[<-|[]]].
  - unfold nonFinalFrames in Hin. apply filter_In in Hin. destruct Hin as [Hin _].
    apply in_map_iff in Hin. destruct Hin as (c & <- & Hc).
    exists c. split; [|reflexivity].
    clear -Hc. induction cs as [|x cs IH]; [destruct Hc|].
    destruct cs as [|y cs]; [destruct Hc|].
    destruct Hc as [<-|Hc]; [now left|right; now apply IH].
  - exists (last cs (0, [])). split; [|reflexivity].
    destruct cs as [|x cs]; [now elim Hne|].
    clear Hne. revert x. induction cs as [|y cs IH]; intros x; [now left|].
    right. apply IH.
Qed.

Lemma chunk_ends_in_items (c : Chunk) :
  In (chunkFirst c) (chunkItems c) /\ In (chunkLast c) (chunkItems c).
Proof.
  destruct c as [a l]. unfold chunkFirst, chunkLast, chunkItems; cbn [fst snd].
  split; [now left|]. revert a. induction l as [|x l IH]; intros a; [now left|].
  right. change (last (x :: l) a) with (chunkLast (a, x :: l)).
  rewrite chunkLast_cons. apply (IH x).
Qed.

Lemma utterancesBy_nonempty (close : Z -> Z -> bool) (t : Z) (rest : list Z) :
  utterancesBy close t rest <> [].
Proof. destruct (utterancesBy_head close rest t) as (tl & cs & E). now rewrite E. Qed.

(** X1. Every timeframe in the output names a stored speaker, and its start
    and its end are timestamps recorded for that speaker. *)
Theorem timeframe_bounds_are_recorded_timestamps (m : ActivityMap) (f : SpeakerTimeframe) :
  In f (getSpeakerTimeframes m) ->
  exists ts, In (speakerName f, ts) m /\
             In (start f) (chunkItems ts) /\ In (end_ f) (chunkItems ts).
Proof.
  intros Hin. apply (Permutation_in _ (output_perm_elapsed m)) in Hin.
  apply in_flat_map in Hin. destruct Hin as ([name [t rest]] & Hm & Hf).
  cbn [fst snd] in Hf.
  destruct (emitted_in name _ f (utterancesBy_nonempty _ t rest) Hf) as (c & Hc & ->).
  exists (t, rest). cbn [frameOf speakerName start end_]. split; [exact Hm|].
  assert (Hsub : forall x, In x (chunkItems c) -> In x (chunkItems (t, rest))).
  { intros x Hx. change (chunkItems (t, rest)) with (t :: rest).
    rewrite <- (utterancesBy_items closeElapsed rest t).
    apply in_flat_map. now exists c. }
  destruct (chunk_ends_in_items c) as [H1 H2]. split; now apply Hsub.
Qed.

Lemma timeframe_bounds_are_recorded_timestamps_witness :
  exists ts, In ("Bob"%string, ts) sampleActivity /\
             In 500 (chunkItems ts) /\ In 3499 (chunkItems ts).
Proof.
  apply (timeframe_bounds_are_recorded_timestamps sampleActivity (mkTimeframe "Bob" 500 3499)).
  simpl. tauto.
Defined.

(** The pieces of a sequence recorded in order are in order. *)
Lemma utterancesBy_chunks_ordered (close : Z -> Z -> bool) (rest : list Z) (t : Z) :
  consecutive Z.le t rest ->
  Forall (fun c => consecutive Z.le (fst c) (snd c)) (utterancesBy close t rest).
Proof.
  revert t. induction rest as [|t' rest IH]; intros t H; cbn [utterancesBy].
  - repeat constructor.
  - destruct H as [Hle H]. specialize (IH t' H).
    destruct (utterancesBy_head close rest t') as (tl & cs & E). rewrite E in *.
    inversion IH as [|c l Hc Hl]; subst. destruct (close t t').
    + constructor; [|exact Hl]. cbn in *. now split.
    + constructor; [exact I|]. now constructor.
Qed.

Lemma ordered_first_le_last (a : Z) (l : list Z) :
  consecutive Z.le a l -> a <= chunkLast (a, l).
Proof.
  revert a. induction l as [|x l IH]; intros a H.
  - unfold chunkLast; cbn. lia.
  - destruct H as [Hx H]. rewrite chunkLast_cons. specialize (IH x H). lia.
Qed.

(** X2. For sequences recorded in order no timeframe in the output ends
    before it starts. *)
Theorem timeframes_do_not_end_before_they_start (m : ActivityMap) (f : SpeakerTimeframe) :
  recorded m -> In f (getSpeakerTimeframes m) -> start f <= end_ f.
Proof.
  intros Hrec Hin. apply (Permutation_in _ (output_perm m Hrec)) in Hin.
  apply in_flat_map in Hin. destruct Hin as ([name [t rest]] & Hm & Hf).
  cbn [fst snd] in Hf. unfold utterances in Hf; cbn [fst snd] in Hf.
  destruct (emitted_in name _ f (utterancesBy_nonempty _ t rest) Hf) as (c & Hc & ->).
  cbn [frameOf start end_]. unfold chunkFirst.
  assert (Hts : consecutive Z.le t rest).
  { unfold recorded in Hrec. rewrite Forall_forall in Hrec. apply (Hrec _ Hm). }
  pose proof (utterancesBy_chunks_ordered closeApart rest t Hts) as Hall.
  rewrite Forall_forall in Hall. specialize (Hall c Hc).
  destruct c as [a l]. now apply ordered_first_le_last.
Qed.

Lemma timeframes_do_not_end_before_they_start_witness :
  recorded sampleActivity /\ 0 <= 2500.
Proof.
  split; [exact sampleActivity_recorded|].
  apply (timeframes_do_not_end_before_they_start sampleActivity (mkTimeframe "Ada" 0 2500)
           sampleActivity_recorded).
  simpl. tauto.
Defined.

Lemma emitted_length (name : string) (cs : list Chunk) :
  cs <> [] ->
  (1 <= List.length (emitted name cs) <= List.length cs)%nat.
Proof.
  intros Hne. unfold emitted, nonFinalFrames. rewrite length_app. cbn [List.length].
  pose proof (filter_length_le (fun f => duration f >? 500)
                (map (frameOf name) (removelast cs))) as Hf.
  rewrite length_map in Hf.
  assert (Hr : S (List.length (removelast cs)) = List.length cs).
  { clear Hf. destruct cs as [|x cs]; [now elim Hne|]. clear Hne.
    revert x. induction cs as [|y cs IH]; intros x; [reflexivity|].
    change (removelast (x :: y :: cs)) with (x :: removelast (y :: cs)).
    cbn [List.length]. now rewrite IH. }
  lia.
Qed.

Lemma chunks_no_more_than_items (cs : list Chunk) :
  (List.length cs <= List.length (flat_map chunkItems cs))%nat.
Proof.
  induction cs as [|c cs IH]; [apply Nat.le_refl|].
  cbn [flat_map List.length]. rewrite length_app. unfold chunkItems at 1.
  cbn [List.length]. lia.
Qed.

(** The last piece of a sequence ends with the last timestamp. *)
Lemma utterancesBy_last (close : Z -> Z -> bool) (rest : list Z) (t : Z) :
  chunkLast (last (utterancesBy close t rest) (0, [])) = chunkLast (t, rest).
Proof.
  revert t. induction rest as [|t' rest IH]; intros t; [reflexivity|].
  rewrite chunkLast_cons, <- (IH t'). cbn [utterancesBy].
  destruct (utterancesBy_head close rest t') as (tl & cs & E). rewrite E.
  destruct (close t t').
  - destruct cs as [|c cs]; [|reflexivity].
    cbn [last]. unfold chunkItems; cbn [fst snd]. apply chunkLast_cons.
  - reflexivity.
Qed.

(** The frame of the final piece is among the frames emitted. *)
Lemma final_frame_emitted (name : string) (cs : list Chunk) :
  In (finalFrame name cs) (emitted name cs).
Proof. unfold emitted. apply in_or_app. right. now left. Qed.

(** X3. Every speaker with stored activity has at least one timeframe in the
    output: for every stored entry the output holds a timeframe that bears
    the name of the entry and ends at its last timestamp. The output has at
    least as many timeframes as there are entries, and no more than there are
    stored timestamps. *)
Theorem timeframe_count_bounds (m : ActivityMap) :
  (forall name ts, In (name, ts) m ->
     exists f, In f (getSpeakerTimeframes m) /\
               speakerName f = name /\ end_ f = chunkLast ts) /\
  (List.length m <= List.length (getSpeakerTimeframes m))%nat /\
  (List.length (getSpeakerTimeframes m)
   <= List.length (flat_map (fun e => chunkItems (snd e)) m))%nat.
Proof.
  split.
  - intros name [t rest] Hin.
    exists (finalFrame name (utterancesBy closeElapsed t rest)). split.
    + apply (Permutation_in _ (Permutation_sym (output_perm_elapsed m))).
      apply in_flat_map. exists (name, (t, rest)). split; [exact Hin|].
      cbn [fst snd]. apply final_frame_emitted.
    + split; [reflexivity|]. unfold finalFrame. cbn [frameOf end_].
      apply utterancesBy_last.
  - rewrite (Permutation_length (output_perm_elapsed m)).
    induction m as [|[name [t rest]] m IH]; [split; apply Nat.le_refl|].
    cbn [flat_map List.length fst snd]. rewrite !length_app.
    pose proof (emitted_length name _ (utterancesBy_nonempty closeElapsed t rest)) as He.
    pose proof (chunks_no_more_than_items (utterancesBy closeElapsed t rest)) as Hc.
    rewrite utterancesBy_items in Hc. unfold chunkItems at 1; cbn [fst snd].
    cbn [List.length] in *. lia.
Qed.

Lemma utterancesBy_burst (rest : list Z) (t : Z) :
  consecutive (fun a b => b - a < 3000) t rest ->
  utterancesBy closeElapsed t rest = [(t, rest)].
Proof.
  revert t. induction rest as [|t' rest IH]; intros t H; cbn [utterancesBy]; [reflexivity|].
  destruct H as [Hc H]. rewrite (IH t' H).
  unfold closeElapsed. apply Z.ltb_lt in Hc. now rewrite Hc.
Qed.

Lemma single_speaker_output (name : string) (ts : Timestamps) :
  Permutation (getSpeakerTimeframes [(name, ts)])
    (emitted name (utterancesBy closeElapsed (fst ts) (snd ts))).
Proof.
  rewrite (output_perm_elapsed [(name, ts)]). cbn [flat_map fst snd].
  now rewrite app_nil_r.
Qed.

(** X4. A speaker whose stored timestamps each follow the previous one by
    less than 3000 ms has exactly one timeframe, from the first timestamp to
    the last. *)
Theorem burst_gives_one_timeframe (name : string) (t : Z) (rest : list Z) :
  consecutive (fun a b => b - a < 3000) t rest ->
  getSpeakerTimeframes [(name, (t, rest))] = [mkTimeframe name t (chunkLast (t, rest))].
Proof.
  intros H. apply Permutation_length_1_inv. symmetry.
  rewrite (single_speaker_output name (t, rest)). cbn [fst snd].
  now rewrite (utterancesBy_burst rest t H).
Qed.

Lemma burst_gives_one_timeframe_witness :
  getSpeakerTimeframes [("Ada"%string, (0, [1000; 2500]))] = [mkTimeframe "Ada" 0 2500].
Proof.
  apply (burst_gives_one_timeframe "Ada" 0 [1000; 2500]). cbn. lia.
Defined.

Lemma utterancesBy_isolated (rest : list Z) (t : Z) :
  consecutive (fun a b => 3000 <= b - a) t rest ->
  utterancesBy closeElapsed t rest = map (fun x => (x, [])) (t :: rest).
Proof.
  revert t. induction rest as [|t' rest IH]; intros t H; cbn [utterancesBy]; [reflexivity|].
  destruct H as [Hc H]. rewrite (IH t' H). cbn [map].
  unfold closeElapsed. apply Z.ltb_ge in Hc. now rewrite Hc.
Qed.

Lemma emitted_singletons (name : string) (t : Z) (rest : list Z) :
  emitted name (map (fun x => (x, [])) (t :: rest))
  = [mkTimeframe name (chunkLast (t, rest)) (chunkLast (t, rest))].
Proof.
  revert t. induction rest as [|t' rest IH]; intros t; [reflexivity|].
  rewrite chunkLast_cons, <- (IH t').
  cbn [map]. rewrite !emitted_from. cbn [emittedFrom].
  unfold chunkLast at 1, chunkFirst at 1; cbn [fst snd last].
  replace (t - t >? 500) with false by (symmetry; rewrite Z.gtb_ltb; apply Z.ltb_ge; lia).
  reflexivity.
Qed.

(** X5. A speaker whose stored timestamps are each 3000 ms or more after
    the previous one keeps a single timeframe: the one of the last timestamp.
    The earlier ones, each of duration 0, are dropped. *)
Theorem isolated_timestamps_keep_only_the_last (name : string) (t : Z) (rest : list Z) :
  consecutive (fun a b => 3000 <= b - a) t rest ->
  getSpeakerTimeframes [(name, (t, rest))]
  = [mkTimeframe name (chunkLast (t, rest)) (chunkLast (t, rest))].
Proof.
  intros H. apply Permutation_length_1_inv. symmetry.
  rewrite (single_speaker_output name (t, rest)). cbn [fst snd].
  now rewrite (utterancesBy_isolated rest t H), emitted_singletons.
Qed.

Lemma isolated_timestamps_keep_only_the_last_witness :
  getSpeakerTimeframes [("Ada"%string, (0, [5000; 10000]))]
  = [mkTimeframe "Ada" 10000 10000].
Proof.
  apply (isolated_timestamps_keep_only_the_last "Ada" 0 [5000; 10000]). cbn. lia.
Defined.

(** X6. The comparator given to [sort] is consistent: swapping its
    arguments negates it, it is [0] exactly for equal start and end, and the
    order it induces is transitive. *)
Theorem compareTimeframes_consistent (a b c : SpeakerTimeframe) :
  compareTimeframes a b = - compareTimeframes b a /\
  (compareTimeframes a b = 0 <-> start a = start b /\ end_ a = end_ b) /\
  (compareTimeframes a b <= 0 -> compareTimeframes b c <= 0 -> compareTimeframes a c <= 0).
Proof.
  unfold compareTimeframes.
  destruct (Z.eqb_spec (start a - start b) 0), (Z.eqb_spec (start b - start a) 0),
    (Z.eqb_spec (start b - start c) 0), (Z.eqb_spec (start a - start c) 0); lia.
Qed.

End TimeframeMore.

(* ================================================================== *)
(** * Part XVII.  More on the tracker                                  *)
(* ================================================================== *)

Module TrackerMore.
Import Effects EffectFacts Timeframes Meet Notions MoreNotions.
Local Open Scope bot_scope.

Lemma pushTimestamp_stored (speaker : string) (t : Z) (m : ActivityMap) :
  storedFor speaker (pushTimestamp speaker t m) =
  Some (match storedFor speaker m with
        | Some (t0, ts) => (t0, ts ++ [t])
        | None => (t, [])
        end).
Proof.
  induction m as [|[k [t0 ts]] m IH]; cbn [pushTimestamp storedFor].
  - now rewrite String.eqb_refl.
  - destruct (String.eqb k speaker) eqn:E; cbn [storedFor]; rewrite E; [reflexivity|exact IH].
Qed.

Lemma pushTimestamp_others (speaker other : string) (t : Z) (m : ActivityMap) :
  other <> speaker ->
  storedFor other (pushTimestamp speaker t m) = storedFor other m.
Proof.
  intros Hne. induction m as [|[k [t0 ts]] m IH]; cbn [pushTimestamp storedFor].
  - destruct (String.eqb_spec speaker other); [congruence|reflexivity].
  - destruct (String.eqb_spec k speaker) as [->|Hk]; cbn [storedFor].
    + destruct (String.eqb_spec speaker other); [congruence|reflexivity].
    + now rewrite IH.
Qed.

Lemma pushTimestamp_keys (speaker : string) (t : Z) (m : ActivityMap) :
  map fst (pushTimestamp speaker t m) =
  if existsb (String.eqb speaker) (map fst m) then map fst m else map fst m ++ [speaker].
Proof.
  induction m as [|[k [t0 ts]] m IH]; cbn [pushTimestamp map fst existsb]; [reflexivity|].
  rewrite (String.eqb_sym speaker k).
  destruct (String.eqb k speaker); cbn [map fst orb]; [reflexivity|].
  rewrite IH. now destruct (existsb (String.eqb speaker) (map fst m)).
Qed.

(** X7. [registerParticipantSpeaking] stores the instant of the call as the
    last activity. For a name that [Object.prototype] defines and that is no
    key of the stored object it then throws, and the stored sequences stay as
    they were. For every other name it resolves and appends one timestamp, the
    clock reading minus [recordingStartedAt], to the sequence stored under the
    name, which it creates when there is none. In both cases the sequences of
    the other names are not touched, and no name is stored twice. *)
Theorem speaking_appends_one_timestamp (env : Env) (p : Participant) (b : MeetsBot)
    (h : History) :
  let r := registerParticipantSpeaking p env b h in
  let b' := stateOf r in
  let stamp := number env (h ++ [DateNow]) DateNow - recordingStartedAt b in
  lastActivity b' = Some (number env h DateNow) /\
  (if inherited (name p) && negb (hasOwn (name p) (registeredActivityTimestamps b))
   then (exists msg, outcomeOf r = Rejected (JsError msg)) /\
        registeredActivityTimestamps b' = registeredActivityTimestamps b
   else outcomeOf r = Resolved tt /\
        storedFor (name p) (registeredActivityTimestamps b') =
        Some (match storedFor (name p) (registeredActivityTimestamps b) with
              | Some (t0, ts) => (t0, ts ++ [stamp])
              | None => (stamp, [])
              end)) /\
  (forall other, other <> name p ->
     storedFor other (registeredActivityTimestamps b')
     = storedFor other (registeredActivityTimestamps b)) /\
  (NoDup (map fst (registeredActivityTimestamps b)) ->
   NoDup (map fst (registeredActivityTimestamps b'))).
Proof.
  cbv zeta. rewrite TrackerFacts.registerParticipantSpeaking_run. cbv zeta.
  change (inherited (name p) && negb (hasOwn (name p) (registeredActivityTimestamps b)))
    with (pushMissing (name p) (registeredActivityTimestamps b)).
  destruct (pushMissing (name p) (registeredActivityTimestamps b));
    unfold stateOf, outcomeOf;
    cbn [fst snd lastActivity registeredActivityTimestamps set_registeredActivityTimestamps
         set_lastActivity recordingStartedAt].
  { split; [reflexivity|]. split; [split; [eexists|]; reflexivity|].
    split; [reflexivity|intros Hnd; exact Hnd]. }
  split; [reflexivity|]. split; [split; [reflexivity|apply pushTimestamp_stored]|].
  split; [intros other Hne; now apply pushTimestamp_others|].
  intros Hnd. rewrite pushTimestamp_keys.
  destruct (existsb (String.eqb (name p)) (map fst (registeredActivityTimestamps b))) eqn:E;
    [exact Hnd|].
  apply NoDup_app; [exact Hnd|repeat constructor; intros []|].
  intros x Hx [Hx'|[]]. subst x.
  assert (existsb (String.eqb (name p)) (map fst (registeredActivityTimestamps b)) = true).
  { apply existsb_exists. exists (name p). split; [exact Hx|apply String.eqb_refl]. }
  congruence.
Qed.

(** X8. When the clock reading of a speaking call, minus
    [recordingStartedAt], is not before any timestamp stored so far, the call
    keeps every stored sequence in order. *)
Theorem speaking_keeps_sequences_in_order (env : Env) (p : Participant) (b : MeetsBot)
    (h : History) :
  recorded (registeredActivityTimestamps b) ->
  (forall k ts, In (k, ts) (registeredActivityTimestamps b) ->
     chunkLast ts <= number env (h ++ [DateNow]) DateNow - recordingStartedAt b) ->
  recorded (registeredActivityTimestamps (stateOf (registerParticipantSpeaking p env b h))).
Proof.
  intros Hrec Hle. rewrite TrackerFacts.registerParticipantSpeaking_run. cbv zeta.
  destruct (pushMissing (name p) (registeredActivityTimestamps b)); unfold stateOf;
    cbn [fst snd registeredActivityTimestamps set_registeredActivityTimestamps
         set_lastActivity recordingStartedAt]; [exact Hrec|].
  now apply Scenarios.pushTimestamp_recorded.
Qed.

Lemma speaking_keeps_sequences_in_order_witness :
  recorded (registeredActivityTimestamps
              (stateOf (registerParticipantSpeaking ada (quietEnv 1500) adaSpoke []))).
Proof.
  apply (speaking_keeps_sequences_in_order (quietEnv 1500) ada adaSpoke []).
  - unfold recorded, nondecreasing. repeat constructor; cbn; lia.
  - intros k ts [E|[]]. injection E as <- <-. cbn. lia.
Defined.

(** Whatever the backend answers, the roster after the turns is the replay
    of the pushes and the filters. *)
Lemma runCallbacks_roster (env : Env) (evs : list Turn) (b : MeetsBot) (h : History) :
  participants (stateOf (runCallbacks evs env b h)) = rosterAfterTurns evs (participants b).
Proof.
  revert b h. induction evs as [|ev evs IH]; intros b h; [reflexivity|].
  rewrite TrackerFacts.runCallbacks_cons, IH.
  destruct ev as [[p|p|p]|p]; cbn [turn callbackStart rosterAfterTurns].
  - now rewrite TrackerFacts.onParticipantJoin_run.
  - reflexivity.
  - now rewrite (proj2 (TrackerFacts.registerParticipantSpeaking_instant env p b h)).
  - rewrite TrackerFacts.afterLeaveReport_run. cbv zeta.
    now destruct (rosterSize _ =? 1).
Qed.

Lemma withoutId_gone (p : Participant) (roster : list Participant) :
  ~ In (id p) (map id (withoutId p roster)).
Proof.
  unfold withoutId. rewrite in_map_iff. intros (q & Hq & Hin).
  apply filter_In in Hin. destruct Hin as [_ Hneq].
  rewrite Hq, String.eqb_refl in Hneq. discriminate Hneq.
Qed.

(** X9. Once a leave is reported, no entry with the id of the participant
    is left in the roster, however many times that id had been joined; the
    other entries stay, in their order. *)
Theorem leave_removes_every_copy (env : Env) (p : Participant) (b : MeetsBot) (h : History) :
  rejects env h (OnEvent PARTICIPANT_LEAVE) = None ->
  let b' := stateOf (onParticipantLeave p env b h) in
  ~ In (id p) (map id (participants b')) /\
  filter (fun q => negb (String.eqb (id q) (id p))) (participants b) = participants b'.
Proof.
  intros Hok. cbv zeta. rewrite TrackerFacts.onParticipantLeave_run, Hok. cbv zeta.
  destruct (rosterSize _ =? 1); unfold stateOf; cbn [fst snd participants
    set_participants set_timeAloneStarted]; (split; [apply withoutId_gone|reflexivity]).
Qed.

Lemma leave_removes_every_copy_witness :
  ~ In (id ada)
      (map id (participants
                 (stateOf (onParticipantLeave ada (quietEnv 0)
                             (stateOf (runCallbacks [Called (Joined ada); Called (Joined ada)]
                                         (quietEnv 0) withAda [])) [])))).
Proof.
  apply (leave_removes_every_copy (quietEnv 0) ada
           (stateOf (runCallbacks [Called (Joined ada); Called (Joined ada)]
                      (quietEnv 0) withAda [])) []).
  reflexivity.
Defined.

(** X10. With the backend taking every report, a join of an id that is not
    in the roster followed by the leave of that id gives the roster back,
    once the report of the leave has come back. *)
Theorem join_then_leave_restores_roster (env : Env) (p : Participant) (b : MeetsBot)
    (h : History) :
  reportsResolve env ->
  ~ In (id p) (map id (participants b)) ->
  participants
    (stateOf (runCallbacks [Called (Joined p); Called (Left p); LeaveReported p] env b h))
  = participants b.
Proof.
  intros _ Habsent. rewrite (runCallbacks_roster env _ b h). cbn [rosterAfterTurns].
  unfold withoutId. rewrite filter_app. cbn [filter].
  rewrite String.eqb_refl. cbn [negb]. rewrite app_nil_r.
  now apply TrackerFacts.withoutId_absent.
Qed.

Lemma quietEnv_reports (clock : Z) : reportsResolve (quietEnv clock).
Proof. intros h code. reflexivity. Defined.

Lemma join_then_leave_restores_roster_witness :
  participants
    (stateOf (runCallbacks [Called (Joined bob); Called (Left bob); LeaveReported bob]
                (quietEnv 0) withAda []))
  = participants withAda.
Proof.
  apply (join_then_leave_restores_roster (quietEnv 0) bob withAda [] (quietEnv_reports 0)).
  cbn. intros [H|[H|[]]]; discriminate H.
Defined.

End TrackerMore.

(* ================================================================== *)
(** * Part XVIII.  The calls a method makes                          *)
(* ================================================================== *)

Module WithinFacts.
Import Effects EffectFacts Notions MoreNotions.
Local Open Scope bot_scope.

Section Within.
Context {S : Type}.
Variable P : Call -> Prop.

Lemma within_ret {A} (a : A) : within P (@ret S A a).
Proof. intros env s h. exists []. now rewrite app_nil_r. Qed.

Lemma within_throw {A} (e : Error) : within P (@throw S A e).
Proof. intros env s h. exists []. now rewrite app_nil_r. Qed.

Lemma within_never {A} : within P (@never S A).
Proof. intros env s h. exists []. now rewrite app_nil_r. Qed.

Lemma within_gets {A} (f : S -> A) : within P (gets f).
Proof. intros env s h. exists []. now rewrite app_nil_r. Qed.

Lemma within_modify (f : S -> S) : within P (modify f).
Proof. intros env s h. exists []. now rewrite app_nil_r. Qed.

Lemma within_note (c : Call) : P c -> within P (@note S c).
Proof. intros Hc env s h. exists [c]. now repeat constructor. Qed.

Lemma within_log (msg : string) : P (Log msg) -> within P (@log S msg).
Proof. apply within_note. Qed.

Lemma within_dateNow : P DateNow -> within P (@dateNow S).
Proof. intros Hc env s h. exists [DateNow]. now repeat constructor. Qed.

Lemma within_perform (c : Call) : P c -> within P (@perform S c).
Proof. intros Hc env s h. exists [c]. now repeat constructor. Qed.

Lemma within_askBool (c : Call) : P c -> within P (@askBool S c).
Proof. intros Hc env s h. exists [c]. now repeat constructor. Qed.

Lemma within_askNumber (c : Call) : P c -> within P (@askNumber S c).
Proof. intros Hc env s h. exists [c]. now repeat constructor. Qed.

Lemma within_askNames (c : Call) : P c -> within P (@askNames S c).
Proof. intros Hc env s h. exists [c]. now repeat constructor. Qed.

Lemma within_bind {A B} (m : M S A) (k : A -> M S B) :
  within P m -> (forall a, within P (k a)) -> within P (bind m k).
Proof.
  intros Hm Hk env s h. destruct (Hm env s h) as (a1 & E1 & F1).
  unfold bind, historyOf in *.
  destruct (m env s h) as [[[a|e|] s'] h']; cbn [snd] in *; subst h';
    try (now exists a1).
  destruct (Hk a env s' (h ++ a1)) as (a2 & E2 & F2). unfold historyOf in E2.
  exists (a1 ++ a2).
  split; [now rewrite E2, app_assoc|now apply Forall_app].
Qed.

Lemma within_tryCatch {A} (m : M S A) (handler : Error -> M S A) :
  within P m -> (forall e, within P (handler e)) -> within P (tryCatch m handler).
Proof.
  intros Hm Hk env s h. destruct (Hm env s h) as (a1 & E1 & F1).
  unfold tryCatch, historyOf in *.
  destruct (m env s h) as [[[a|e|] s'] h']; cbn [snd] in *; subst h';
    try (now exists a1).
  destruct (Hk e env s' (h ++ a1)) as (a2 & E2 & F2). unfold historyOf in E2.
  exists (a1 ++ a2).
  split; [now rewrite E2, app_assoc|now apply Forall_app].
Qed.

Lemma within_detached {A} (m : M S A) : within P m -> within P (detached m).
Proof.
  intros Hm env s h. destruct (Hm env s h) as (a1 & E1 & F1).
  unfold detached, historyOf in *.
  destruct (m env s h) as [[o s'] h']; cbn [snd] in *. now exists a1.
Qed.

Lemma within_env {A} (f : Env -> History -> M S A) :
  (forall env' h', within P (f env' h')) -> within P (fun env s h => f env h env s h).
Proof. intros H env s h. apply (H env h env s h). Qed.
End Within.

(** Going through a method step by step; [side] shows that a call is one of
    those allowed. *)
Ltac within_steps side :=
  repeat first
    [ apply within_ret | apply within_throw | apply within_never
    | apply within_gets | apply within_modify
    | apply within_log; side | apply within_note; side | apply within_dateNow; side
    | apply within_perform; side | apply within_askBool; side
    | apply within_askNumber; side | apply within_askNames; side
    | apply within_bind; [|intros ?]
    | apply within_tryCatch; [|intros ?]
    | apply within_detached
    | match goal with
      | |- within _ (match ?x with _ => _ end) => destruct x
      end ].

(** Going through the answers of the environment that a run depends on. *)
Ltac answers :=
  repeat match goal with
         | |- context [match rejects ?env ?hh ?c with _ => _ end] =>
             destruct (rejects env hh c)
         | |- context [if flag ?env ?hh ?c then _ else _] =>
             destruct (flag env hh c)
         end.

End WithinFacts.

(* ================================================================== *)
(** * Part XIX.  More on the termination loop                        *)
(* ================================================================== *)

Module LoopMore.
Import Effects EffectFacts Meet Notions MoreNotions LoopFacts WithinFacts.
Local Open Scope bot_scope.

(** The alone check, run. *)
Lemma aloneTimedOut_run (env : Env) (b : MeetsBot) (h : History) :
  aloneTimedOut env b h =
  if rosterSize b =? 1
  then
    if elapsedExceeds (number env h DateNow) (timeAloneStarted b) (aloneLimit b)
    then (Resolved true, b,
          h ++ [ DateNow;
                 Log "Only me left in the meeting. Waiting for timeout time to have allocated ...";
                 Log "Only one participant remaining for more than alocated time, leaving the meeting." ])
    else (Resolved false, b,
          h ++ [ DateNow;
                 Log "Only me left in the meeting. Waiting for timeout time to have allocated ..." ])
  else (Resolved false, b, h).
Proof.
  unfold aloneTimedOut, rosterSize, aloneLimit. run.
  destruct (Z.of_nat (List.length (participants b)) =? 1); [|reflexivity].
  destruct (elapsedExceeds _ _ _); rewrite <- !app_assoc; reflexivity.
Qed.

(** The inactivity check, run. *)
Lemma noActivity_run (env : Env) (b : MeetsBot) (h : History) :
  noActivity env b h =
  if rosterSize b >? 1
  then match lastActivity b with
       | None => (Resolved false, b, h)
       | Some t =>
           if t =? 0 then (Resolved false, b, h)
           else (Resolved (number env h DateNow - t
                           >? inactivityTimeout (automaticLeave (settings b))),
                 b, h ++ [DateNow])
       end
  else (Resolved false, b, h).
Proof.
  unfold noActivity, rosterSize. run.
  destruct (Z.of_nat (List.length (participants b)) >? 1); [|reflexivity].
  destruct (lastActivity b) as [t|]; [|reflexivity].
  now destruct (t =? 0).
Qed.

Lemma handleInfoPopup_reads (timeout : Z) (env : Env) (b : MeetsBot) (h : History) :
  stateOf (handleInfoPopup timeout env b h) = b.
Proof.
  assert (K : preserves (kept (fun s : MeetsBot => s)) (handleInfoPopup timeout)).
  { unfold handleInfoPopup, onPage, requirePage.
    preserves_steps (@kept_refl MeetsBot _ (fun s : MeetsBot => s))
      (@kept_trans MeetsBot _ (fun s : MeetsBot => s))
      (@kept_call MeetsBot _ (fun s : MeetsBot => s)) ltac:(reflexivity). }
  exact (K env b h).
Qed.

Lemma noActivity_reads (env : Env) (b : MeetsBot) (h : History) :
  stateOf (noActivity env b h) = b.
Proof.
  rewrite noActivity_run. destruct (rosterSize b >? 1); [|reflexivity].
  destruct (lastActivity b) as [t|]; [|reflexivity]. now destruct (t =? 0).
Qed.

(** The calls of the page never settle otherwise than resolved: a rejection
    of a callback goes back to the page. *)
Lemma runCallbacks_resolves (evs : list Turn) (env : Env) (b : MeetsBot) (h : History) :
  outcomeOf (runCallbacks evs env b h) = Resolved tt.
Proof.
  revert b h. induction evs as [|ev evs IH]; intros b h; [reflexivity|].
  cbn [runCallbacks]. unfold bind, detached.
  destruct (turn ev env b h) as [[o b'] h']. apply IH.
Qed.

(** A pass writes to the bot through the calls of the page it delivers and
    through [kicked], and through nothing else. *)
Lemma loopIteration_writes (env : Env) (b : MeetsBot) (h : History) :
  match outcomeOf (loopIteration env b h) with
  | Resolved None =>
      exists h', stateOf (loopIteration env b h)
                 = stateOf (runCallbacks (pageEvents env h') env b h')
  | Resolved (Some GotKicked) => stateOf (loopIteration env b h) = set_kicked true b
  | _ => stateOf (loopIteration env b h) = b
  end.
Proof.
  unfold loopIteration. rewrite JoinFacts.bind_run.
  pose proof (aloneTimedOut_reads env b h) as Ra.
  destruct (outcomeOf (aloneTimedOut env b h)) as [[|]|e|]; rewrite ?Ra;
    try reflexivity.
  rewrite JoinFacts.bind_run.
  match goal with |- context [checkKicked env b ?hh] =>
    pose proof (checkKicked_reads env b hh) as Rk;
    destruct (outcomeOf (checkKicked env b hh)) as [[|]|e|]; rewrite ?Rk;
    try reflexivity end.
  rewrite JoinFacts.bind_run.
  match goal with |- context [noActivity env b ?hh] =>
    pose proof (noActivity_reads env b hh) as Rn;
    destruct (outcomeOf (noActivity env b hh)) as [[|]|e|]; rewrite ?Rn;
    try reflexivity end.
  rewrite JoinFacts.bind_run.
  match goal with |- context [handleInfoPopup 1000 env b ?hh] =>
    pose proof (handleInfoPopup_reads 1000 env b hh) as Rp;
    destruct (outcomeOf (handleInfoPopup 1000 env b hh)) as [[]|e|]; rewrite ?Rp;
    try reflexivity end.
  unfold deliverPageEvents. run.
  match goal with |- context [runCallbacks (pageEvents env ?hh) env b ?hh] =>
    pose proof (runCallbacks_resolves (pageEvents env hh) env b hh) as Rc;
    unfold outcomeOf in Rc;
    destruct (runCallbacks (pageEvents env hh) env b hh) as [[o b'] h'] eqn:Ec;
    cbn [fst] in Rc; subst o; exists hh; now rewrite Ec end.
Qed.

(** The end of a pass that leaves the loop running never ends it. *)
Lemma restOfPass_continues :
  yields (fun r : option LeaveCondition => r = None)
    (handleInfoPopup 1000 ;; log "Waiting 5 seconds." ;; note (Sleep 5000) ;;
     deliverPageEvents ;; ret (@None LeaveCondition)).
Proof. repeat (apply yields_bind; intros ?). now apply yields_ret. Qed.

(** The run of [m ;; k] once the run of [m] is known. *)
Lemma bind_of {S A B} (m : M S A) (k : A -> M S B) (env : Env) (s s' : S) (h h' : History)
    (o : Outcome A) :
  m env s h = (o, s', h') ->
  bind m k env s h =
  match o with
  | Resolved a => k a env s' h'
  | Rejected e => (Rejected e, s', h')
  | Pending => (Pending, s', h')
  end.
Proof. intros E. unfold bind. rewrite E. now destruct o. Qed.

(** Why a pass can end the loop for the alone timeout or for inactivity. *)
Lemma loopIteration_exit_reasons (env : Env) (b : MeetsBot) (h : History) :
  (outcomeOf (loopIteration env b h) = Resolved (Some OnlyMeLeft) ->
   rosterSize b = 1 /\
   exists t, timeAloneStarted b = At t /\ aloneLimit b < number env h DateNow - t) /\
  (outcomeOf (loopIteration env b h) = Resolved (Some NoActivity) ->
   1 < rosterSize b /\
   exists t, lastActivity b = Some t /\ t <> 0 /\
             inactivityTimeout (automaticLeave (settings b))
             < number env (historyOf (checkKicked env b h)) DateNow - t).
Proof.
  assert (Tail : forall b' h' c,
            outcomeOf ((handleInfoPopup 1000 ;; log "Waiting 5 seconds." ;;
                        note (Sleep 5000) ;; deliverPageEvents ;;
                        ret (@None LeaveCondition)) env b' h')
            <> Resolved (Some c)).
  { intros b' h' c E. now pose proof (restOfPass_continues env b' h' _ E). }
  assert (Quiet : forall hk,
            rosterSize b = 1 ->
            (outcomeOf ((wasKicked <- checkKicked ;;
                         if wasKicked
                         then log "Detected that we were kicked from the meeting." ;;
                              modify (set_kicked true) ;; ret (Some GotKicked)
                         else inactive <- noActivity ;;
                              if inactive
                              then log "No Activity for 5 minutes" ;; ret (Some NoActivity)
                              else handleInfoPopup 1000 ;; log "Waiting 5 seconds." ;;
                                   note (Sleep 5000) ;; deliverPageEvents ;;
                                   ret (@None LeaveCondition)) env b hk)
             <> Resolved (Some OnlyMeLeft)) /\
            (outcomeOf ((wasKicked <- checkKicked ;;
                         if wasKicked
                         then log "Detected that we were kicked from the meeting." ;;
                              modify (set_kicked true) ;; ret (Some GotKicked)
                         else inactive <- noActivity ;;
                              if inactive
                              then log "No Activity for 5 minutes" ;; ret (Some NoActivity)
                              else handleInfoPopup 1000 ;; log "Waiting 5 seconds." ;;
                                   note (Sleep 5000) ;; deliverPageEvents ;;
                                   ret (@None LeaveCondition)) env b hk)
             <> Resolved (Some NoActivity))).
  { intros hk Eone. rewrite JoinFacts.bind_run.
    destruct (outcomeOf (checkKicked env b hk)) as [[|]|e|];
      try (split; discriminate).
    rewrite checkKicked_reads.
    pose proof (noActivity_run env b (historyOf (checkKicked env b hk))) as Rn.
    rewrite Eone in Rn. change (1 >? 1) with false in Rn.
    rewrite (bind_of _ _ _ _ _ _ _ _ Rn). split; apply Tail. }
  unfold loopIteration.
  pose proof (aloneTimedOut_run env b h) as Ra.
  destruct (rosterSize b =? 1) eqn:Eone.
  - apply Z.eqb_eq in Eone.
    destruct (elapsedExceeds _ _ _) eqn:Eex; rewrite (bind_of _ _ _ _ _ _ _ _ Ra).
    + split; [|discriminate]. intros _. split; [exact Eone|].
      unfold elapsedExceeds in Eex. destruct (timeAloneStarted b) as [t|]; [|discriminate].
      exists t. split; [reflexivity|]. now apply Z.gtb_lt in Eex.
    + split; intros E; exfalso; revert E; now apply Quiet.
  - rewrite (bind_of _ _ _ _ _ _ _ _ Ra). rewrite JoinFacts.bind_run.
    destruct (outcomeOf (checkKicked env b h)) as [[|]|e|] eqn:Ek;
      try (split; discriminate).
    rewrite checkKicked_reads.
    pose proof (noActivity_run env b (historyOf (checkKicked env b h))) as Rn.
    destruct (rosterSize b >? 1) eqn:Emany;
      [|rewrite (bind_of _ _ _ _ _ _ _ _ Rn); split; intros E; now apply Tail in E].
    apply Z.gtb_lt in Emany.
    destruct (lastActivity b) as [t|];
      [|rewrite (bind_of _ _ _ _ _ _ _ _ Rn); split; intros E; now apply Tail in E].
    destruct (t =? 0) eqn:Et;
      [rewrite (bind_of _ _ _ _ _ _ _ _ Rn); split; intros E; now apply Tail in E|].
    apply Z.eqb_neq in Et. rewrite (bind_of _ _ _ _ _ _ _ _ Rn).
    destruct (_ >? _) eqn:Eover.
    + split; [discriminate|]. intros _. split; [lia|].
      exists t. split; [reflexivity|]. split; [exact Et|].
      now apply Z.gtb_lt in Eover.
    + split; intros E; now apply Tail in E.
Qed.

(** X11. A pass ends the loop for the alone timeout only when the roster
    holds exactly one entry and the alone-start instant is a number more than
    the limit before the clock reading; it ends the loop for inactivity only
    when the roster holds more than one entry and the last activity is a
    nonzero instant more than [inactivityTimeout] before the clock reading. *)
Theorem exits_have_their_reasons (env : Env) (b : MeetsBot) (h : History) :
  (outcomeOf (loopIteration env b h) = Resolved (Some OnlyMeLeft) ->
   rosterSize b = 1 /\
   exists t, timeAloneStarted b = At t /\ aloneLimit b < number env h DateNow - t) /\
  (outcomeOf (loopIteration env b h) = Resolved (Some NoActivity) ->
   1 < rosterSize b /\
   exists t, lastActivity b = Some t /\ t <> 0 /\
             inactivityTimeout (automaticLeave (settings b))
             < number env (historyOf (checkKicked env b h)) DateNow - t).
Proof. exact (loopIteration_exit_reasons env b h). Qed.

Lemma exits_have_their_reasons_witness :
  (rosterSize aloneInMeeting = 1 /\
   exists t, timeAloneStarted aloneInMeeting = At t /\
             aloneLimit aloneInMeeting < number kickedLate [] DateNow - t) /\
  (1 < rosterSize silentWithAda /\
   exists t, lastActivity silentWithAda = Some t /\ t <> 0 /\
             inactivityTimeout (automaticLeave (settings silentWithAda))
             < number (quietEnv 1000000)
                 (historyOf (checkKicked (quietEnv 1000000) silentWithAda [])) DateNow - t).
Proof.
  split.
  - apply (proj1 (exits_have_their_reasons kickedLate aloneInMeeting [])). reflexivity.
  - apply (proj2 (exits_have_their_reasons (quietEnv 1000000) silentWithAda [])).
    reflexivity.
Defined.

(** The turns other than the return of the report of a leave never write
    the alone-start instant. *)
Lemma runCallbacks_keeps_instant (evs : list Turn) (env : Env) (b : MeetsBot)
    (h : History) :
  (forall p, ~ In (LeaveReported p) evs) ->
  timeAloneStarted (stateOf (runCallbacks evs env b h)) = timeAloneStarted b.
Proof.
  revert b h. induction evs as [|ev evs IH]; intros b h Hno; [reflexivity|].
  rewrite TrackerFacts.runCallbacks_cons.
  rewrite IH by (intros p Hin; apply (Hno p); now right).
  destruct ev as [[p|p|p]|p]; cbn [turn callbackStart].
  - reflexivity.
  - reflexivity.
  - apply (proj1 (TrackerFacts.registerParticipantSpeaking_instant env p b h)).
  - elim (Hno p). now left.
Qed.

(** X12. As long as no report of a leave comes back, and so as long as the
    page reports no leave, a bot whose alone-start instant is not set never
    leaves the loop for the alone timeout, whatever its roster holds and
    however long the loop runs: the instant is set by the leave callback
    only. *)
Theorem no_alone_timeout_before_a_leave (ticks : nat) (env : Env) (b : MeetsBot)
    (h : History) :
  noLeaveReported env ->
  timeAloneStarted b = Infinity ->
  outcomeOf (meetingLoop ticks env b h) <> Resolved (Some OnlyMeLeft) /\
  timeAloneStarted (stateOf (meetingLoop ticks env b h)) = Infinity.
Proof.
  intros Hno. revert b h. induction ticks as [|ticks IH]; intros b h Hinf.
  - split; [discriminate|exact Hinf].
  - cbn [meetingLoop]. rewrite JoinFacts.bind_run.
    pose proof (loopIteration_writes env b h) as W.
    pose proof (proj1 (loopIteration_exit_reasons env b h)) as J.
    destruct (outcomeOf (loopIteration env b h)) as [[c|]|e|].
    + unfold ret, outcomeOf at 1, stateOf at 1; cbn [fst snd]. split.
      * intros E. injection E as ->. destruct (J eq_refl) as (_ & t & Ht & _).
        rewrite Hinf in Ht. discriminate Ht.
      * destruct c; rewrite W; exact Hinf.
    + destruct W as [h' W]. apply IH. rewrite W.
      rewrite runCallbacks_keeps_instant; [exact Hinf|].
      intros p. apply Hno.
    + split; [discriminate|]. unfold stateOf at 1; cbn [fst snd]. now rewrite W.
    + split; [discriminate|]. unfold stateOf at 1; cbn [fst snd]. now rewrite W.
Qed.

Lemma quietEnv_reports_no_leave (clock : Z) : noLeaveReported (quietEnv clock).
Proof. intros h p []. Defined.

Lemma no_alone_timeout_before_a_leave_witness :
  rosterSize aloneFromTheStart = 1 /\
  outcomeOf (meetingLoop 5 (quietEnv 1000000) aloneFromTheStart [])
  <> Resolved (Some OnlyMeLeft) /\
  timeAloneStarted (stateOf (meetingLoop 5 (quietEnv 1000000) aloneFromTheStart []))
  = Infinity.
Proof.
  split; [reflexivity|].
  apply (no_alone_timeout_before_a_leave 5 (quietEnv 1000000) aloneFromTheStart []
           (quietEnv_reports_no_leave 1000000)).
  reflexivity.
Defined.

Lemma runCallbacks_watching (evs : list Turn) : within watching (runCallbacks evs).
Proof.
  induction evs as [|ev evs IH]; cbn [runCallbacks]; [apply within_ret|].
  destruct ev as [[p|p|p]|p]; cbn [turn callbackStart];
    unfold onParticipantJoin, afterLeaveReport, registerParticipantSpeaking;
    within_steps ltac:(exact I); exact IH.
Qed.

Lemma loopIteration_watching : within watching loopIteration.
Proof.
  unfold loopIteration, aloneTimedOut, checkKicked, noActivity, handleInfoPopup,
    onPage, requirePage, deliverPageEvents.
  within_steps ltac:(exact I).
  all: intros env0 s0 h0; exact (runCallbacks_watching (pageEvents env0 h0) env0 s0 h0).
Qed.

(** X13. Until a leave condition holds the loop only watches: it reads the
    clock, logs, sleeps, probes the page for the signs of a kick, waits for
    and clicks the info popup and forwards the joins and leaves of the page.
    It never clicks the leave button, closes the browser, or starts or
    signals the encoder. *)
Theorem loop_only_watches (ticks : nat) (env : Env) (b : MeetsBot) (h : History) :
  exists added,
    historyOf (meetingLoop ticks env b h) = h ++ added /\
    Forall watching added /\
    (forall timeout, ~ In (Click leaveButton timeout) added) /\
    ~ In BrowserClose added /\ ~ In Spawn added /\ ~ In Kill added.
Proof.
  assert (W : within watching (meetingLoop ticks)).
  { induction ticks as [|ticks IH]; cbn [meetingLoop]; [apply within_ret|].
    apply within_bind; [apply loopIteration_watching|].
    intros [c|]; [apply within_ret|exact IH]. }
  destruct (W env b h) as (added & E & F). exists added.
  split; [exact E|]. split; [exact F|].
  pose proof (proj1 (Forall_forall _ _) F) as G.
  split; [intros timeout Hin; exact (G _ Hin)|].
  split; [intros Hin; exact (G _ Hin)|].
  split; intros Hin; exact (G _ Hin).
Qed.

End LoopMore.

(* ================================================================== *)
(** * Part XX.  More on the capture pipeline                         *)
(* ================================================================== *)

Module CaptureMore.
Import Effects EffectFacts Meet Notions MoreNotions WithinFacts RecorderFacts.
Local Open Scope bot_scope.

Lemma stopRecording_run (env : Env) (b : MeetsBot) (h : History) :
  stopRecording env b h =
  match ffmpegProcess b with
  | None =>
      (Resolved 1, b,
       (h ++ [Log "Attempting to stop the recording ..."])
         ++ [Log "No recording in progress, cannot end recording."])
  | Some _ => awaitEncoder (encoderEvents env (interrupted h)) env b (interrupted h)
  end.
Proof. unfold stopRecording. run. now destruct (ffmpegProcess b). Qed.

(** The encoder handle when [stopRecording] settles. *)
Lemma stopRecording_handle (env : Env) (b : MeetsBot) (h : History) :
  ffmpegProcess (stateOf (stopRecording env b h)) =
  match ffmpegProcess b, firstSettling (encoderEvents env (interrupted h)) with
  | Some _, Some (ExitEvent _ _) => None
  | current, _ => current
  end.
Proof.
  rewrite stopRecording_run. destruct (ffmpegProcess b) as [p|] eqn:E.
  - rewrite awaitEncoder_handle, E.
    now destruct (firstSettling _) as [[|code sg|]|].
  - unfold stateOf; cbn [fst snd]. exact E.
Qed.

(** What [startRecording] leaves behind once it resolves. *)
Lemma startRecording_spawns (env : Env) (b : MeetsBot) (h : History) :
  outcomeOf (startRecording env b h) = Resolved tt ->
  exists added,
    historyOf (startRecording env b h) = h ++ added /\
    ffmpegProcess (stateOf (startRecording env b h)) = Some handle /\
    spawns added = match ffmpegProcess b with Some _ => 0%nat | None => 1%nat end.
Proof.
  unfold startRecording, getFFmpegParams, getRecordingPath. run.
  destruct (ffmpegProcess b) as [[]|] eqn:Hp; answers; rewrite ?Hp; answers;
    try discriminate; intros _; (eexists; split; [rewrite <- ?app_assoc; reflexivity|]);
    cbn [ffmpegProcess set_ffmpegProcess]; (split; [now rewrite ?Hp|reflexivity]).
Qed.

(** X14. When [startRecording] resolves an encoder is running, and it has
    spawned exactly one encoder if none was running before and none
    otherwise. *)
Theorem startRecording_leaves_one_encoder (env : Env) (b : MeetsBot) (h : History) :
  outcomeOf (startRecording env b h) = Resolved tt ->
  exists added,
    historyOf (startRecording env b h) = h ++ added /\
    ffmpegProcess (stateOf (startRecording env b h)) = Some handle /\
    spawns added = match ffmpegProcess b with Some _ => 0%nat | None => 1%nat end.
Proof. exact (startRecording_spawns env b h). Qed.

Lemma startRecording_leaves_one_encoder_witness :
  exists added,
    historyOf (startRecording (quietEnv 0) meetLaunched []) = [] ++ added /\
    ffmpegProcess (stateOf (startRecording (quietEnv 0) meetLaunched [])) = Some handle /\
    spawns added = 1%nat.
Proof.
  apply (startRecording_leaves_one_encoder (quietEnv 0) meetLaunched []). reflexivity.
Defined.

(** X15. After [stopRecording] a recording can be started again exactly
    when the encoder has exited: a [startRecording] that resolves then spawns
    a new encoder. When [stopRecording] was settled by an error event of the
    encoder, or is not settled, the handle is still set and [startRecording]
    spawns nothing. *)
Theorem restart_needs_the_exit (env : Env) (b : MeetsBot) (h : History) (p : Handle) :
  ffmpegProcess b = Some p ->
  outcomeOf (startRecording env (stateOf (stopRecording env b h))
               (historyOf (stopRecording env b h))) = Resolved tt ->
  exists added,
    historyOf (startRecording env (stateOf (stopRecording env b h))
                 (historyOf (stopRecording env b h)))
    = historyOf (stopRecording env b h) ++ added /\
    spawns added = match firstSettling (encoderEvents env (interrupted h)) with
                   | Some (ExitEvent _ _) => 1%nat
                   | _ => 0%nat
                   end.
Proof.
  intros Hp Hok. destruct (startRecording_spawns env _ _ Hok) as (added & E & _ & N).
  exists added. split; [exact E|]. rewrite N, stopRecording_handle, Hp.
  now destruct (firstSettling _) as [[|code sg|]|].
Qed.

Lemma restart_needs_the_exit_witness :
  exists added,
    historyOf (startRecording (encoderExits (Some 0) None)
                 (stateOf (stopRecording (encoderExits (Some 0) None) recording []))
                 (historyOf (stopRecording (encoderExits (Some 0) None) recording [])))
    = historyOf (stopRecording (encoderExits (Some 0) None) recording []) ++ added /\
    spawns added = 1%nat.
Proof.
  apply (restart_needs_the_exit (encoderExits (Some 0) None) recording [] handle);
    reflexivity.
Defined.

End CaptureMore.

(* ================================================================== *)
(** * Part XXI.  More on the cleanup                                 *)
(* ================================================================== *)

Module CleanupMore.
Import Effects EffectFacts Notions MoreNotions WithinFacts.
Local Open Scope bot_scope.

(** ** Meet *)

Lemma awaitEncoder_keeps_browser (evs : list ProcEvent) :
  preserves (kept Meet.browser) (Meet.awaitEncoder evs).
Proof.
  induction evs as [|[|code sg|] evs IH]; cbn [Meet.awaitEncoder]; unfold Meet.onStderrData;
    preserves_steps (@kept_refl Meet.MeetsBot _ Meet.browser)
      (@kept_trans Meet.MeetsBot _ Meet.browser)
      (@kept_call Meet.MeetsBot _ Meet.browser) ltac:(reflexivity); exact IH.
Qed.

Lemma stopRecording_keeps_browser : preserves (kept Meet.browser) Meet.stopRecording.
Proof.
  unfold Meet.stopRecording.
  preserves_steps (@kept_refl Meet.MeetsBot _ Meet.browser)
    (@kept_trans Meet.MeetsBot _ Meet.browser)
    (@kept_call Meet.MeetsBot _ Meet.browser) ltac:(reflexivity).
  intros env0 s0 h0. exact (awaitEncoder_keeps_browser (encoderEvents env0 h0) env0 s0 h0).
Qed.

Lemma awaitEncoder_never_closes (evs : list ProcEvent) :
  within (fun c => c <> BrowserClose) (Meet.awaitEncoder evs).
Proof.
  induction evs as [|[|code sg|] evs IH]; cbn [Meet.awaitEncoder]; unfold Meet.onStderrData;
    within_steps ltac:(discriminate); exact IH.
Qed.

Lemma stopRecording_never_closes : within (fun c => c <> BrowserClose) Meet.stopRecording.
Proof.
  unfold Meet.stopRecording. within_steps ltac:(discriminate).
  intros env0 s0 h0. exact (awaitEncoder_never_closes (encoderEvents env0 h0) env0 s0 h0).
Qed.

(** X16. With the browser launched, [endLife] closes the browser exactly
    when its [stopRecording] settles: as long as the encoder neither exits
    nor reports an error after the interrupt, [endLife] stays pending and
    the browser stays open. *)
Theorem endLife_closes_browser_once_encoder_settles (env : Env) (b : Meet.MeetsBot)
    (h : History) (p : Handle) :
  Meet.browser b = Some p ->
  exists added,
    historyOf (Meet.endLife env b h) = h ++ added /\
    (In BrowserClose added <->
     exists status,
       outcomeOf (Meet.stopRecording env b (h ++ [Log "Stopping Recording ..."]))
       = Resolved status) /\
    (outcomeOf (Meet.stopRecording env b (h ++ [Log "Stopping Recording ..."])) = Pending ->
     outcomeOf (Meet.endLife env b h) = Pending).
Proof.
  intros Hb. unfold Meet.endLife. unfold bind at 1, log at 1, note at 1.
  rewrite JoinFacts.bind_run.
  set (h1 := h ++ [Log "Stopping Recording ..."]).
  pose proof (stopRecording_keeps_browser env b h1) as K. unfold kept in K. cbn [fst] in K.
  destruct (stopRecording_never_closes env b h1) as (a1 & E1 & F1).
  pose proof (proj1 (Forall_forall _ _) F1) as G1.
  rewrite E1. rewrite Hb in K.
  generalize dependent (stateOf (Meet.stopRecording env b h1)). intros s1 K.
  destruct (outcomeOf (Meet.stopRecording env b h1)) as [status|e|] eqn:Eo.
  - run. rewrite K.
    match goal with |- context [rejects env ?hh BrowserClose] =>
      destruct (rejects env hh BrowserClose) end; cbn [snd].
    + exists ((Log "Stopping Recording ..." :: a1) ++ [Log "Done."; BrowserClose]).
      split; [unfold h1; rewrite <- !app_assoc; reflexivity|].
      split; [|discriminate]. split; [intros _; now exists status|intros _].
      apply in_or_app. right. cbn. tauto.
    + exists ((Log "Stopping Recording ..." :: a1)
                ++ [Log "Done."; BrowserClose; Log "Closed Browser."]).
      split; [unfold h1; rewrite <- !app_assoc; reflexivity|].
      split; [|discriminate]. split; [intros _; now exists status|intros _].
      apply in_or_app. right. cbn. tauto.
  - unfold historyOf at 1; cbn [snd].
    exists (Log "Stopping Recording ..." :: a1).
    split; [unfold h1; now rewrite <- app_assoc|].
    split; [|discriminate]. split; [|intros [status E]; discriminate E].
    intros [H|H]; [discriminate H|]. now elim (G1 _ H).
  - unfold historyOf at 1; cbn [snd].
    exists (Log "Stopping Recording ..." :: a1).
    split; [unfold h1; now rewrite <- app_assoc|].
    split; [|intros _; unfold bind at 1, log at 1, note at 1;
              rewrite JoinFacts.bind_run; fold h1; now rewrite Eo].
    split; [|intros [status E]; discriminate E].
    intros [H|H]; [discriminate H|]. now elim (G1 _ H).
Qed.

Lemma endLife_closes_browser_once_encoder_settles_witness :
  exists added,
    historyOf (Meet.endLife (quietEnv 0) recording []) = [] ++ added /\
    (In BrowserClose added <->
     exists status,
       outcomeOf (Meet.stopRecording (quietEnv 0) recording
                    ([] ++ [Log "Stopping Recording ..."])) = Resolved status) /\
    (outcomeOf (Meet.stopRecording (quietEnv 0) recording
                  ([] ++ [Log "Stopping Recording ..."])) = Pending ->
     outcomeOf (Meet.endLife (quietEnv 0) recording []) = Pending).
Proof.
  apply (endLife_closes_browser_once_encoder_settles (quietEnv 0) recording [] handle).
  reflexivity.
Defined.

(** ** Teams *)

(** X17. Once [endLife] has been started, every later [endLife] does
    nothing, whatever the answers of the page and of the browser then: also
    when the first one failed to close the browser, no second attempt is
    made. *)
Theorem Teams_endLife_runs_once (env env' : Env) (b : Teams.TeamsBot) (h h' : History) :
  Teams.endLife env' (stateOf (Teams.endLife env b h)) h'
  = (Resolved tt, stateOf (Teams.endLife env b h), h').
Proof.
  apply CleanupFacts.Teams_endLife_ended. apply CleanupFacts.Teams_endLife_sets_ended.
Qed.

(** What the first [endLife] of the Teams bot does, whatever fails. *)
Lemma Teams_endLife_effects (env : Env) (b : Teams.TeamsBot) (h : History) :
  Teams.ended b = false ->
  exists added,
    historyOf (Teams.endLife env b h) = h ++ added /\
    Teams.file (stateOf (Teams.endLife env b h)) = None /\
    (Teams.file b <> None -> In FileClose added) /\
    (Teams.stream b <> None -> In StreamDestroy added) /\
    (Teams.browser b <> None -> In BrowserClose added) /\
    outcomeOf (Teams.endLife env b h) <> Pending.
Proof.
  intros He. unfold Teams.endLife, Teams.stopRecording, Teams.onPage, Teams.requirePage.
  run. rewrite He.
  destruct (Teams.page b) as [[]|] eqn:Ep, (Teams.file b) as [[]|] eqn:Ef,
    (Teams.stream b) as [[]|] eqn:Es, (Teams.browser b) as [[]|] eqn:Eb;
    repeat (progress (cbn [Teams.page Teams.file Teams.stream Teams.browser
                           Teams.set_file Teams.set_ended fst snd];
                      rewrite ?Ep, ?Ef, ?Es, ?Eb; answers));
    (eexists; split; [rewrite <- ?app_assoc; reflexivity|]);
    cbn [Teams.file Teams.set_file Teams.set_ended];
    (split; [first [reflexivity|exact Ef]|]);
    (split; [intros H; first [now elim H|cbn; tauto]|]);
    (split; [intros H; first [now elim H|cbn; tauto]|]);
    (split; [intros H; first [now elim H|cbn; tauto]|discriminate]).
Qed.

(** X18. Whatever [startRecording] of the Teams bot has opened is released
    by the first [endLife], whichever of its calls fail: the capture stream
    is destroyed, the recording file is closed and [file] is cleared. *)
Theorem Teams_endLife_releases_capture (env env' : Env) (b : Teams.TeamsBot) (h : History) :
  Teams.ended b = false ->
  outcomeOf (Teams.startRecording env b h) = Resolved tt ->
  exists added,
    historyOf (Teams.endLife env' (stateOf (Teams.startRecording env b h))
                 (historyOf (Teams.startRecording env b h)))
    = historyOf (Teams.startRecording env b h) ++ added /\
    In StreamDestroy added /\ In FileClose added /\
    Teams.file (stateOf (Teams.endLife env' (stateOf (Teams.startRecording env b h))
                           (historyOf (Teams.startRecording env b h)))) = None.
Proof.
  intros He Hok.
  assert (Hs : Teams.ended (stateOf (Teams.startRecording env b h)) = false /\
               Teams.file (stateOf (Teams.startRecording env b h)) = Some handle /\
               Teams.stream (stateOf (Teams.startRecording env b h)) = Some handle).
  { revert Hok. unfold Teams.startRecording. run.
    destruct (Teams.page b); [|discriminate]. answers; try discriminate.
    intros _. cbn. now rewrite He. }
  destruct Hs as (He' & Hf & Hst).
  destruct (Teams_endLife_effects env' _ (historyOf (Teams.startRecording env b h)) He')
    as (added & E & F0 & Ff & Fs & _).
  exists added. split; [exact E|]. split; [|split; [|exact F0]].
  - apply Fs. rewrite Hst. discriminate.
  - apply Ff. rewrite Hf. discriminate.
Qed.

Lemma Teams_endLife_releases_capture_witness :
  exists added,
    historyOf (Teams.endLife closeFails
                 (stateOf (Teams.startRecording (quietEnv 0) teamsJoined []))
                 (historyOf (Teams.startRecording (quietEnv 0) teamsJoined [])))
    = historyOf (Teams.startRecording (quietEnv 0) teamsJoined []) ++ added /\
    In StreamDestroy added /\ In FileClose added /\
    Teams.file (stateOf (Teams.endLife closeFails
                           (stateOf (Teams.startRecording (quietEnv 0) teamsJoined []))
                           (historyOf (Teams.startRecording (quietEnv 0) teamsJoined []))))
    = None.
Proof.
  apply (Teams_endLife_releases_capture (quietEnv 0) closeFails teamsJoined []);
    reflexivity.
Defined.

(** ** Zoom *)

(** X19. Whatever [startRecording] of the Zoom bot has opened is released
    by [endLife], whichever of its calls fail: the capture stream is
    destroyed, the recording file is closed and [file] is cleared. The
    websocket server is closed only after the browser was closed. *)
Theorem Zoom_endLife_releases_capture (env env' : Env) (b : Zoom.ZoomBot) (h : History) :
  outcomeOf (Zoom.startRecording env b h) = Resolved tt ->
  exists added,
    historyOf (Zoom.endLife env' (stateOf (Zoom.startRecording env b h))
                 (historyOf (Zoom.startRecording env b h)))
    = historyOf (Zoom.startRecording env b h) ++ added /\
    In StreamDestroy added /\ In FileClose added /\
    (In WssClose added -> In BrowserClose added) /\
    Zoom.file (stateOf (Zoom.endLife env' (stateOf (Zoom.startRecording env b h))
                          (historyOf (Zoom.startRecording env b h)))) = None.
Proof.
  unfold Zoom.startRecording, Zoom.endLife, Zoom.stopRecording. run.
  destruct (Zoom.page b); [|discriminate]. answers; try discriminate.
  intros _. cbn [Zoom.file Zoom.stream Zoom.browser Zoom.set_file Zoom.set_stream].
  destruct (Zoom.browser b) as [[]|]; answers;
    (eexists; split; [rewrite <- ?app_assoc; reflexivity|]); cbn;
    intuition (auto; discriminate).
Qed.

Lemma Zoom_endLife_releases_capture_witness :
  exists added,
    historyOf (Zoom.endLife closeFails
                 (stateOf (Zoom.startRecording (quietEnv 0) zoomJoined []))
                 (historyOf (Zoom.startRecording (quietEnv 0) zoomJoined [])))
    = historyOf (Zoom.startRecording (quietEnv 0) zoomJoined []) ++ added /\
    In StreamDestroy added /\ In FileClose added /\
    (In WssClose added -> In BrowserClose added) /\
    Zoom.file (stateOf (Zoom.endLife closeFails
                          (stateOf (Zoom.startRecording (quietEnv 0) zoomJoined []))
                          (historyOf (Zoom.startRecording (quietEnv 0) zoomJoined []))))
    = None.
Proof.
  apply (Zoom_endLife_releases_capture (quietEnv 0) closeFails zoomJoined []).
  reflexivity.
Defined.

End CleanupMore.

(* ================================================================== *)
(** * Part XXII.  More on the join procedure                         *)
(* ================================================================== *)

Module JoinMore.
Import Effects EffectFacts Notions MoreNotions WithinFacts JoinFacts.
Local Open Scope bot_scope.

(** ** Meet *)

Ltac join_answers H :=
  repeat first
    [ progress cbn [Meet.page Meet.set_page Meet.set_browser Meet.settings fst snd]
    | match goal with
      | |- context [if flag ?env ?hh ?c then _ else _] =>
          destruct (flag env hh c)
      | |- context [match rejects ?env ?hh ?c with _ => _ end] =>
          let E := fresh "E" in
          destruct (rejects env hh c) eqn:E;
          [ try (exfalso; destruct (H hh c) as [timeout [X|X]];
                 [rewrite E; discriminate|discriminate X|discriminate X]) | ]
      end ].

(** X20. [joinMeeting] does not depend on the microphone and the camera
    buttons: when every other call resolves, it resolves with 0 and reports
    the join, whether or not the two clicks fail. *)
Theorem Meet_join_survives_mute_and_camera (env : Env) (b : Meet.MeetsBot) (h : History) :
  onlyMuteAndCameraFail env ->
  outcomeOf (Meet.joinMeeting env b h) = Resolved 0 /\
  In (OnEvent JOINING_CALL) (historyOf (Meet.joinMeeting env b h)).
Proof.
  intros H. unfold Meet.joinMeeting, Meet.joinUntilEntryClick, Meet.awaitEntry,
    Meet.launchBrowser, Meet.onPage, Meet.requirePage.
  run. cbn [Meet.page Meet.set_page Meet.set_browser].
  join_answers H; (split; [reflexivity|]); apply in_or_app; right; now left.
Qed.

Lemma alreadyMuted_fails_there_only : onlyMuteAndCameraFail alreadyMuted.
Proof.
  intros h c Hc. destruct c; try (now elim Hc).
  match goal with
  | Hc : rejects _ _ (Click ?s ?t) <> None |- _ =>
      exists t; destruct s; try (now elim Hc); tauto
  end.
Defined.

Lemma Meet_join_survives_mute_and_camera_witness :
  outcomeOf (Meet.joinMeeting alreadyMuted (Meet.newMeetsBot sampleSettings) [])
  = Resolved 0 /\
  In (OnEvent JOINING_CALL)
    (historyOf (Meet.joinMeeting alreadyMuted (Meet.newMeetsBot sampleSettings) [])).
Proof.
  apply (Meet_join_survives_mute_and_camera alreadyMuted (Meet.newMeetsBot sampleSettings) []
           alreadyMuted_fails_there_only).
Defined.

Lemma Meet_prelude_reports_nothing :
  within (fun c => forall code, c <> OnEvent code) Meet.joinUntilEntryClick.
Proof.
  unfold Meet.joinUntilEntryClick, Meet.launchBrowser, Meet.onPage, Meet.requirePage.
  within_steps ltac:(discriminate).
Qed.

(** X21. [joinMeeting] reports the join to the backend at most once, as
    its last call, and only after the wait for the leave button has resolved:
    a join that fails before or in the waiting room reports nothing. *)
Theorem Meet_join_reported_after_signal (env : Env) (b : Meet.MeetsBot) (h : History) :
  exists added,
    historyOf (Meet.joinMeeting env b h) = h ++ added /\
    (forall code, In (OnEvent code) added ->
       code = JOINING_CALL /\
       exists before,
         added = before ++ [meetWait b; Log "Joined Call."; OnEvent JOINING_CALL] /\
         rejects env (h ++ before) (meetWait b) = None /\
         forall code', ~ In (OnEvent code') before).
Proof.
  unfold Meet.joinMeeting. rewrite bind_run.
  destruct (Meet_prelude_reports_nothing env b h) as (a1 & E1 & F1).
  pose proof (proj1 (Forall_forall _ _) F1) as G1.
  pose proof (Meet_prelude_page env b h) as P.
  destruct (outcomeOf (Meet.joinUntilEntryClick env b h)) as [[]|e|].
  - destruct (P eq_refl) as [Pp Ps].
    rewrite (Meet_awaitEntry_run env _ _ handle Pp). cbv zeta.
    replace (meetWait (stateOf (Meet.joinUntilEntryClick env b h))) with (meetWait b)
      by (unfold meetWait; now rewrite Ps).
    rewrite E1.
    destruct (rejects env _ (meetWait b)) as [e|] eqn:Ew.
    + exists (a1 ++ [Log "Awaiting Entry ...."; meetWait b]).
      split; [unfold historyOf; cbn [snd]; now rewrite <- !app_assoc|].
      intros code Hin. exfalso. apply in_app_or in Hin.
      destruct Hin as [Hin|[Hin|[Hin|[]]]]; [now apply (G1 _ Hin code)| |];
        discriminate Hin.
    + exists (a1 ++ [Log "Awaiting Entry ...."; meetWait b; Log "Joined Call.";
                      OnEvent JOINING_CALL]).
      split; [unfold historyOf; cbn [snd]; now rewrite <- !app_assoc|].
      intros code Hin. apply in_app_or in Hin.
      destruct Hin as [Hin|[Hin|[Hin|[Hin|[Hin|[]]]]]];
        [now elim (G1 _ Hin code)|discriminate Hin|discriminate Hin|discriminate Hin|].
      injection Hin as <-. split; [reflexivity|].
      exists (a1 ++ [Log "Awaiting Entry ...."]).
      split; [now rewrite <- !app_assoc|]. split.
      * rewrite <- Ew. f_equal. now rewrite <- !app_assoc.
      * intros code' Hin. apply in_app_or in Hin.
        destruct Hin as [Hin|[Hin|[]]]; [now apply (G1 _ Hin code')|discriminate Hin].
  - exists a1. split; [exact E1|]. intros code Hin. now elim (G1 _ Hin code).
  - exists a1. split; [exact E1|]. intros code Hin. now elim (G1 _ Hin code).
Qed.

(** ** Teams *)

Lemma fillDisplayName_reads : preserves (kept (fun s : Teams.TeamsBot => s)) Teams.fillDisplayName.
Proof.
  unfold Teams.fillDisplayName, Teams.requirePage.
  preserves_steps (@kept_refl Teams.TeamsBot _ (fun s : Teams.TeamsBot => s))
    (@kept_trans Teams.TeamsBot _ (fun s : Teams.TeamsBot => s))
    (@kept_call Teams.TeamsBot _ (fun s : Teams.TeamsBot => s)) ltac:(reflexivity).
Qed.

Lemma fillDisplayName_settles (env : Env) (b : Teams.TeamsBot) (h : History) :
  exists done, outcomeOf (Teams.fillDisplayName env b h) = Resolved done.
Proof.
  unfold Teams.fillDisplayName, Teams.requirePage. run.
  destruct (Teams.page b);
    repeat first
      [ progress cbn [negb fst snd]
      | match goal with
        | |- context [flag ?e ?hh ?c] => destruct (flag e hh c)
        | |- context [rejects ?e ?hh ?c] => destruct (rejects e hh c)
        end ];
    eauto.
Qed.

(** The loop that fills in the display name never fails and writes nothing
    to the bot. *)
Lemma fillLoop_resolves (attempt : Z) (remaining : nat) (env : Env) (b : Teams.TeamsBot)
    (h : History) :
  outcomeOf (Teams.fillLoop attempt remaining env b h) = Resolved tt /\
  stateOf (Teams.fillLoop attempt remaining env b h) = b.
Proof.
  revert attempt b h. induction remaining as [|n IH]; intros attempt b h; [now split|].
  cbn [Teams.fillLoop]. rewrite bind_run.
  destruct (fillDisplayName_settles env b h) as [done Ed]. rewrite Ed.
  pose proof (fillDisplayName_reads env b h) as K. unfold kept in K; cbn [fst] in K.
  rewrite K. destruct done; [now split|].
  rewrite bind_run.
  destruct (attempt <? 4); unfold note, log, outcomeOf at 1, stateOf at 1 3, historyOf at 1 3;
    cbn [fst snd]; apply IH.
Qed.

(** X22. The steps of [joinProcedure] that the join depends on are the wait
    for the name field and the click on the join button: with the page open,
    when these two resolve [joinProcedure] resolves, whatever happens to the
    attempts to fill in the display name and to the microphone button. *)
Theorem Teams_join_depends_on_two_steps (env : Env) (b : Teams.TeamsBot) (h : History)
    (p : Handle) :
  Teams.page b = Some p ->
  rejects env h (WaitForSelector displayNameSelector (Some 15000)) = None ->
  (forall h', rejects env h' (Click prejoinJoinButton None) = None) ->
  outcomeOf (Teams.joinProcedure env b h) = Resolved tt /\
  In (Click prejoinJoinButton None) (historyOf (Teams.joinProcedure env b h)).
Proof.
  intros Hp Hw Hj.
  assert (R : exists s' h', Teams.joinProcedure env b h = (Resolved tt, s', h') /\
                            In (Click prejoinJoinButton None) h').
  { unfold Teams.joinProcedure.
    unfold bind at 1, Teams.onPage at 1, Teams.requirePage at 1, bind at 1 2, gets at 1.
    rewrite Hp. unfold ret at 1, perform at 1. rewrite Hw.
    rewrite bind_run. destruct (fillLoop_resolves 1 4 env b
      (h ++ [WaitForSelector displayNameSelector (Some 15000)])) as [Ef Es].
    rewrite Ef, Es. clear Ef Es.
    generalize (historyOf (Teams.fillLoop 1 4 env b
                  (h ++ [WaitForSelector displayNameSelector (Some 15000)]))).
    intros h1. unfold Teams.onPage, Teams.requirePage. run.
    repeat first
      [ progress cbn [fst snd]
      | progress rewrite ?Hp, ?Hj
      | match goal with
        | |- context [match rejects ?e ?hh ?c with _ => _ end] => destruct (rejects e hh c)
        end ];
      (do 2 eexists; split; [reflexivity|]); repeat (rewrite in_app_iff); cbn [In];
      auto 10. }
  destruct R as (s' & h' & R & Hin). rewrite R. now split.
Qed.

Lemma Teams_join_depends_on_two_steps_witness :
  outcomeOf (Teams.joinProcedure (quietEnv 0) teamsJoined []) = Resolved tt /\
  In (Click prejoinJoinButton None) (historyOf (Teams.joinProcedure (quietEnv 0) teamsJoined [])).
Proof.
  apply (Teams_join_depends_on_two_steps (quietEnv 0) teamsJoined [] handle); reflexivity.
Defined.

(** ** Both *)

(** X23. [joinMeeting] never closes the browser, on Meet and on Teams:
    when the join fails, the browser that was launched is left open. *)
Theorem join_never_closes_the_browser (env : Env) (b : Meet.MeetsBot) (tb : Teams.TeamsBot)
    (h : History) :
  (exists added, historyOf (Meet.joinMeeting env b h) = h ++ added /\
                 ~ In BrowserClose added) /\
  (exists added, historyOf (Teams.joinMeeting env tb h) = h ++ added /\
                 ~ In BrowserClose added).
Proof.
  assert (M : within (fun c => c <> BrowserClose) Meet.joinMeeting).
  { unfold Meet.joinMeeting, Meet.joinUntilEntryClick, Meet.awaitEntry, Meet.launchBrowser,
      Meet.onPage, Meet.requirePage.
    within_steps ltac:(discriminate). }
  assert (T : within (fun c => c <> BrowserClose) Teams.joinMeeting).
  { unfold Teams.joinMeeting, Teams.joinUntilWaitingRoom, Teams.awaitEntry,
      Teams.launchBrowser, Teams.joinProcedure, Teams.onPage, Teams.requirePage.
    cbn [Teams.fillLoop]. unfold Teams.fillDisplayName, Teams.requirePage.
    within_steps ltac:(discriminate). }
  split.
  - destruct (M env b h) as (added & E & F). exists added. split; [exact E|].
    intros Hin. now apply (proj1 (Forall_forall _ _) F _ Hin).
  - destruct (T env tb h) as (added & E & F). exists added. split; [exact E|].
    intros Hin. now apply (proj1 (Forall_forall _ _) F _ Hin).
Qed.

End JoinMore.

(* ================================================================== *)
(** * Part XXIII.  The polls of the Teams bot                        *)
(* ================================================================== *)

Module TeamsMore.
Import Effects EffectFacts Teams TeamsWatch Notions MoreNotions WithinFacts.
Local Open Scope bot_scope.

(** ** The watcher of the end of the meeting *)

Lemma repeat_snoc {A : Type} (x : A) (n : nat) : repeat x n ++ [x] = x :: repeat x n.
Proof. induction n as [|n IH]; [reflexivity|]. cbn. now rewrite IH. Qed.

Lemma checkForMeetingEnded_step (polls : nat) (env : Env) (b : TeamsBot) (h : History)
    (p : Handle) :
  page b = Some p ->
  checkForMeetingEnded (S polls) env b h =
  match rejects env h endedWait with
  | Some _ => (Resolved tt, b, h ++ [endedWait])
  | None => checkForMeetingEnded polls env b (h ++ [endedWait])
  end.
Proof.
  intros Hp. cbn [checkForMeetingEnded]. unfold tryCatch, bind at 1, onPage, requirePage.
  unfold bind at 1 2, gets at 1. rewrite Hp. unfold ret at 1, perform at 1, endedWait.
  destruct (rejects env h _); [reflexivity|].
  destruct polls as [|polls]; [reflexivity|].
  cbn [checkForMeetingEnded]. unfold tryCatch.
  now destruct (bind _ _ env b _) as [[[[]|e|] s'] h'].
Qed.

(** X24. With the page open, [checkForMeetingEnded] resolves at the first
    wait for the leave button that fails, after that wait and without writing
    to the bot; as long as the waits resolve it keeps waiting. *)
Theorem checkForMeetingEnded_resolves_at_first_failed_wait (polls k : nat) (env : Env)
    (b : TeamsBot) (h : History) (p : Handle) :
  page b = Some p ->
  (forall j, (j < k)%nat -> rejects env (h ++ repeat endedWait j) endedWait = None) ->
  ((k < polls)%nat -> rejects env (h ++ repeat endedWait k) endedWait <> None ->
   checkForMeetingEnded polls env b h = (Resolved tt, b, h ++ repeat endedWait (S k))) /\
  (k = polls ->
   checkForMeetingEnded polls env b h = (Pending, b, h ++ repeat endedWait polls)).
Proof.
  intros Hp. revert k h. induction polls as [|polls IH]; intros k h Hok.
  - split; [intros Hk; inversion Hk|]. intros _. cbn. now rewrite app_nil_r.
  - rewrite (checkForMeetingEnded_step polls env b h p Hp). destruct k as [|k].
    + split; [|discriminate]. intros _ Hfail. cbn [repeat] in Hfail.
      rewrite app_nil_r in Hfail. now destruct (rejects env h endedWait).
    + pose proof (Hok 0%nat (Nat.lt_0_succ k)) as H0. cbn [repeat] in H0.
      rewrite app_nil_r in H0. rewrite H0.
      assert (Hok' : forall j, (j < k)%nat ->
                rejects env ((h ++ [endedWait]) ++ repeat endedWait j) endedWait = None).
      { intros j Hj. rewrite <- app_assoc. cbn [app].
        apply (Hok (S j)). now apply -> Nat.succ_lt_mono. }
      destruct (IH k (h ++ [endedWait]) Hok') as [I1 I2]. split.
      * intros Hk Hfail. rewrite I1.
        -- now rewrite <- app_assoc.
        -- now apply Nat.succ_lt_mono.
        -- rewrite <- app_assoc. exact Hfail.
      * intros E. injection E as E. rewrite (I2 E). now rewrite <- app_assoc.
Qed.

Lemma checkForMeetingEnded_resolves_at_first_failed_wait_witness :
  checkForMeetingEnded 10 goneAtThirdWait teamsJoined []
  = (Resolved tt, teamsJoined, [] ++ repeat endedWait 3).
Proof.
  assert (Hok : forall j, (j < 2)%nat ->
            rejects goneAtThirdWait ([] ++ repeat endedWait j) endedWait = None).
  { intros [|[|j]] Hj; [reflexivity|reflexivity|lia]. }
  apply (proj1 (checkForMeetingEnded_resolves_at_first_failed_wait 10 2 goneAtThirdWait
                  teamsJoined [] handle eq_refl Hok)).
  - lia.
  - discriminate.
Defined.

(** ** The roster poll *)

Lemma Teams_endLife_grows : preserves grown endLife.
Proof. unfold endLife, stopRecording, onPage, requirePage. grows TeamsBot. Qed.

(** X25. A roster poll always resolves: whatever fails while the page is
    read is caught and logged, and the alone check it starts is not
    awaited. *)
Theorem updateParticipants_always_resolves (env : Env) (b : TeamsBot) (h : History) :
  outcomeOf (updateParticipants env b h) = Resolved tt.
Proof.
  unfold updateParticipants, requirePage. run.
  destruct (page b); [|reflexivity].
  destruct (rejects env h EvaluateParticipants); [reflexivity|].
  cbn [participants set_participants timeAloneStarted].
  destruct (Z.of_nat (List.length (names env h EvaluateParticipants)) >? 1).
  - match goal with |- context [aloneCheck env ?s ?hh] =>
      destruct (aloneCheck env s hh) as [[o s'] h'] end. reflexivity.
  - destruct (timeAloneStarted b);
      match goal with |- context [aloneCheck env ?s ?hh] =>
        destruct (aloneCheck env s hh) as [[o s'] h'] end; reflexivity.
Qed.

(** X26. With the page open, the alone check clicks the leave button
    exactly when the alone-start instant is a number more than the limit
    before the clock reading. *)
Theorem aloneCheck_leaves_when_alone_too_long (env : Env) (b : TeamsBot) (h : History)
    (p : Handle) :
  page b = Some p ->
  exists added,
    historyOf (aloneCheck env b h) = h ++ added /\
    (In (Click leaveButtonSelector None) added <->
     exists t, timeAloneStarted b = At t /\ teamsAloneLimit b < number env h DateNow - t).
Proof.
  intros Hp. unfold aloneCheck, leave, onPage, requirePage, teamsAloneLimit. run.
  destruct (timeAloneStarted b) as [t|]; cbn [elapsedExceeds].
  - destruct (_ >? _) eqn:Ex.
    + apply Z.gtb_lt in Ex. rewrite Hp.
      match goal with |- context [rejects env ?hh (Click leaveButtonSelector None)] =>
        destruct (rejects env hh (Click leaveButtonSelector None)) end.
      * match goal with |- context [endLife env ?s ?hh] =>
          destruct (Teams_endLife_grows env s hh) as [more E]; unfold historyOf in E;
          cbn [snd] in E; destruct (endLife env s hh) as [[o s'] h'];
          cbn [snd] in *; subst h' end.
        eexists. split; [rewrite <- !app_assoc; reflexivity|].
        split; [intros _; now exists t|intros _]. cbn. tauto.
      * eexists. split; [rewrite <- !app_assoc; reflexivity|].
        split; [intros _; now exists t|intros _]. cbn. tauto.
    + eexists. split; [rewrite <- !app_assoc; reflexivity|].
      split.
      * intros [H|[H|[]]]; discriminate H.
      * intros (t' & E & Hlt). injection E as <-.
        apply Z.gtb_lt in Hlt. rewrite Hlt in Ex. discriminate Ex.
  - exists [DateNow]. split; [reflexivity|]. split.
    + intros [H|[]]. discriminate H.
    + intros (t & E & _). discriminate E.
Qed.

Lemma aloneCheck_leaves_when_alone_too_long_witness :
  exists added,
    historyOf (aloneCheck (quietEnv 5000) teamsAlone []) = [] ++ added /\
    (In (Click leaveButtonSelector None) added <->
     exists t, timeAloneStarted teamsAlone = At t /\
               teamsAloneLimit teamsAlone < number (quietEnv 5000) [] DateNow - t).
Proof.
  apply (aloneCheck_leaves_when_alone_too_long (quietEnv 5000) teamsAlone [] handle).
  reflexivity.
Defined.

End TeamsMore.

(* ================================================================== *)
(** * Part XXIV.  The probes of the kick                             *)
(* ================================================================== *)

Module KickMore.
Import Effects EffectFacts Meet Notions MoreNotions WithinFacts.
Local Open Scope bot_scope.

(** X27. With the page open [checkKicked] never rejects: a probe that
    fails counts as its default. It answers [false] only when the probe of
    the leave button has resolved and has found the button not hidden; when
    that probe fails, the bot counts as kicked. *)
Theorem checkKicked_needs_the_leave_button (env : Env) (b : MeetsBot) (h : History)
    (p : Handle) :
  page b = Some p ->
  (exists answer, outcomeOf (checkKicked env b h) = Resolved answer) /\
  (outcomeOf (checkKicked env b h) = Resolved false ->
   rejects env (h ++ [LocatorCount gotKickedDetector]) (LocatorIsHidden leaveButton) = None /\
   flag env (h ++ [LocatorCount gotKickedDetector]) (LocatorIsHidden leaveButton) = false) /\
  (rejects env (h ++ [LocatorCount gotKickedDetector]) (LocatorIsHidden leaveButton) <> None ->
   outcomeOf (checkKicked env b h) = Resolved true).
Proof.
  intros Hp. unfold checkKicked, requirePage. run.
  repeat first
    [ progress cbn [fst snd]
    | progress rewrite ?Hp
    | match goal with
      | |- context [match rejects ?e ?hh ?c with _ => _ end] =>
          let E := fresh "E" in destruct (rejects e hh c) eqn:E
      | |- context [if flag ?e ?hh ?c then _ else _] =>
          let E := fresh "E" in destruct (flag e hh c) eqn:E
      | |- context [if ?n >? 0 then _ else _] => destruct (n >? 0)
      end ];
    (split; [eexists; reflexivity|]);
    (split; [intros H; first [discriminate H|now split]
            |intros H; first [reflexivity|now elim H]]).
Qed.

Lemma checkKicked_needs_the_leave_button_witness :
  outcomeOf (checkKicked probeFails withAda []) = Resolved true /\
  outcomeOf (checkKicked (quietEnv 0) withAda []) = Resolved false.
Proof.
  split.
  - apply (proj2 (proj2 (checkKicked_needs_the_leave_button probeFails withAda [] handle
                           eq_refl))).
    discriminate.
  - reflexivity.
Defined.

End KickMore.

(* ================================================================== *)
(** * Part XXV.  The observers in the page                           *)
(* ================================================================== *)

Module PageMore.
Import Effects EffectFacts Meet MeetPage Notions MoreNotions.
Local Open Scope bot_scope.

Lemma rosterAfter_app (calls more : list PageEvent) (roster : list Participant) :
  rosterAfter (calls ++ more) roster = rosterAfter more (rosterAfter calls roster).
Proof.
  revert roster. induction calls as [|[p|p|p] calls IH]; intros roster; cbn [app rosterAfter];
    [reflexivity|apply IH..].
Qed.

Lemma inStep_refl (r : Run) : inStep r r.
Proof. intros _. exists []. now rewrite app_nil_r. Qed.

Lemma inStep_trans (r1 r2 r3 : Run) :
  (threw r3 = false -> threw r2 = false) -> inStep r1 r2 -> inStep r2 r3 -> inStep r1 r3.
Proof.
  intros Hsticky H12 H23 H3. destruct (H23 H3) as (c2 & E2 & A2).
  destruct (H12 (Hsticky H3)) as (c1 & E1 & A1). exists (c1 ++ c2).
  split; [now rewrite E2, E1, app_assoc|]. now rewrite A2, A1, rosterAfter_app.
Qed.

(** Once a callback has thrown, the rest of the loop is not run. *)
Lemma forEach_thrown {X : Type} (step : X -> Run -> Run) (xs : list X) (r : Run) :
  threw r = true -> forEach step xs r = r.
Proof.
  intros Ht. induction xs as [|x xs IH]; [reflexivity|].
  unfold forEach in *. cbn [fold_left]. unfold unlessThrown at 2. now rewrite Ht.
Qed.

Lemma forEach_inStep {X : Type} (step : X -> Run -> Run) (xs : list X) :
  (forall x r, threw r = false -> inStep r (step x r)) ->
  forall r, threw r = false -> inStep r (forEach step xs r).
Proof.
  intros Hstep. induction xs as [|x xs IH]; intros r Hr; [apply inStep_refl|].
  change (forEach step (x :: xs) r) with (forEach step xs (unlessThrown (step x) r)).
  unfold unlessThrown. rewrite Hr.
  destruct (threw (step x r)) eqn:Ht.
  - rewrite (forEach_thrown step xs _ Ht). now apply Hstep.
  - apply (inStep_trans r (step x r)); [intros _; exact Ht|now apply Hstep|now apply IH].
Qed.

Lemma joinMerged_inStep (dom : Dom) (p : Participant) (r : Run) :
  threw r = false -> inStep r (joinMerged dom p r).
Proof.
  intros Hr. unfold joinMerged. destruct (videoRectangle dom (id p)).
  - intros _. now exists [Joined p].
  - intros Ht. cbn in Ht. discriminate Ht.
Qed.

Lemma leaveMerged_inStep (dom : Dom) (p : Participant) (r : Run) :
  threw r = false -> inStep r (leaveMerged dom p r).
Proof.
  intros Hr. unfold leaveMerged. destruct (videoRectangle dom (id p)).
  - intros _. exists []. now rewrite app_nil_r.
  - intros _. now exists [Left p].
Qed.

Lemma handleMergedAudio_inStep (dom : Dom) (r : Run) :
  threw r = false -> inStep r (handleMergedAudio dom r).
Proof.
  intros Hr. unfold handleMergedAudio.
  destruct (mergedAudio dom) as [children|]; [|apply inStep_refl].
  destruct (detectParticipants children) as [detected|].
  - destruct (_ <? _)%nat.
    + apply forEach_inStep; [intros x r'; apply joinMerged_inStep|exact Hr].
    + destruct (_ <? _)%nat; [|apply inStep_refl].
      apply forEach_inStep; [intros x r'; apply leaveMerged_inStep|exact Hr].
  - intros Ht. cbn in Ht. discriminate Ht.
Qed.

Lemma scanNode_inStep (dom : Dom) (node : DomNode) (r : Run) :
  threw r = false -> inStep r (scanNode dom node r).
Proof.
  intros Hr. destruct node as [|participantId label]; cbn [scanNode]; [apply inStep_refl|].
  destruct (truthy participantId) as [i|]; [|now apply handleMergedAudio_inStep].
  intros _. now exists [Joined (mkParticipant i label)].
Qed.

Lemma removedNode_inStep (dom : Dom) (node : DomNode) (r : Run) :
  threw r = false -> inStep r (removedNode dom node r).
Proof.
  intros Hr. destruct node as [|participantId label]; cbn [removedNode];
    [now apply handleMergedAudio_inStep|].
  destruct (truthy participantId) as [i|]; [|now apply handleMergedAudio_inStep].
  destruct (tracked i _); [|now apply handleMergedAudio_inStep].
  intros _. now exists [Left (mkParticipant i label)].
Qed.

Lemma addedNode_inStep (dom : Dom) (node : DomNode) (r : Run) :
  threw r = false -> inStep r (addedNode dom node r).
Proof.
  intros Hr. destruct node as [|participantId label]; cbn [addedNode];
    [now apply handleMergedAudio_inStep|].
  destruct (truthy participantId) as [i|]; [|now apply handleMergedAudio_inStep].
  destruct (tracked i _); [now apply handleMergedAudio_inStep|].
  intros _. now exists [Joined (mkParticipant i label)].
Qed.

Lemma onMutation_inStep (dom : Dom) (mutation : Mutation) (r : Run) :
  threw r = false -> inStep r (onMutation dom mutation r).
Proof.
  intros Hr. unfold onMutation.
  set (r1 := if isChildList mutation then forEach (removedNode dom) (removedNodes mutation) r
             else r).
  assert (H1 : inStep r r1).
  { unfold r1. destruct (isChildList mutation); [|apply inStep_refl].
    apply forEach_inStep; [intros x r'; apply removedNode_inStep|exact Hr]. }
  unfold unlessThrown. destruct (threw r1) eqn:Ht; [exact H1|].
  apply (inStep_trans r r1); [intros _; exact Ht|exact H1|].
  apply forEach_inStep; [intros x r'; apply addedNode_inStep|exact Ht].
Qed.

(** ** The turns of the callbacks and the array of the page *)

Lemma notLeaving_nil (roster : list Participant) : notLeaving [] roster = roster.
Proof.
  unfold notLeaving. induction roster as [|q roster IH]; [reflexivity|].
  cbn [filter]. rewrite IH. reflexivity.
Qed.

Lemma notLeaving_join (pending : list string) (roster : list Participant) (p : Participant) :
  existsb (String.eqb (id p)) pending = false ->
  notLeaving pending (roster ++ [p]) = notLeaving pending roster ++ [p].
Proof. intros H. unfold notLeaving. rewrite filter_app. cbn [filter]. now rewrite H. Qed.

Lemma notLeaving_called (pending : list string) (roster : list Participant)
    (p : Participant) :
  notLeaving (id p :: pending) roster = withoutId p (notLeaving pending roster).
Proof.
  unfold notLeaving, withoutId. induction roster as [|q roster IH]; [reflexivity|].
  cbn [filter]. rewrite IH. cbn [existsb].
  destruct (String.eqb (id q) (id p)) eqn:E;
    destruct (existsb (String.eqb (id q)) pending); cbn [orb negb filter];
    rewrite ?E; reflexivity.
Qed.

Lemma pending_without (x i : string) (pending : list string) :
  existsb (String.eqb i) pending = true ->
  existsb (String.eqb x) pending
  = String.eqb x i || existsb (String.eqb x) (withoutFirst i pending).
Proof.
  induction pending as [|j pending IH]; cbn [existsb withoutFirst]; [discriminate|].
  destruct (String.eqb_spec j i) as [->|Hji]; [reflexivity|].
  destruct (String.eqb_spec i j) as [E|_]; [now elim Hji|].
  cbn [orb existsb]. intros H. rewrite (IH H).
  destruct (String.eqb x j), (String.eqb x i); reflexivity.
Qed.

Lemma notLeaving_reported (pending : list string) (roster : list Participant)
    (p : Participant) :
  existsb (String.eqb (id p)) pending = true ->
  notLeaving (withoutFirst (id p) pending) (withoutId p roster) = notLeaving pending roster.
Proof.
  intros H. unfold notLeaving, withoutId. induction roster as [|q roster IH]; [reflexivity|].
  cbn [filter]. rewrite (pending_without (id q) (id p) pending H).
  destruct (String.eqb (id q) (id p)); cbn [negb orb filter]; [exact IH|].
  rewrite IH. reflexivity.
Qed.

(** When the turns settle, the pushes and filters of the callbacks give what
    the calls give when each has run to its end before the next. *)
Lemma settled_roster (turns : list Turn) (pending : list string)
    (roster : list Participant) :
  settles pending turns = true ->
  rosterAfterTurns turns roster = rosterAfter (callsOf turns) (notLeaving pending roster).
Proof.
  revert pending roster.
  induction turns as [|[[p|p|p]|p] turns IH]; intros pending roster H;
    cbn [settles rosterAfterTurns callsOf rosterAfter] in *.
  - destruct pending; [now rewrite notLeaving_nil|discriminate H].
  - apply andb_prop in H. destruct H as [Hp H].
    rewrite (IH pending _ H), notLeaving_join; [reflexivity|].
    now destruct (existsb (String.eqb (id p)) pending).
  - now rewrite (IH _ _ H), notLeaving_called.
  - now apply IH.
  - apply andb_prop in H. destruct H as [Hp H].
    now rewrite (IH _ _ H), notLeaving_reported.
Qed.

(** The roster of the bot once the calls of a run of the script are
    delivered and the turns have settled. *)
Lemma delivered_roster (env : Env) (b : MeetsBot) (h : History) (r0 r : Run)
    (turns : list Turn) :
  emitted r0 = [] ->
  participants b = participantArray (arrays r0) ->
  inStep r0 r -> threw r = false ->
  callsOf turns = emitted r -> settles [] turns = true ->
  participants (stateOf (runCallbacks turns env b h)) = participantArray (arrays r).
Proof.
  intros He Hb Hstep Ht Hc Hs. destruct (Hstep Ht) as (calls & E & A).
  rewrite (TrackerMore.runCallbacks_roster env _ b h), (settled_roster turns [] _ Hs).
  rewrite notLeaving_nil, Hc, E, He, A, Hb. reflexivity.
Qed.

(** A node replaced by one with the same id: the page calls the leave and
    then the join back to back, so the report of the leave comes back when
    the join has pushed, and the filter of the leave removes the entry just
    pushed. The array of the page holds the participant, the roster of the
    bot is empty. *)
Example replaced_node_empties_roster :
  let r := peopleObserver plainDom [mkMutation true [adaNode] [adaNode]]
             (mkPageState [ada] []) in
  emitted r = [Left ada; Joined ada] /\
  participantArray (arrays r) = [ada] /\
  participants
    (stateOf (runCallbacks [Called (Left ada); Called (Joined ada); LeaveReported ada]
                (quietEnv 0) (set_participants [ada] meetLaunched) []))
  = [].
Proof. repeat split. Qed.

(** X28. The roster of the bot mirrors the array of the page once the turns
    of the callbacks have settled. Let no callback of the script throw, and
    let the calls that the initial scan makes, delivered to a bot with an
    empty roster, or the calls that a run of the observer makes, delivered to
    a bot whose roster is the array of the page, be taken in turns in which
    every join is called while no leave with its id awaits its report, and at
    the end of which the report of every leave has come back. Then the roster
    of the bot is equal to the array of the page. *)
Theorem bot_roster_mirrors_page (env : Env) (b : MeetsBot) (h : History) (dom : Dom)
    (childNodes : list DomNode) (mutations : list Mutation) (st : PageState)
    (turns : list Turn) :
  settles [] turns = true ->
  (participants b = [] ->
   threw (initialScan dom childNodes) = false ->
   callsOf turns = emitted (initialScan dom childNodes) ->
   participants (stateOf (runCallbacks turns env b h))
   = participantArray (arrays (initialScan dom childNodes))) /\
  (participants b = participantArray st ->
   threw (peopleObserver dom mutations st) = false ->
   callsOf turns = emitted (peopleObserver dom mutations st) ->
   participants (stateOf (runCallbacks turns env b h))
   = participantArray (arrays (peopleObserver dom mutations st))).
Proof.
  intros Hs. split; intros Hb Ht Hc.
  - apply (delivered_roster env b h (mkRun (mkPageState [] []) [] false)
             (initialScan dom childNodes) turns);
      [reflexivity|exact Hb| |exact Ht|exact Hc|exact Hs].
    apply forEach_inStep; [intros x r'; apply scanNode_inStep|reflexivity].
  - apply (delivered_roster env b h (mkRun st [] false)
             (peopleObserver dom mutations st) turns);
      [reflexivity|exact Hb| |exact Ht|exact Hc|exact Hs].
    apply forEach_inStep; [intros x r'; apply onMutation_inStep|reflexivity].
Qed.

Lemma bot_roster_mirrors_page_witness :
  participants
    (stateOf (runCallbacks [Called (Joined ada); Called (Joined bob)]
                (quietEnv 0) meetLaunched []))
  = participantArray (arrays (initialScan plainDom [adaNode; OtherNode; bobNode])) /\
  participants
    (stateOf (runCallbacks [Called (Left ada); Called (Joined bob); LeaveReported ada]
                (quietEnv 0) (set_participants [ada] meetLaunched) []))
  = participantArray
      (arrays (peopleObserver plainDom [mkMutation true [adaNode] [bobNode]]
                 (mkPageState [ada] []))).
Proof.
  split.
  - apply (proj1 (bot_roster_mirrors_page (quietEnv 0) meetLaunched [] plainDom
                    [adaNode; OtherNode; bobNode] [] (mkPageState [] [])
                    [Called (Joined ada); Called (Joined bob)] eq_refl)); reflexivity.
  - apply (proj2 (bot_roster_mirrors_page (quietEnv 0) (set_participants [ada] meetLaunched)
                    [] plainDom [] [mkMutation true [adaNode] [bobNode]]
                    (mkPageState [ada] [])
                    [Called (Left ada); Called (Joined bob); LeaveReported ada] eq_refl));
      reflexivity.
Defined.

(** ** No id twice *)

Lemma tracked_In (i : string) (array : list Participant) :
  tracked i array = true <-> In i (map id array).
Proof.
  unfold tracked. rewrite existsb_exists, in_map_iff. split.
  - intros (p & Hin & E). apply String.eqb_eq in E. now exists p.
  - intros (p & E & Hin). exists p. split; [exact Hin|]. now apply String.eqb_eq.
Qed.

Lemma dropId_NoDup (i : string) (array : list Participant) :
  NoDup (map id array) -> NoDup (map id (dropId i array)).
Proof.
  unfold dropId. induction array as [|p array IH]; intros Hnd; [exact Hnd|].
  cbn [map] in Hnd. inversion Hnd as [|x l Hnotin Hrest]; subst. cbn [filter].
  destruct (negb (String.eqb (id p) i)); [|now apply IH].
  cbn [map]. constructor; [|now apply IH].
  intros Hin. apply Hnotin. apply in_map_iff in Hin. destruct Hin as (q & E & Hq).
  apply filter_In in Hq. apply in_map_iff. exists q. now split.
Qed.

Lemma push_NoDup (p : Participant) (array : list Participant) :
  tracked (id p) array = false -> NoDup (map id array) -> NoDup (map id (array ++ [p])).
Proof.
  intros Hnew Hnd. rewrite map_app. cbn [map].
  apply NoDup_app.
  - exact Hnd.
  - repeat constructor. intros [].
  - intros x Hin [<-|[]]. apply tracked_In in Hin. rewrite Hin in Hnew. discriminate Hnew.
Qed.

Lemma forEach_keeps {X : Type} (P : Run -> Prop) (step : X -> Run -> Run) (xs : list X) :
  (forall x r, P r -> P (step x r)) -> forall r, P r -> P (forEach step xs r).
Proof.
  intros Hstep. induction xs as [|x xs IH]; intros r Hr; [exact Hr|].
  change (forEach step (x :: xs) r) with (forEach step xs (unlessThrown (step x) r)).
  apply IH. unfold unlessThrown. destruct (threw r); [exact Hr|now apply Hstep].
Qed.

(** X29. On a page without a merged-audio group the observer never holds
    an id twice: a node is added to the array only when its id is not there,
    so a run of the observer keeps the ids of the array distinct, and it
    never throws. *)
Theorem observer_keeps_ids_distinct (dom : Dom) (mutations : list Mutation) (st : PageState) :
  mergedAudio dom = None ->
  NoDup (map id (participantArray st)) ->
  NoDup (map id (participantArray (arrays (peopleObserver dom mutations st)))) /\
  threw (peopleObserver dom mutations st) = false.
Proof.
  intros Hplain Hnd.
  assert (Hm : forall r, handleMergedAudio dom r = r).
  { intros r. unfold handleMergedAudio. now rewrite Hplain. }
  set (P := fun r : Run => NoDup (map id (participantArray (arrays r))) /\ threw r = false).
  assert (Hrem : forall node r, P r -> P (removedNode dom node r)).
  { intros [|participantId label] r [Hr Ht]; cbn [removedNode]; rewrite ?Hm; [now split|].
    destruct (truthy participantId) as [i|]; rewrite ?Hm; [|now split].
    destruct (tracked i _); rewrite ?Hm; [|now split].
    split; [|exact Ht]. cbn. now apply dropId_NoDup. }
  assert (Hadd : forall node r, P r -> P (addedNode dom node r)).
  { intros [|participantId label] r [Hr Ht]; cbn [addedNode]; rewrite ?Hm; [now split|].
    destruct (truthy participantId) as [i|]; rewrite ?Hm; [|now split].
    destruct (tracked i _) eqn:Et; rewrite ?Hm; [now split|].
    split; [|exact Ht]. cbn. now apply push_NoDup. }
  assert (Hmut : forall mutation r, P r -> P (onMutation dom mutation r)).
  { intros mutation r Hr. unfold onMutation.
    set (r1 := if isChildList mutation
               then forEach (removedNode dom) (removedNodes mutation) r else r).
    assert (H1 : P r1).
    { unfold r1. destruct (isChildList mutation); [|exact Hr].
      now apply forEach_keeps. }
    unfold unlessThrown. destruct (threw r1); [exact H1|]. now apply forEach_keeps. }
  apply (forEach_keeps P (onMutation dom) mutations Hmut). now split.
Qed.

Lemma observer_keeps_ids_distinct_witness :
  NoDup (map id (participantArray
                   (arrays (peopleObserver plainDom
                              [mkMutation true [] [bobNode; bobNode; adaNode]]
                              (mkPageState [ada] []))))) /\
  threw (peopleObserver plainDom [mkMutation true [] [bobNode; bobNode; adaNode]]
           (mkPageState [ada] [])) = false.
Proof.
  apply (observer_keeps_ids_distinct plainDom
           [mkMutation true [] [bobNode; bobNode; adaNode]] (mkPageState [ada] []));
    [reflexivity|].
  repeat constructor; cbn; intuition discriminate.
Defined.

End PageMore.

(* ================================================================== *)
(** * Part XXVI.  A whole session of the Meet bot                    *)
(* ================================================================== *)

Module SessionMore.
Import Effects EffectFacts Meet Notions MoreNotions WithinFacts JoinFacts LoopFacts.
Local Open Scope bot_scope.

Ltac keeps_browser :=
  preserves_steps (@kept_refl MeetsBot _ browser) (@kept_trans MeetsBot _ browser)
    (@kept_call MeetsBot _ browser) ltac:(reflexivity).

Lemma runCallbacks_keeps_browser (evs : list Turn) :
  preserves (kept browser) (runCallbacks evs).
Proof.
  induction evs as [|ev evs IH]; cbn [runCallbacks]; [keeps_browser|].
  destruct ev as [[p|p|p]|p]; cbn [turn callbackStart];
    unfold onParticipantJoin, afterLeaveReport, registerParticipantSpeaking;
    keeps_browser; exact IH.
Qed.

Lemma runCallbacks_grows (evs : list Turn) : preserves grown (runCallbacks evs).
Proof.
  induction evs as [|ev evs IH]; cbn [runCallbacks]; [grows MeetsBot|].
  destruct ev as [[p|p|p]|p]; cbn [turn callbackStart];
    unfold onParticipantJoin, afterLeaveReport, registerParticipantSpeaking;
    grows MeetsBot; exact IH.
Qed.

Lemma meetingSetup_keeps_browser : preserves (kept browser) meetingSetup.
Proof.
  unfold meetingSetup, startRecording, getFFmpegParams, getRecordingPath, handleInfoPopup,
    onPage, requirePage, deliverPageEvents.
  keeps_browser.
  all: intros env0 s0 h0; exact (runCallbacks_keeps_browser (pageEvents env0 h0) env0 s0 h0).
Qed.

Lemma meetingSetup_grows : preserves grown meetingSetup.
Proof.
  unfold meetingSetup, startRecording, getFFmpegParams, getRecordingPath, handleInfoPopup,
    onPage, requirePage, deliverPageEvents.
  grows MeetsBot.
  all: intros env0 s0 h0; exact (runCallbacks_grows (pageEvents env0 h0) env0 s0 h0).
Qed.

Lemma loopIteration_keeps_browser : preserves (kept browser) loopIteration.
Proof.
  unfold loopIteration, aloneTimedOut, checkKicked, noActivity, handleInfoPopup,
    onPage, requirePage, deliverPageEvents.
  keeps_browser.
  all: intros env0 s0 h0; exact (runCallbacks_keeps_browser (pageEvents env0 h0) env0 s0 h0).
Qed.

Lemma loopIteration_grows : preserves grown loopIteration.
Proof.
  unfold loopIteration, aloneTimedOut, checkKicked, noActivity, handleInfoPopup,
    onPage, requirePage, deliverPageEvents.
  grows MeetsBot.
  all: intros env0 s0 h0; exact (runCallbacks_grows (pageEvents env0 h0) env0 s0 h0).
Qed.

Lemma meetingLoop_keeps_browser (ticks : nat) : preserves (kept browser) (meetingLoop ticks).
Proof.
  induction ticks as [|ticks IH]; cbn [meetingLoop]; [keeps_browser|].
  apply (preserves_bind _ (@kept_trans MeetsBot _ browser)).
  - apply loopIteration_keeps_browser.
  - intros [c|]; [keeps_browser|exact IH].
Qed.

Lemma meetingLoop_grows (ticks : nat) : preserves grown (meetingLoop ticks).
Proof.
  induction ticks as [|ticks IH]; cbn [meetingLoop]; [grows MeetsBot|].
  apply (preserves_bind _ (@grown_trans MeetsBot)).
  - apply loopIteration_grows.
  - intros [c|]; [grows MeetsBot|exact IH].
Qed.

Lemma joinMeeting_grows : preserves grown joinMeeting.
Proof.
  unfold joinMeeting, joinUntilEntryClick, awaitEntry, launchBrowser, onPage, requirePage.
  grows MeetsBot.
Qed.

(** A join that resolves leaves the browser launched. *)
Lemma joinUntilEntryClick_browser (env : Env) (b : MeetsBot) (h : History) :
  outcomeOf (joinUntilEntryClick env b h) = Resolved tt ->
  browser (stateOf (joinUntilEntryClick env b h)) = Some handle.
Proof.
  unfold joinUntilEntryClick. rewrite bind_run.
  assert (L : outcomeOf (launchBrowser env b h) = Resolved tt ->
              browser (stateOf (launchBrowser env b h)) = Some handle).
  { unfold launchBrowser. run. answers; try discriminate. reflexivity. }
  destruct (outcomeOf (launchBrowser env b h)) as [[]|e|]; try discriminate.
  specialize (L eq_refl). intros _.
  match goal with |- context [stateOf (?rest env ?s ?hh)] =>
    assert (K : preserves (kept browser) rest)
  end.
  { unfold onPage, requirePage. keeps_browser. }
  rewrite <- L. apply (K env _ _).
Qed.

Lemma joinMeeting_browser (env : Env) (b : MeetsBot) (h : History) (status : Z) :
  outcomeOf (joinMeeting env b h) = Resolved status ->
  browser (stateOf (joinMeeting env b h)) = Some handle.
Proof.
  unfold joinMeeting. rewrite bind_run.
  pose proof (joinUntilEntryClick_browser env b h) as P.
  destruct (outcomeOf (joinUntilEntryClick env b h)) as [[]|e|]; try discriminate.
  intros _. rewrite <- (P eq_refl).
  assert (Ka : preserves (kept browser) awaitEntry)
    by (unfold awaitEntry, onPage, requirePage; keeps_browser).
  apply (Ka env _ _).
Qed.

Lemma stopRecording_grows : preserves grown stopRecording.
Proof.
  unfold stopRecording. grows MeetsBot.
  intros env0 s0 h0. exact (awaitEncoder_grows (encoderEvents env0 h0) env0 s0 h0).
Qed.

(** The cleanup in terms of its [stopRecording]. *)
Lemma endLife_run (env : Env) (b : MeetsBot) (h : History) :
  endLife env b h =
  match stopRecording env b (h ++ [Log "Stopping Recording ..."]) with
  | (Resolved _, s1, h1) =>
      match browser s1 with
      | Some _ =>
          match rejects env (h1 ++ [Log "Done."]) BrowserClose with
          | None => (Resolved tt, s1,
                     ((h1 ++ [Log "Done."]) ++ [BrowserClose]) ++ [Log "Closed Browser."])
          | Some e => (Rejected (Lib e), s1, (h1 ++ [Log "Done."]) ++ [BrowserClose])
          end
      | None => (Resolved tt, s1, h1 ++ [Log "Done."])
      end
  | (Rejected e, s1, h1) => (Rejected e, s1, h1)
  | (Pending, s1, h1) => (Pending, s1, h1)
  end.
Proof.
  unfold endLife. run.
  destruct (stopRecording env b (h ++ [Log "Stopping Recording ..."])) as [[[z|e|] s1] h1];
    try reflexivity.
  destruct (browser s1); [|reflexivity].
  now destruct (rejects env (h1 ++ [Log "Done."]) BrowserClose).
Qed.

(** A cleanup that resolves with the browser launched has closed it. *)
Lemma endLife_resolved_closed (env : Env) (b : MeetsBot) (h : History) (p : Handle) :
  browser b = Some p ->
  outcomeOf (endLife env b h) = Resolved tt ->
  exists added, historyOf (endLife env b h) = h ++ added /\ In BrowserClose added.
Proof.
  intros Hb. rewrite endLife_run.
  set (h1 := h ++ [Log "Stopping Recording ..."]).
  pose proof (CleanupMore.stopRecording_keeps_browser env b h1) as K.
  unfold kept, stateOf in K. cbn [fst snd] in K. rewrite Hb in K.
  destruct (stopRecording_grows env b h1) as [a1 E1]. unfold historyOf in E1.
  cbn [snd] in E1.
  destruct (stopRecording env b h1) as [[[z|e|] s1] h1']; cbn [fst snd] in *;
    try discriminate.
  subst h1'. rewrite K.
  destruct (rejects env _ BrowserClose); [discriminate|]. intros _.
  unfold historyOf; cbn [snd].
  exists ((Log "Stopping Recording ..." :: a1) ++ [Log "Done."; BrowserClose;
                                                    Log "Closed Browser."]).
  split; [unfold h1; rewrite <- !app_assoc; reflexivity|].
  apply in_or_app. right. cbn. tauto.
Qed.

Lemma leaveMeeting_keeps_browser : preserves (kept browser) leaveMeeting.
Proof.
  unfold leaveMeeting, endLife, stopRecording, onPage, requirePage. keeps_browser.
  intros env0 s0 h0.
  exact (CleanupMore.awaitEncoder_keeps_browser (encoderEvents env0 h0) env0 s0 h0).
Qed.

Lemma leaveMeeting_grows : preserves grown leaveMeeting.
Proof.
  unfold leaveMeeting, endLife, stopRecording, onPage, requirePage. grows MeetsBot.
  intros env0 s0 h0. exact (awaitEncoder_grows (encoderEvents env0 h0) env0 s0 h0).
Qed.

(** The exit in terms of its cleanups: the one of [leaveMeeting] and, when
    that one rejects, the one of the [catch]. *)
Lemma meetingExit_run (env : Env) (b : MeetsBot) (h : History) :
  exists a1,
    meetingExit env b h =
    match endLife env b (h ++ a1) with
    | (Resolved _, s2, h2) => (Resolved 0, s2, h2)
    | (Rejected _, s2, h2) =>
        match endLife env s2 h2 with
        | (Resolved _, s3, h3) => (Resolved 1, s3, h3)
        | (Rejected e, s3, h3) => (Rejected e, s3, h3)
        | (Pending, s3, h3) => (Pending, s3, h3)
        end
    | (Pending, s2, h2) => (Pending, s2, h2)
    end.
Proof.
  unfold meetingExit, leaveMeeting, onPage, requirePage. run.
  destruct (page b).
  - match goal with |- context [rejects env ?hh (Click leaveButton (Some 1000))] =>
      destruct (rejects env hh (Click leaveButton (Some 1000))) end.
    + exists [ Log "Starting End Life Actions ..."; Log "Trying to leave the call ...";
               Click leaveButton (Some 1000);
               Log "Attempted to Leave Call - could not (probably already left).";
               Log "Ending Life ..." ].
      rewrite <- !app_assoc. cbn [app].
      match goal with |- context [endLife env b ?hh] =>
        destruct (endLife env b hh) as [[[[]|e|] s2] h2]; reflexivity end.
    + exists [ Log "Starting End Life Actions ..."; Log "Trying to leave the call ...";
               Click leaveButton (Some 1000); Log "Left Call."; Log "Ending Life ..." ].
      rewrite <- !app_assoc. cbn [app].
      match goal with |- context [endLife env b ?hh] =>
        destruct (endLife env b hh) as [[[[]|e|] s2] h2]; reflexivity end.
  - exists [ Log "Starting End Life Actions ..."; Log "Trying to leave the call ...";
             Log "Attempted to Leave Call - could not (probably already left).";
             Log "Ending Life ..." ].
    rewrite <- !app_assoc. cbn [app].
    match goal with |- context [endLife env b ?hh] =>
      destruct (endLife env b hh) as [[[[]|e|] s2] h2]; reflexivity end.
Qed.

Lemma endLife_keeps_browser : preserves (kept browser) endLife.
Proof.
  unfold endLife, stopRecording. keeps_browser. intros env0 s0 h0.
  exact (CleanupMore.awaitEncoder_keeps_browser (encoderEvents env0 h0) env0 s0 h0).
Qed.

(** An exit that resolves with the browser launched has closed it. *)
Lemma meetingExit_resolved_closed (env : Env) (b : MeetsBot) (h : History) (p : Handle)
    (status : Z) :
  browser b = Some p ->
  outcomeOf (meetingExit env b h) = Resolved status ->
  exists added, historyOf (meetingExit env b h) = h ++ added /\ In BrowserClose added.
Proof.
  intros Hb. destruct (meetingExit_run env b h) as [a1 ->].
  pose proof (endLife_resolved_closed env b (h ++ a1) p Hb) as C1.
  pose proof (endLife_keeps_browser env b (h ++ a1)) as Kb.
  destruct (endLife_grows env b (h ++ a1)) as [a2 E2].
  unfold kept, outcomeOf, stateOf, historyOf in *. cbn [fst snd] in Kb, E2.
  destruct (endLife env b (h ++ a1)) as [[[[]|e|] s2] h2]; cbn [fst snd] in *.
  - intros _. destruct (C1 eq_refl) as (a3 & E3 & I3). rewrite E3.
    exists (a1 ++ a3). split; [now rewrite app_assoc|]. apply in_or_app. now right.
  - rewrite Hb in Kb.
    pose proof (endLife_resolved_closed env s2 h2 p Kb) as C2.
    unfold outcomeOf, historyOf in C2.
    destruct (endLife env s2 h2) as [[[[]|e'|] s3] h3]; cbn [fst snd] in *;
      try discriminate.
    intros _. destruct (C2 eq_refl) as (a3 & E3 & I3). rewrite E3, E2.
    exists ((a1 ++ a2) ++ a3). split; [now rewrite !app_assoc|].
    apply in_or_app. now right.
  - discriminate.
Qed.

(** X30. A session of the Meet bot that resolves has closed its browser:
    [run] resolves only after the join has resolved, the loop has been left
    for a leave condition and a cleanup has closed the browser that the join
    launched. *)
Theorem run_resolves_after_closing_browser (ticks : nat) (env : Env) (b : MeetsBot)
    (h : History) (status : Z) :
  outcomeOf (run ticks env b h) = Resolved status ->
  exists added, historyOf (run ticks env b h) = h ++ added /\ In BrowserClose added.
Proof.
  unfold run. rewrite bind_run.
  pose proof (joinMeeting_browser env b h) as Jb.
  destruct (joinMeeting_grows env b h) as [a1 E1]. cbn [snd] in E1. rewrite E1.
  generalize dependent (stateOf (joinMeeting env b h)). intros s1 Jb.
  destruct (outcomeOf (joinMeeting env b h)) as [z|e|]; try discriminate.
  specialize (Jb z eq_refl).
  unfold meetingActions. rewrite bind_run.
  pose proof (meetingSetup_keeps_browser env s1 (h ++ a1)) as K2. unfold kept in K2.
  cbn [fst] in K2. rewrite Jb in K2.
  destruct (meetingSetup_grows env s1 (h ++ a1)) as [a2 E2]. cbn [snd] in E2. rewrite E2.
  generalize dependent (stateOf (meetingSetup env s1 (h ++ a1))). intros s2 K2.
  destruct (outcomeOf (meetingSetup env s1 (h ++ a1))) as [[]|e|]; try discriminate.
  rewrite bind_run.
  pose proof (meetingLoop_keeps_browser ticks env s2 ((h ++ a1) ++ a2)) as K3.
  unfold kept in K3. cbn [fst] in K3. rewrite K2 in K3.
  destruct (meetingLoop_grows ticks env s2 ((h ++ a1) ++ a2)) as [a3 E3].
  cbn [snd] in E3. rewrite E3.
  generalize dependent (stateOf (meetingLoop ticks env s2 ((h ++ a1) ++ a2))). intros s3 K3.
  destruct (outcomeOf (meetingLoop ticks env s2 ((h ++ a1) ++ a2))) as [[c|]|e|];
    try discriminate.
  intros Hexit.
  destruct (meetingExit_resolved_closed env s3 _ handle status K3 Hexit) as (a4 & E4 & I4).
  rewrite E4. exists (((a1 ++ a2) ++ a3) ++ a4).
  split; [now rewrite <- !app_assoc|]. apply in_or_app. now right.
Qed.

Lemma run_resolves_after_closing_browser_witness :
  exists added,
    historyOf (run 1 shortSession (newMeetsBot sampleSettings) []) = [] ++ added /\
    In BrowserClose added.
Proof.
  apply (run_resolves_after_closing_browser 1 shortSession (newMeetsBot sampleSettings) []
           0%Z).
  reflexivity.
Defined.

End SessionMore.
